(** * 2kcomp-league-bot: leaders, records and milestone engine

    A shallow embedding of the aggregation core of the bot
    ([core/milestones.py], [core/leaders.py], [core/records.py],
    [core/sportspress.py]) and the properties of its specification.

    Conventions.
    - The [float] statistics of players and rows are modelled as
      rationals [Q]: the code only compares them (and negates them in a
      sort key), both of which are exact on finite floats.  The values
      of records and of record candidates are floats with NaN and the
      infinities ([PyFloat.t]): the update of a maximum behaves
      differently there.  [float(n)] raises [OverflowError] on an
      integer beyond the range of a double.
    - Python [int] is [Z]; [str] is [string], the bytes of the UTF-8
      encoding.  [str.lower()] is a function of the interpreter
      ([Py.str_lower]); digit tests and the side tests of the row
      extraction are the ASCII ones.
    - A [dict] read by key is a [gmap]; a [dict] that is iterated is the
      list of its items in insertion order. *)

From Stdlib Require Import QArith Lqa Ascii String Sorting.Sorted Permutation.
From Stdlib Require OrderedTypeEx.
From stdpp Require Import gmap strings list fin_maps pretty.

Local Open Scope string_scope.

(** ** Comparisons on float values *)

Definition Qlt_bool (x y : Q) : bool := negb (Qle_bool y x).

(** ** Float values

    A float is a finite number, an infinity or NaN.  Every comparison
    with NaN is false. *)

Module PyFloat.

Inductive t := NaN | NegInf | Finite (q : Q) | PosInf.

(** [a < b]. *)
Definition ltb (a b : t) : bool :=
  match a, b with
  | NaN, _ | _, NaN => false
  | NegInf, NegInf => false
  | NegInf, _ => true
  | Finite _, NegInf => false
  | Finite p, Finite q => Qlt_bool p q
  | Finite _, PosInf => true
  | PosInf, _ => false
  end.

(** [a > b]. *)
Definition gtb (a b : t) : bool := ltb b a.

Definition is_nan (a : t) : bool :=
  match a with NaN => true | _ => false end.

Definition lt (a b : t) : Prop := ltb a b = true.

(** [a == b]. *)
Definition eq (a b : t) : Prop :=
  match a, b with
  | NegInf, NegInf | PosInf, PosInf => True
  | Finite p, Finite q => (p == q)%Q
  | _, _ => False
  end.

(** [a <= b]. *)
Definition le (a b : t) : Prop := lt a b \/ eq a b.

End PyFloat.

(** * Python values

    Event payloads are decoded JSON.  A JSON object is kept as the list
    of its items, in order and with distinct keys. *)

Module Py.

Unset Elimination Schemes.
Inductive json : Type :=
| JNull
| JBool (b : bool)
| JInt (n : Z)
| JFloat (q : Q)
| JStr (s : string)
| JList (l : list json)
| JDict (d : list (string * json)).
Set Elimination Schemes.

(** Truth value of an object ([if x:], [x or y], [not x]). *)
Definition truthy (v : json) : bool :=
  match v with
  | JNull => false
  | JBool b => b
  | JInt n => negb (n =? 0)%Z
  | JFloat q => negb (Qeq_bool q 0)
  | JStr s => negb (String.eqb s "")
  | JList l => match l with [] => false | _ => true end
  | JDict d => match d with [] => false | _ => true end
  end.

(** [d.get(k)] on the items of a dict. *)
Fixpoint dict_get (d : list (string * json)) (k : string) : option json :=
  match d with
  | [] => None
  | (k', v) :: d' => if String.eqb k' k then Some v else dict_get d' k
  end.

(** [d[k] = v]: an existing key keeps its place, a new key goes last. *)
Fixpoint dict_set (d : list (string * json)) (k : string) (v : json)
    : list (string * json) :=
  match d with
  | [] => [(k, v)]
  | (k', v') :: d' =>
      if String.eqb k' k then (k', v) :: d' else (k', v') :: dict_set d' k v
  end.

(** [x.get(k, dflt)] on any object; [None] is the [AttributeError] of
    an object that is not a dict. *)
Definition get (x : json) (k : string) (dflt : json) : option json :=
  match x with
  | JDict d => Some (default dflt (dict_get d k))
  | _ => None
  end.

(** [len(x)]; [None] is a [TypeError]. *)
Definition len (x : json) : option nat :=
  match x with
  | JStr s => Some (String.length s)
  | JList l => Some (length l)
  | JDict d => Some (length d)
  | _ => None
  end.

(** [x[i]] for a literal index [i]; [None] is an [IndexError],
    [KeyError] (the keys of a decoded object are strings) or
    [TypeError]. *)
Definition item (x : json) (i : nat) : option json :=
  match x with
  | JList l => l !! i
  | JStr s => option_map (fun c => JStr (String c EmptyString)) (String.get i s)
  | _ => None
  end.

(** [str.lower()] on strings of ASCII characters.  It also serves
    where the lower-cased string is only tested against the ASCII
    literals ["home"], ["a"] and ["team_a"]: no character outside
    ASCII lower-cases to a letter of these, so the tests give what
    they give with [str.lower()] on every string. *)
Definition lower_ascii (c : ascii) : ascii :=
  let n := nat_of_ascii c in
  if (65 <=? n)%nat && (n <=? 90)%nat then ascii_of_nat (n + 32) else c.

Fixpoint lower (s : string) : string :=
  match s with
  | EmptyString => EmptyString
  | String c s' => String (lower_ascii c) (lower s')
  end.

(** Every character of [s] is an ASCII character. *)
Fixpoint is_ascii (s : string) : bool :=
  match s with
  | EmptyString => true
  | String c s' => (nat_of_ascii c <? 128)%nat && is_ascii s'
  end.

(** [str.lower()] of the interpreter.  A string stands for its UTF-8
    encoding, whose byte order is the order of the code points.
    [str.lower()] folds every cased letter of Unicode, which is not
    computed here; on a string of ASCII characters it folds the letters
    A to Z and is [lower]. *)
Class Text := {
  str_lower : string -> string;
  str_lower_ascii : forall s, is_ascii s = true -> str_lower s = lower s
}.

Definition is_digit (c : ascii) : bool :=
  let n := nat_of_ascii c in (48 <=? n)%nat && (n <=? 57)%nat.

Fixpoint all_digits (s : string) : bool :=
  match s with
  | EmptyString => true
  | String c s' => is_digit c && all_digits s'
  end.

(** [s.isdigit()]. *)
Definition isdigit (s : string) : bool :=
  negb (String.eqb s "") && all_digits s.

(** Value of a string of decimal digits. *)
Fixpoint digits_value (acc : Z) (s : string) : Z :=
  match s with
  | EmptyString => acc
  | String c s' =>
      digits_value (10 * acc + (Z.of_nat (nat_of_ascii c) - 48))%Z s'
  end.

Definition is_space (c : ascii) : bool :=
  let n := nat_of_ascii c in
  ((9 <=? n)%nat && (n <=? 13)%nat) || ((28 <=? n)%nat && (n <=? 32)%nat).

Fixpoint lstrip (s : string) : string :=
  match s with
  | EmptyString => EmptyString
  | String c s' => if is_space c then lstrip s' else s
  end.

Fixpoint rstrip (s : string) : string :=
  match s with
  | EmptyString => EmptyString
  | String c s' =>
      match rstrip s' with
      | EmptyString => if is_space c then EmptyString else String c EmptyString
      | r => String c r
      end
  end.

(** [s.strip()]. *)
Definition strip (s : string) : string := rstrip (lstrip s).

(** What the interpreter and pydantic do on values the repository's
    code does not inspect itself.  [None] results are exceptions
    ([ValueError], [TypeError], [ValidationError]). *)
Class Runtime := {
  (** [float(s)] for a string *)
  float_of_string : string -> option Q;
  (** [int(s)] for a string *)
  int_of_string : string -> option Z;
  (** [str(x)] for a float *)
  str_of_float : Q -> string;
  (** [str(x)] for a list or a dict *)
  str_of_container : json -> string;
  (** validation of an [Optional[int]] model field *)
  validate_optional_int : json -> option (option Z);
  (** validation of an [Optional[str]] model field *)
  validate_optional_str : json -> option (option string)
}.

Section WithRuntime.
Context {rt : Runtime}.

(** [str(x)], also what an f-string substitutes. *)
Definition str (x : json) : string :=
  match x with
  | JNull => "None"
  | JBool true => "True"
  | JBool false => "False"
  | JInt n => pretty n
  | JFloat q => str_of_float q
  | JStr s => s
  | JList _ | JDict _ => str_of_container x
  end.

(** [int(x)]; a float is truncated towards zero. *)
Definition int (x : json) : option Z :=
  match x with
  | JInt n => Some n
  | JBool b => Some (if b then 1 else 0)%Z
  | JFloat q => Some (Z.quot (Qnum q) (Zpos (Qden q)))
  | JStr s => int_of_string s
  | JNull | JList _ | JDict _ => None
  end.

(** [float(n)] raises [OverflowError] for an integer that rounds to
    [2^1024] or beyond. *)
Definition float_overflows (x : json) : bool :=
  match x with
  | JInt n => (2 ^ 1024 - 2 ^ 970 <=? Z.abs n)%Z
  | _ => false
  end.

(** [float(x)]; [None] is a [ValueError], a [TypeError] or, when
    [float_overflows x], an [OverflowError]. *)
Definition float (x : json) : option Q :=
  match x with
  | JInt n => if float_overflows x then None else Some (inject_Z n)
  | JBool b => Some (if b then 1 else 0)%Q
  | JFloat q => Some q
  | JStr s => float_of_string s
  | JNull | JList _ | JDict _ => None
  end.

End WithRuntime.

End Py.

(** * Data model ([core/types.py], [core/records.py]) *)

Module EventPlayerRow.
Record t := mk {
  name : string;
  team : string;
  opp : string;
  game : string;
  date : string;
  points : Q;
  rebounds : Q;
  assists : Q;
  steals : Q;
  blocks : Q;
  threes_made : Q;
  fgm : Q;
  fga : Q;
  threepm : Q;
  threepa : Q;
  fg_percent : Q;
  threep_percent : Q;
  player_id : option Z;
  team_id : option Z;
  opp_team_id : option Z;
  (** assigned after construction, hence not validated *)
  game_url : option Py.json
}.
End EventPlayerRow.

Module RecordCandidate.
Record t := mk {
  stat : string;
  value : PyFloat.t;
  holder : string;
  game : string;
  date : string;
  player_id : option Z;
  team_id : option Z;
  opp_team_id : option Z;
  game_url : option Py.json;
  player_url : option string
}.
End RecordCandidate.

Module SingleGameRecord.
Record t := mk {
  stat : string;
  value : PyFloat.t;
  holder : string;
  game : string;
  date : string;
  player_id : option Z;
  team_id : option Z;
  opp_team_id : option Z;
  game_url : option Py.json;
  player_url : option string
}.
End SingleGameRecord.

(** [DoubleDouble] and [TripleDouble] have the same fields. *)
Module Achievement.
Record t := mk {
  player : string;
  game : string;
  date : string;
  categories : list string;
  values : list (string * Q);
  player_id : option Z;
  team_id : option Z;
  opp_team_id : option Z;
  game_url : option string;
  player_url : option string
}.
End Achievement.

Module RecordsData.
Record t := mk {
  points : option SingleGameRecord.t;
  rebounds : option SingleGameRecord.t;
  assists : option SingleGameRecord.t;
  steals : option SingleGameRecord.t;
  blocks : option SingleGameRecord.t;
  threes_made : option SingleGameRecord.t;
  fg_percent : option SingleGameRecord.t;
  threep_percent : option SingleGameRecord.t;
  double_doubles : list Achievement.t;
  triple_doubles : list Achievement.t
}.

(** [RecordsData()]: every record unset, no achievements. *)
Definition empty : t :=
  mk None None None None None None None None [] [].
End RecordsData.

(** * Milestone detection ([core/milestones.py]) *)

Module Milestones.

(** [MILESTONES]: thresholds per statistic, in the dict's order. *)
Definition MILESTONES : list (string * list Z) :=
  [ ("points",      [100; 250; 500; 750; 1000; 1500; 2000]%Z);
    ("assists",     [50; 100; 250; 500; 750; 1000]%Z);
    ("rebounds",    [50; 100; 250; 500; 750; 1000]%Z);
    ("steals",      [25; 50; 100; 200; 300]%Z);
    ("blocks",      [25; 50; 100; 200; 300]%Z);
    ("threes_made", [25; 50; 100; 200; 300]%Z) ].

(** [@dataclass PlayerTotals]. *)
Record PlayerTotals := mkPlayerTotals {
  player_id : Z;
  name : string;
  points : Q;
  assists : Q;
  rebounds : Q;
  steals : Q;
  blocks : Q;
  threes_made : Q
}.

(** [MilestoneNotification].  Its [message] field is the text rendered
    by [_format_milestone_message] from the four fields kept here; no
    code path reads it back, and it is left out. *)
Record MilestoneNotification := mkNotification {
  player : string;
  stat : string;
  value : Q;
  threshold : Z
}.

(** [getattr(player_totals, stat, 0.0)] for the float fields. *)
Definition getattr_totals (pt : PlayerTotals) (s : string) : Q :=
  if String.eqb s "points" then points pt
  else if String.eqb s "assists" then assists pt
  else if String.eqb s "rebounds" then rebounds pt
  else if String.eqb s "steals" then steals pt
  else if String.eqb s "blocks" then blocks pt
  else if String.eqb s "threes_made" then threes_made pt
  else 0%Q.

(** [str(player_id)]. *)
Definition str_of_int (n : Z) : string := pretty n.

Definition _get_crossed_thresholds
    (previous_total current_total : Q) (thresholds : list Z) : list Z :=
  List.filter
    (fun t => Qlt_bool previous_total (inject_Z t)
              && Qle_bool (inject_Z t) current_total)
    thresholds.

(** [t not in sent_thresholds]. *)
Definition not_sent (sent_thresholds : list Z) (t : Z) : bool :=
  negb (existsb (Z.eqb t) sent_thresholds).

(** The body of the loop over [MILESTONES.keys()] for one player and one
    statistic: the thresholds that get a notification. *)
Definition new_thresholds
    (previous_totals : gmap string Q)
    (player_milestones_sent : gmap string (list Z))
    (pt : PlayerTotals) (s : string) (thresholds : list Z) : list Z :=
  let current_value := getattr_totals pt s in
  let previous_value := default 0%Q (previous_totals !! s) in
  let crossed_thresholds :=
    _get_crossed_thresholds previous_value current_value thresholds in
  let sent_thresholds := default [] (player_milestones_sent !! s) in
  List.filter (not_sent sent_thresholds) crossed_thresholds.

Definition notify (pt : PlayerTotals) (s : string) (t : Z)
    : MilestoneNotification :=
  {| player := name pt; stat := s; value := getattr_totals pt s;
     threshold := t |}.

(** The notifications of one iteration of the loop over the
    statistics. *)
Definition stat_crossings
    (previous_totals : gmap string Q)
    (player_milestones_sent : gmap string (list Z))
    (pt : PlayerTotals) (st : string * list Z) : list MilestoneNotification :=
  map (notify pt st.1)
      (new_thresholds previous_totals player_milestones_sent pt st.1 st.2).

(** The notifications of one iteration of the outer loop. *)
Definition player_crossings
    (last_totals : gmap string (gmap string Q))
    (milestones_sent : gmap string (gmap string (list Z)))
    (entry : Z * PlayerTotals) : list MilestoneNotification :=
  let '(pid, pt) := entry in
  let player_id_str := str_of_int pid in
  let previous_totals := default ∅ (last_totals !! player_id_str) in
  let player_milestones_sent := default ∅ (milestones_sent !! player_id_str) in
  flat_map (stat_crossings previous_totals player_milestones_sent pt)
           MILESTONES.

(** [current_totals] is the item list of the dict. *)
Definition detect_milestone_crossings
    (current_totals : list (Z * PlayerTotals))
    (last_totals : gmap string (gmap string Q))
    (milestones_sent : gmap string (gmap string (list Z)))
    : list MilestoneNotification :=
  flat_map (player_crossings last_totals milestones_sent) current_totals.

(** The dict literal stored in [updated_last_totals]. *)
Definition totals_dict (pt : PlayerTotals) : gmap string Q :=
  <["threes_made" := threes_made pt]>
  (<["blocks" := blocks pt]>
  (<["steals" := steals pt]>
  (<["rebounds" := rebounds pt]>
  (<["assists" := assists pt]>
  (<["points" := points pt]> ∅))))).

(** One iteration of the second loop of [update_milestone_state], on
    the copy [updated_milestones_sent]: missing keys are created, then
    the threshold is appended. *)
Definition record_sent
    (sent : gmap string (gmap string (list Z))) (n : MilestoneNotification)
    : gmap string (gmap string (list Z)) :=
  let player_id_str := player n in
  let inner := default ∅ (sent !! player_id_str) in
  let old := default [] (inner !! stat n) in
  <[player_id_str := <[stat n := (old ++ [threshold n])%list]> inner]> sent.

(** [milestones_sent.copy()] is a shallow copy: a player key already
    present in the caller's dict is bound in the copy to the same inner
    dict, which the loop mutates in place.  The state of the loop is the
    pair (caller's dict, copy); keys created by the loop exist in the
    copy only. *)
Definition record_sent_shared
    (st : gmap string (gmap string (list Z))
          * gmap string (gmap string (list Z)))
    (n : MilestoneNotification)
    : gmap string (gmap string (list Z))
      * gmap string (gmap string (list Z)) :=
  let '(caller, copy) := st in
  let copy' := record_sent copy n in
  let caller' :=
    match caller !! player n, copy' !! player n with
    | Some _, Some inner => <[player n := inner]> caller
    | _, _ => caller
    end in
  (caller', copy').

(** [update_milestone_state] returns the pair
    [(updated_last_totals, updated_milestones_sent)]. *)
Definition update_milestone_state
    (current_totals : list (Z * PlayerTotals))
    (notifications : list MilestoneNotification)
    (last_totals : gmap string (gmap string Q))
    (milestones_sent : gmap string (gmap string (list Z)))
    : gmap string (gmap string Q) * gmap string (gmap string (list Z)) :=
  let updated_last_totals :=
    fold_left
      (fun acc '(pid, pt) => <[str_of_int pid := totals_dict pt]> acc)
      current_totals last_totals in
  let updated_milestones_sent :=
    snd (fold_left record_sent_shared notifications
                   (milestones_sent, milestones_sent)) in
  (updated_last_totals, updated_milestones_sent).

(** The caller's [milestones_sent] object once the call has returned. *)
Definition milestones_sent_after_update
    (notifications : list MilestoneNotification)
    (milestones_sent : gmap string (gmap string (list Z)))
    : gmap string (gmap string (list Z)) :=
  fst (fold_left record_sent_shared notifications
                 (milestones_sent, milestones_sent)).

(** [scan_and_detect_crossings] after the totals have been fetched: one
    detection-and-update pass. *)
Definition detect_and_update
    (current_totals : list (Z * PlayerTotals))
    (last_totals : gmap string (gmap string Q))
    (milestones_sent : gmap string (gmap string (list Z)))
    : list MilestoneNotification
      * (gmap string (gmap string Q) * gmap string (gmap string (list Z))) :=
  let notifications :=
    detect_milestone_crossings current_totals last_totals milestones_sent in
  (notifications,
   update_milestone_state current_totals notifications
                          last_totals milestones_sent).

End Milestones.

(** * Leaders ([core/leaders.py]) *)

Module Leaders.

(** [PlayerStats] of [core/types.py]. *)
Record PlayerStats := mkPlayerStats {
  id : Z;
  name : string;
  points : Q;
  assists : Q;
  rebounds : Q;
  steals : Q;
  blocks : Q;
  threes_made : Q;
  fgm : Q;
  fga : Q;
  threepm : Q;
  threepa : Q;
  fg_percent : Q;
  threep_percent : Q
}.

(** [LeaderEntry]. *)
Record LeaderEntry := mkLeaderEntry {
  entry_name : string;
  entry_value : Q
}.

(** The statistics ranked by [top_n_season_leaders], in its order. *)
Inductive Stat := Points | Assists | Rebounds | Steals | Blocks | ThreesMade.

Definition tracked_stats : list Stat :=
  [Points; Assists; Rebounds; Steals; Blocks; ThreesMade].

(** [getattr(player, stat, 0.0)]. *)
Definition getattr_stat (p : PlayerStats) (s : Stat) : Q :=
  match s with
  | Points => points p
  | Assists => assists p
  | Rebounds => rebounds p
  | Steals => steals p
  | Blocks => blocks p
  | ThreesMade => threes_made p
  end.

(** The sort key [(-x[1], x[0].lower())] and the tuple comparison [<]
    that [list.sort] applies to keys. *)
Definition sort_key {tx : Py.Text} (x : string * Q) : Q * string :=
  ((- snd x)%Q, Py.str_lower (fst x)).

Definition key_lt (a b : Q * string) : bool :=
  Qlt_bool (fst a) (fst b)
  || (Qeq_bool (fst a) (fst b) && String.ltb (snd a) (snd b)).

(** [list.sort(key=...)] is stable; a stable insertion sort returns the
    same list.  An element moves right only past strictly smaller
    keys. *)
Fixpoint insert_by_key {tx : Py.Text} (x : string * Q) (l : list (string * Q))
    : list (string * Q) :=
  match l with
  | [] => [x]
  | y :: l' =>
      if key_lt (sort_key y) (sort_key x) then y :: insert_by_key x l'
      else x :: y :: l'
  end.

Definition sort_by_key {tx : Py.Text} (l : list (string * Q))
    : list (string * Q) :=
  fold_right insert_by_key [] l.

Definition _stable_sort_leaders {tx : Py.Text} (players : list PlayerStats)
    (s : Stat) : list (string * Q) :=
  let stat_values :=
    map (fun p => (name p, getattr_stat p s))
        (List.filter (fun p => Qlt_bool 0 (getattr_stat p s)) players) in
  sort_by_key stat_values.

(** The slice [l[:n]]; a negative [n] counts from the end. *)
Definition slice_to {A} (l : list A) (n : Z) : list A :=
  if (n <? 0)%Z then firstn (length l - Z.to_nat (- n)) l
  else firstn (Z.to_nat n) l.

(** [LeaderEntry(name=name, value=value)] of a sorted pair. *)
Definition make_entry (x : string * Q) : LeaderEntry :=
  let '(nm, v) := x in mkLeaderEntry nm v.

(** The leaders of one statistic as [top_n_season_leaders] builds them
    from the fetched players. *)
Definition top_n {tx : Py.Text} (players : list PlayerStats) (s : Stat)
    (n : Z) : list LeaderEntry :=
  map make_entry (slice_to (_stable_sort_leaders players s) n).

End Leaders.

(** * Row extraction ([core/sportspress.py]) *)

Module Sportspress.
Import Py.

Section WithRuntime.
Context {rt : Runtime}.

(** [a or b]. *)
Definition or_else (a b : json) : json := if truthy a then a else b.

(** [value in (None, "", "null")]. *)
Definition is_blank (value : json) : bool :=
  match value with
  | JNull => true
  | JStr s => String.eqb s "" || String.eqb s "null"
  | _ => false
  end.

(** [_safe_extract_float(data, key)] with its default [0.0]; a
    [ValueError] or [TypeError] of [float] gives the default, an
    [OverflowError] is not caught: the result is then [None]. *)
Definition _safe_extract_float (data : list (string * json)) (key : string)
    : option Q :=
  let value := default (JFloat 0) (dict_get data key) in
  if is_blank value then Some 0%Q
  else if float_overflows value then None
  else Some (default 0%Q (float value)).

(** [side.lower().startswith(("home", "a", "team_a"))]. *)
Definition side_is_team_a (side : string) : bool :=
  let s := lower side in
  String.prefix "home" s || String.prefix "a" s || String.prefix "team_a" s.

(** [_create_player_row]; [None] is an [OverflowError] of the loop
    over [EVENT_KEY_MAP] or pydantic's [ValidationError].  The keys
    [turnovers] and [threes_att] of [EVENT_KEY_MAP] are read like the
    others, but they are no fields of the model and are dropped by it,
    so [threepm] and [threepa] keep their default. *)
Definition _create_player_row
    (row : list (string * json)) (side team_a team_b date : string)
    (game_url : json) : option EventPlayerRow.t :=
  let field k := default JNull (dict_get row k) in
  let name :=
    str (or_else (or_else (or_else (field "name") (field "player"))
                          (field "title"))
                 (JStr "Unknown")) in
  let '(team, opp) :=
    if side_is_team_a side then (team_a, team_b) else (team_b, team_a) in
  let game :=
    if negb (String.eqb team "") && negb (String.eqb opp "")
    then strip (team ++ " vs " ++ opp) else "Unknown vs Unknown" in
  points ← _safe_extract_float row "pts";
  rebounds ← _safe_extract_float row "rebtwo";
  assists ← _safe_extract_float row "ast";
  steals ← _safe_extract_float row "stl";
  blocks ← _safe_extract_float row "blk";
  turnovers ← _safe_extract_float row "to";
  fgm ← _safe_extract_float row "fgm";
  fga ← _safe_extract_float row "fga";
  threes_made ← _safe_extract_float row "threepm";
  threes_att ← _safe_extract_float row "threepa";
  fg_percent ← _safe_extract_float row "fgpercent";
  threep_percent ← _safe_extract_float row "threeppercent";
  player_id ← validate_optional_int (field "player_id");
  team_id ← validate_optional_int (field "team_id");
  opp_team_id ← validate_optional_int (field "opp_team_id");
  Some {|
    EventPlayerRow.name := name;
    EventPlayerRow.team := team;
    EventPlayerRow.opp := opp;
    EventPlayerRow.game := game;
    EventPlayerRow.date := date;
    EventPlayerRow.points := points;
    EventPlayerRow.rebounds := rebounds;
    EventPlayerRow.assists := assists;
    EventPlayerRow.steals := steals;
    EventPlayerRow.blocks := blocks;
    EventPlayerRow.threes_made := threes_made;
    EventPlayerRow.fgm := fgm;
    EventPlayerRow.fga := fga;
    EventPlayerRow.threepm := 0;
    EventPlayerRow.threepa := 0;
    EventPlayerRow.fg_percent := fg_percent;
    EventPlayerRow.threep_percent := threep_percent;
    EventPlayerRow.player_id := player_id;
    EventPlayerRow.team_id := team_id;
    EventPlayerRow.opp_team_id := opp_team_id;
    EventPlayerRow.game_url := if truthy game_url then Some game_url else None
  |}.

(** What every row of one event shares. *)
Record context := mkContext {
  teams : json;
  team_a : string;
  team_b : string;
  date : string;
  game_url : json
}.

(** The head of [_extract_rows_from_event]: date, link and team names.
    [None] is the [AttributeError] of an event that is not a dict. *)
Definition event_context (event : json) : option context :=
  d1 ← get event "date" JNull;
  dt ← (if truthy d1 then Some (String.substring 0 10 (str d1))
        else d2 ← get event "date_gmt" JNull;
             Some (if truthy d2 then String.substring 0 10 (str d2) else ""));
  game_url ← get event "link" (JStr "");
  teams ← get event "teams" (JList []);
  names ←
    match teams with
    | JList (t0 :: t1 :: _) => Some ("Team " ++ str t0, "Team " ++ str t1)
    | _ =>
        a ← get event "team_a" (JStr "Team A");
        b ← get event "team_b" (JStr "Team B");
        Some (str a, str b)
    end;
  Some (mkContext teams names.1 names.2 dt game_url).

(** ** The performance format *)

Definition perf_stat_keys : list string :=
  ["pts"; "rebtwo"; "ast"; "stl"; "blk"; "fgm"; "fga"; "threepm"; "threepa"].

Definition has_stats (player_stats : list (string * json)) : bool :=
  existsb (fun k => truthy (default JNull (dict_get player_stats k)))
          perf_stat_keys.

(** The dict literal [row_data]. *)
Definition row_data (player_id : string) (pid tid : Z)
    (player_stats : list (string * json)) : list (string * json) :=
  let stat k := (k, default (JStr "0") (dict_get player_stats k)) in
  [ ("name", JStr ("Player " ++ player_id));
    ("player_id", JInt pid);
    ("team_id", JInt tid);
    stat "pts"; stat "rebtwo"; stat "ast"; stat "stl"; stat "blk";
    stat "fgm"; stat "fga"; stat "threepm"; stat "threepa";
    stat "fgpercent"; stat "threeppercent" ].

(** One iteration of the loop over [team_performance.items()]. *)
Definition perf_player (ctx : context) (team_id : string)
    (entry : string * json) : option (list EventPlayerRow.t) :=
  let '(player_id, player_stats) := entry in
  if String.eqb player_id "0" then Some []
  else
    match player_stats with
    | JDict ps =>
        if has_stats ps then
          pid ← int (JStr player_id);
          tid ← int (JStr team_id);
          t0 ← item (teams ctx) 0;
          so ← (if String.eqb team_id (str t0)
                then t1 ← item (teams ctx) 1; Some ("home", t1)
                else Some ("away", t0));
          opp_id ← int so.2;
          r ← _create_player_row
                 (dict_set (row_data player_id pid tid ps)
                           "opp_team_id" (JInt opp_id))
                 so.1 (team_a ctx) (team_b ctx) (date ctx) (game_url ctx);
          Some [r]
        else Some []
    | _ => Some []
    end.

(** A loop whose body appends rows or raises. *)
Fixpoint collect {A B} (body : A -> option (list B)) (l : list A)
    : option (list B) :=
  match l with
  | [] => Some []
  | x :: l' =>
      rows ← body x;
      rest ← collect body l';
      Some (rows ++ rest)%list
  end.

(** One iteration of the loop over [performance_data.items()]. *)
Definition perf_team (ctx : context) (entry : string * json)
    : option (list EventPlayerRow.t) :=
  let '(team_id, team_performance) := entry in
  if String.eqb team_id "0" then Some []
  else
    match team_performance with
    | JDict players => collect (perf_player ctx team_id) players
    | _ => Some []
    end.

Definition performance_rows (ctx : context) (event : json)
    : option (list EventPlayerRow.t) :=
  performance_data ← get event "performance" JNull;
  match performance_data with
  | JDict ((_ :: _) as teams_perf) => collect (perf_team ctx) teams_perf
  | _ => Some []
  end.

(** ** The boxscore fallback

    The fallback writes into the row dicts of the event.  The body of
    its loops is a computation over the row being visited: it returns
    the row as it leaves it, and a result unless an exception
    escaped. *)

Definition RowM (A : Type) : Type :=
  list (string * json) -> list (string * json) * option A.

Definition ret {A} (a : A) : RowM A := fun row => (row, Some a).

Definition bind {A B} (m : RowM A) (k : A -> RowM B) : RowM B :=
  fun row =>
    match m row with
    | (row', Some a) => k a row'
    | (row', None) => (row', None)
    end.

(** An expression that reads nothing of the row and may raise. *)
Definition eval {A} (o : option A) : RowM A := fun row => (row, o).

(** [row.get(k)]. *)
Definition row_get (k : string) : RowM json :=
  fun row => (row, Some (default JNull (dict_get row k))).

(** [row[k] = v]. *)
Definition row_set (k : string) (v : json) : RowM unit :=
  fun row => (dict_set row k v, Some tt).

(** The row dict itself, as passed to [_create_player_row]. *)
Definition row_self : RowM (list (string * json)) :=
  fun row => (row, Some row).

Notation "x <- m ;; k" := (bind m (fun x => k))
  (at level 20, m at level 99, k at level 200, only parsing).
Notation "m ;;; k" := (bind m (fun _ => k))
  (at level 100, k at level 200, only parsing, right associativity).

(** [teams[i] if teams else None] and [teams[i] if len(teams) > 1 else
    None]. *)
Definition team_if_any (teams : json) : option json :=
  if truthy teams then item teams 0 else Some JNull.

Definition team_if_two (teams : json) : option json :=
  n ← len teams; if (1 <? n)%nat then item teams 1 else Some JNull.

(** [side.lower() in ["home", "a"]]. *)
Definition side_is_home (side : string) : bool :=
  let s := lower side in String.eqb s "home" || String.eqb s "a".

(** The statements applied to one row dict of a boxscore. *)
Definition box_row (ctx : context) (side : string)
    : RowM EventPlayerRow.t :=
  a <- row_get "id" ;;
  b <- row_get "player_id" ;;
  c <- row_get "player" ;;
  let player_id := or_else (or_else a b) c in
  (if truthy player_id then
     v <- eval (if isdigit (str player_id)
                then option_map JInt (int player_id) else Some JNull) ;;
     row_set "player_id" v
   else ret tt) ;;;
  (if side_is_home side then
     t <- eval (team_if_any (teams ctx)) ;;
     row_set "team_id" t ;;;
     o <- eval (team_if_two (teams ctx)) ;;
     row_set "opp_team_id" o
   else
     t <- eval (team_if_two (teams ctx)) ;;
     row_set "team_id" t ;;;
     o <- eval (team_if_any (teams ctx)) ;;
     row_set "opp_team_id" o) ;;;
  row <- row_self ;;
  eval (_create_player_row row side (team_a ctx) (team_b ctx)
                           (date ctx) (game_url ctx)).

(** A loop over a list of objects that may write into each of them:
    the list as the loop leaves it, and the rows appended unless an
    exception escaped (the objects after the failing one are not
    visited). *)
Fixpoint visit {B} (body : json -> json * option (list B)) (l : list json)
    : list json * option (list B) :=
  match l with
  | [] => ([], Some [])
  | x :: l' =>
      match body x with
      | (x', Some rows) =>
          let '(l'', rest) := visit body l' in
          (x' :: l'', option_map (app rows) rest)
      | (x', None) => (x' :: l', None)
      end
  end.

(** [for row in player_rows: if isinstance(row, dict): ...] of the
    [{"home": [...], "away": [...]}] format. *)
Definition box_side_row (ctx : context) (side : string) (row : json)
    : json * option (list EventPlayerRow.t) :=
  match row with
  | JDict d =>
      let '(d', r) := box_row ctx side d in
      (JDict d', option_map (fun x => [x]) r)
  | _ => (row, Some [])
  end.

(** The same loop over the items of the boxscore dict. *)
Fixpoint visit_sides (ctx : context) (sides : list (string * json))
    : list (string * json) * option (list EventPlayerRow.t) :=
  match sides with
  | [] => ([], Some [])
  | (side, player_rows) :: sides' =>
      match player_rows with
      | JList l =>
          match visit (box_side_row ctx side) l with
          | (l', Some rows) =>
              let '(sides'', rest) := visit_sides ctx sides' in
              ((side, JList l') :: sides'', option_map (app rows) rest)
          | (l', None) => ((side, JList l') :: sides', None)
          end
      | _ =>
          let '(sides'', rest) := visit_sides ctx sides' in
          ((side, player_rows) :: sides'', rest)
      end
  end.

(** The body of the loop over a boxscore list with a [team] field. *)
Definition box_list_row (ctx : context) (row : json)
    : json * option (list EventPlayerRow.t) :=
  match row with
  | JDict d =>
      let team := str (default (JStr "") (dict_get d "team")) in
      let side := if String.eqb team (team_a ctx) then "home" else "away" in
      let '(d', r) := box_row ctx side d in
      (JDict d', option_map (fun x => [x]) r)
  | _ => (row, Some [])
  end.

(** The body of [for boxscore in boxscore_candidates] for a candidate
    that is not skipped. *)
Definition visit_boxscore (ctx : context) (boxscore : json)
    : json * option (list EventPlayerRow.t) :=
  match boxscore with
  | JDict sides =>
      let '(sides', r) := visit_sides ctx sides in (JDict sides', r)
  | JList l =>
      let '(l', r) := visit (box_list_row ctx) l in (JList l', r)
  | _ => (boxscore, Some [])
  end.

(** Where the candidates of [boxscore_candidates] sit in the event. *)
Inductive place := InMeta | AtTop | InResults.

Definition candidate (event : json) (p : place) : option json :=
  match p with
  | InMeta => m ← get event "meta" (JDict []); get m "boxscore" JNull
  | AtTop => get event "boxscore" JNull
  | InResults => r ← get event "results" (JDict []); get r "boxscore" JNull
  end.

(** The event once the object at [p] has become [b].  The object is
    truthy, hence part of the event. *)
Definition with_candidate (event : json) (p : place) (b : json) : json :=
  match event with
  | JDict e =>
      let inside k :=
        match dict_get e k with
        | Some (JDict m) => JDict (dict_set e k (JDict (dict_set m "boxscore" b)))
        | _ => event
        end in
      match p with
      | InMeta => inside "meta"
      | AtTop => JDict (dict_set e "boxscore" b)
      | InResults => inside "results"
      end
  | _ => event
  end.

(** [_extract_rows_from_event]: the event as the call leaves it, and
    the returned rows unless an exception escaped. *)
Definition _extract_rows_from_event (event : json)
    : json * option (list EventPlayerRow.t) :=
  match
    ctx ← event_context event;
    rows ← performance_rows ctx event;
    c0 ← candidate event InMeta;
    c1 ← candidate event AtTop;
    c2 ← candidate event InResults;
    Some (ctx, rows, [(InMeta, c0); (AtTop, c1); (InResults, c2)])
  with
  | None => (event, None)
  | Some (ctx, rows, boxscore_candidates) =>
      match rows with
      | _ :: _ => (event, Some rows)
      | [] =>
          match List.find (fun pc => truthy pc.2) boxscore_candidates with
          | None => (event, Some [])
          | Some (p, boxscore) =>
              let '(boxscore', r) := visit_boxscore ctx boxscore in
              (with_candidate event p boxscore', r)
          end
      end
  end.

End WithRuntime.
End Sportspress.

(** * Single-game records ([core/records.py]) *)

Module Records.
Import Py.

(** [if candidate.player_id:] and the like: [None], [0] and empty
    values are not copied. *)
Definition if_int (o : option Z) : option Z :=
  match o with
  | Some n => if (n =? 0)%Z then None else Some n
  | None => None
  end.

Definition if_json (o : option json) : option json :=
  match o with
  | Some v => if truthy v then Some v else None
  | None => None
  end.

Definition if_str (o : option string) : option string :=
  match o with
  | Some s => if String.eqb s "" then None else Some s
  | None => None
  end.

(** The record built from a candidate. *)
Definition record_of (candidate : RecordCandidate.t) : SingleGameRecord.t :=
  {| SingleGameRecord.stat := RecordCandidate.stat candidate;
     SingleGameRecord.value := RecordCandidate.value candidate;
     SingleGameRecord.holder := RecordCandidate.holder candidate;
     SingleGameRecord.game := RecordCandidate.game candidate;
     SingleGameRecord.date := RecordCandidate.date candidate;
     SingleGameRecord.player_id := if_int (RecordCandidate.player_id candidate);
     SingleGameRecord.team_id := if_int (RecordCandidate.team_id candidate);
     SingleGameRecord.opp_team_id :=
       if_int (RecordCandidate.opp_team_id candidate);
     SingleGameRecord.game_url := if_json (RecordCandidate.game_url candidate);
     SingleGameRecord.player_url :=
       if_str (RecordCandidate.player_url candidate) |}.

Definition _try_update_max
    (current : option SingleGameRecord.t) (candidate : RecordCandidate.t)
    : option SingleGameRecord.t :=
  match current with
  | None => Some (record_of candidate)
  | Some cur =>
      if PyFloat.gtb (RecordCandidate.value candidate)
                     (SingleGameRecord.value cur)
      then Some (record_of candidate)
      else current
  end.

(** [stats_to_check], in the order of the dict literal. *)
Definition stats_to_check (row : EventPlayerRow.t) : list (string * Q) :=
  [ ("points", EventPlayerRow.points row);
    ("rebounds", EventPlayerRow.rebounds row);
    ("assists", EventPlayerRow.assists row);
    ("steals", EventPlayerRow.steals row);
    ("blocks", EventPlayerRow.blocks row) ].

(** The items of [values]; their keys are [double_digit_categories]. *)
Definition double_digits (row : EventPlayerRow.t) : list (string * Q) :=
  List.filter (fun sv => Qle_bool 10 sv.2) (stats_to_check row).

(** [game_url] as the achievement models validate it: the row's link
    was assigned to the row unvalidated, and a link that is no string
    is refused. *)
Definition validate_game_url {rt : Runtime} (game_url : option json)
    : option (option string) :=
  match game_url with
  | None => Some None
  | Some v => validate_optional_str v
  end.

(** [DoubleDouble(...)] and [TripleDouble(...)], which have the same
    fields; [None] is pydantic's [ValidationError]. *)
Definition achievement {rt : Runtime} (row : EventPlayerRow.t)
    (player_id team_id opp_team_id : option Z) (game_url : option json)
    : option Achievement.t :=
  url ← validate_game_url game_url;
  Some {| Achievement.player := EventPlayerRow.name row;
          Achievement.game := EventPlayerRow.game row;
          Achievement.date := EventPlayerRow.date row;
          Achievement.categories := map fst (double_digits row);
          Achievement.values := double_digits row;
          Achievement.player_id := player_id;
          Achievement.team_id := team_id;
          Achievement.opp_team_id := opp_team_id;
          Achievement.game_url := url;
          Achievement.player_url := None |}.

Definition append_triple (records : RecordsData.t) (a : Achievement.t)
    : RecordsData.t :=
  let 'RecordsData.mk p r a' s b t fg tp dd td := records in
  RecordsData.mk p r a' s b t fg tp dd (td ++ [a]).

Definition append_double (records : RecordsData.t) (a : Achievement.t)
    : RecordsData.t :=
  let 'RecordsData.mk p r a' s b t fg tp dd td := records in
  RecordsData.mk p r a' s b t fg tp (dd ++ [a]) td.

(** [_check_double_triple_doubles]: [records] after the call, [None]
    when the construction of the achievement raises (nothing is
    appended then). *)
Definition _check_double_triple_doubles {rt : Runtime}
    (records : RecordsData.t) (row : EventPlayerRow.t)
    (player_id team_id opp_team_id : option Z) (game_url : option json)
    : option RecordsData.t :=
  let n := length (double_digits row) in
  if (3 <=? n)%nat then
    a ← achievement row player_id team_id opp_team_id game_url;
    Some (append_triple records a)
  else if (2 <=? n)%nat then
    a ← achievement row player_id team_id opp_team_id game_url;
    Some (append_double records a)
  else Some records.

(** The two thresholds read from [settings]. *)
Record Settings := mkSettings {
  MIN_FGA_FOR_FG_PERCENT : Z;
  MIN_3PA_FOR_3P_PERCENT : Z
}.

Definition candidate_of (row : EventPlayerRow.t) (stat : string) (value : Q)
    : RecordCandidate.t :=
  {| RecordCandidate.stat := stat;
     RecordCandidate.value := PyFloat.Finite value;
     RecordCandidate.holder := EventPlayerRow.name row;
     RecordCandidate.game := EventPlayerRow.game row;
     RecordCandidate.date := EventPlayerRow.date row;
     RecordCandidate.player_id := EventPlayerRow.player_id row;
     RecordCandidate.team_id := EventPlayerRow.team_id row;
     RecordCandidate.opp_team_id := EventPlayerRow.opp_team_id row;
     RecordCandidate.game_url := EventPlayerRow.game_url row;
     RecordCandidate.player_url := None |}.

Section WithRuntime.
Context {rt : Runtime} (settings : Settings).

(** The eight record updates of the loop body. *)
Definition update_maxima (records : RecordsData.t) (row : EventPlayerRow.t)
    : RecordsData.t :=
  let upd cur stat value := _try_update_max cur (candidate_of row stat value) in
  let 'RecordsData.mk p r a s b t fg tp dd td := records in
  RecordsData.mk
    (upd p "points" (EventPlayerRow.points row))
    (upd r "rebounds" (EventPlayerRow.rebounds row))
    (upd a "assists" (EventPlayerRow.assists row))
    (upd s "steals" (EventPlayerRow.steals row))
    (upd b "blocks" (EventPlayerRow.blocks row))
    (upd t "threes_made" (EventPlayerRow.threes_made row))
    (if Qle_bool (inject_Z (MIN_FGA_FOR_FG_PERCENT settings))
                 (EventPlayerRow.fga row)
     then upd fg "fg_percent" (EventPlayerRow.fg_percent row) else fg)
    (if Qle_bool (inject_Z (MIN_3PA_FOR_3P_PERCENT settings))
                 (EventPlayerRow.threepa row)
     then upd tp "threep_percent" (EventPlayerRow.threep_percent row) else tp)
    dd td.

(** The body of [for row in player_rows]: [records] after the
    iteration, and whether it completed.  The one statement that can
    raise is the construction of an achievement; the eight record
    updates have been made by then. *)
Definition process_row (records : RecordsData.t) (row : EventPlayerRow.t)
    : RecordsData.t * bool :=
  let records' := update_maxima records row in
  match
    _check_double_triple_doubles records' row
      (EventPlayerRow.player_id row) (EventPlayerRow.team_id row)
      (EventPlayerRow.opp_team_id row) (EventPlayerRow.game_url row)
  with
  | Some records'' => (records'', true)
  | None => (records', false)
  end.

Fixpoint process_rows (records : RecordsData.t)
    (player_rows : list EventPlayerRow.t) : RecordsData.t :=
  match player_rows with
  | [] => records
  | row :: rest =>
      let '(records', completed) := process_row records row in
      if completed then process_rows records' rest else records'
  end.

(** The body of [for event in events], with its [try]/[except]: an
    event whose extraction raises is skipped. *)
Definition process_event (records : RecordsData.t) (event : json)
    : RecordsData.t :=
  match (Sportspress._extract_rows_from_event event).2 with
  | Some player_rows => process_rows records player_rows
  | None => records
  end.

Definition scan_events (records : RecordsData.t) (events : list json)
    : RecordsData.t :=
  fold_left process_event events records.

(** What a page request does. *)
Inductive page_result :=
| PageRaises                 (* the request or [response.json()] raises *)
| Page200 (data : json)
| PageStatus (status : Z).   (* any status other than 200 *)

(** [if event.get("performance") or event.get("boxscore")]; [None] when
    the page item is not a dict. *)
Definition has_data (event : json) : option bool :=
  p ← get event "performance" JNull;
  if truthy p then Some true
  else b ← get event "boxscore" JNull; Some (truthy b).

(** [for event in data: ... events.append(event)]: the events appended,
    and whether the loop completed. *)
Fixpoint keep_events (data : list json) : list json * bool :=
  match data with
  | [] => ([], true)
  | event :: data' =>
      match has_data event with
      | None => ([], false)
      | Some keep =>
          let '(kept, completed) := keep_events data' in
          (if keep then event :: kept else kept, completed)
      end
  end.

(** The [while page <= max_pages] loop; [fuel] counts the pages left
    ([max_pages - page + 1]). *)
Fixpoint fetch_pages (request : nat -> page_result) (page fuel : nat)
    : list json :=
  match fuel with
  | O => []
  | S fuel' =>
      match request page with
      | Page200 (JList ((_ :: _) as data)) =>
          let '(kept, completed) := keep_events data in
          if completed then (kept ++ fetch_pages request (S page) fuel')%list
          else kept
      | _ => []
      end
  end.

Definition max_pages : nat := 50.

(** What the function asks of the outside world. *)
Record world := mkWorld {
  (** the statements before the page loop ([import aiohttp], the
      settings lookup) raise *)
  setup_raises : bool;
  (** the request for page [n] of [/events?per_page=100] *)
  request : nat -> page_result;
  (** [fetch_events(client, base, per_page=50)]; [None] when it raises *)
  fallback : option (list json)
}.

Definition compute_single_game_records (w : world) : RecordsData.t :=
  match
    if setup_raises w then fallback w
    else Some (fetch_pages (request w) 1 max_pages)
  with
  | None => RecordsData.empty
  | Some events => scan_events RecordsData.empty events
  end.

End WithRuntime.
End Records.

(** * Vocabulary of the specification *)

Module MilestoneSpec.
Import Milestones.


(** The previous value of a statistic of a player. *)
Definition previous_value (last_totals : gmap string (gmap string Q))
    (pid : Z) (s : string) : Q :=
  default 0%Q (default ∅ (last_totals !! str_of_int pid) !! s).

(** The thresholds already announced for a player and a statistic. *)
Definition announced (milestones_sent : gmap string (gmap string (list Z)))
    (pid : Z) (s : string) : list Z :=
  default [] (default ∅ (milestones_sent !! str_of_int pid) !! s).



(** The announced thresholds stored under a key of [milestones_sent]. *)
Definition sent_under (m : gmap string (gmap string (list Z)))
    (key s : string) : list Z :=
  default [] (default ∅ (m !! key) !! s).



(** A player whose id is 7 and whose name is not ["7"]. *)
Definition alice : PlayerTotals := mkPlayerTotals 7 "Alice" 125 0 0 0 0 0.

(** The state that a pass leaves for player 1, named "Player1", after
    the threshold 100: totals under the id, thresholds under the
    name. *)
Definition player1 : PlayerTotals := mkPlayerTotals 1 "Player1" 260 0 0 0 0 0.

Definition player1_last : gmap string (gmap string Q) :=
  {[ "1" := {[ "points" := 150%Q ]} ]}.

Definition player1_sent : gmap string (gmap string (list Z)) :=
  {[ "Player1" := {[ "points" := [100%Z] ]} ]}.

(** A current player whose display name is the id of another player,
    and the state of that other player, who is absent from the current
    totals. *)
Definition player_named_5 : PlayerTotals := mkPlayerTotals 7 "5" 125 0 0 0 0 0.

Definition stale_last : gmap string (gmap string Q) :=
  {[ "5" := {[ "points" := 40%Q ]} ]}.

Definition stale_sent : gmap string (gmap string (list Z)) :=
  {[ "5" := {[ "assists" := [50%Z] ]} ]}.

End MilestoneSpec.

Module LeaderSpec.
Import Leaders.

(** [a] may stand before [b] in a ranking: a greater value, or the same
    value and a name that is not greater once both are lower-cased. *)
Definition ranks_before {tx : Py.Text} (a b : string * Q) : Prop :=
  (snd b < snd a)%Q
  \/ (snd a == snd b
      /\ String.leb (Py.str_lower (fst a)) (Py.str_lower (fst b)) = true)%Q.

Definition entry_pair (e : LeaderEntry) : string * Q :=
  (entry_name e, entry_value e).

(** The [(name, value)] pairs of the players with a positive value. *)
Definition positive_entries (players : list PlayerStats) (s : Stat)
    : list (string * Q) :=
  map (fun p => (name p, getattr_stat p s))
      (List.filter (fun p => Qlt_bool 0 (getattr_stat p s)) players).

(** Scenario A of the specification. *)
Definition player_with_points (nm : string) (pts : Q) : PlayerStats :=
  mkPlayerStats 0 nm pts 0 0 0 0 0 0 0 0 0 0 0.

Definition scenario_A : list PlayerStats :=
  [ player_with_points "A" 30; player_with_points "B" 30;
    player_with_points "C" 25 ].

(** Names that differ in case: as bytes ["Bob"] comes before
    ["alice"], lower-cased it comes after. *)
Definition mixed_case : list PlayerStats :=
  [ player_with_points "Bob" 30; player_with_points "alice" 30;
    player_with_points "Carl" 25; player_with_points "dan" 25 ].

End LeaderSpec.

Module RecordSpec.
Import Records.


(** The value of a record, if set. *)
Definition record_value (r : option SingleGameRecord.t) : option PyFloat.t :=
  option_map SingleGameRecord.value r.

(** A record does not decrease: an unset record is below every
    record; a set record is followed by itself or by a record with a
    strictly greater value, never by an unset one. *)
Definition record_le (a b : option SingleGameRecord.t) : Prop :=
  match a, b with
  | None, _ => True
  | Some x, Some y =>
      y = x \/ PyFloat.lt (SingleGameRecord.value x) (SingleGameRecord.value y)
  | Some _, None => False
  end.

(** Folding candidates through the update step, in list order. *)
Definition fold_candidates (current : option SingleGameRecord.t)
    (candidates : list RecordCandidate.t) : option SingleGameRecord.t :=
  fold_left _try_update_max candidates current.

(** [m] is the greatest value among the candidates. *)
Definition is_max_value (m : PyFloat.t) (candidates : list RecordCandidate.t)
    : Prop :=
  (exists c, In c candidates /\ PyFloat.eq (RecordCandidate.value c) m)
  /\ (forall c, In c candidates -> PyFloat.le (RecordCandidate.value c) m).

(** No candidate has the value NaN. *)
Definition no_nan (candidates : list RecordCandidate.t) : Prop :=
  forall c, In c candidates -> PyFloat.is_nan (RecordCandidate.value c) = false.

(** Two optional values that are both unset or equal as numbers. *)
Definition same_value (a b : option PyFloat.t) : Prop :=
  match a, b with
  | None, None => True
  | Some x, Some y => PyFloat.eq x y
  | _, _ => False
  end.

(** A row with the given five count statistics. *)
Definition row_with (pts reb ast stl blk : Q) : EventPlayerRow.t :=
  EventPlayerRow.mk "P" "Team 1" "Team 2" "Team 1 vs Team 2" "2024-01-15"
    pts reb ast stl blk 0 0 0 0 0 0 0 None None None None.

(** A points candidate with the given holder and value. *)
Definition points_candidate (holder : string) (v : Q) : RecordCandidate.t :=
  RecordCandidate.mk "points" (PyFloat.Finite v) holder "Team 1 vs Team 2"
    "2024-01-15" None None None None None.

(** A points candidate whose value is NaN, as [float("nan")] gives. *)
Definition nan_candidate (holder : string) : RecordCandidate.t :=
  RecordCandidate.mk "points" PyFloat.NaN holder "Team 1 vs Team 2"
    "2024-01-15" None None None None None.

(** A candidate with every optional field set. *)
Definition full_candidate : RecordCandidate.t :=
  RecordCandidate.mk "points" (PyFloat.Finite 55) "B" "Team 1 vs Team 2"
    "2024-01-15" (Some 77%Z) (Some 10%Z) (Some 20%Z)
    (Some (Py.JStr "https://league.example/event/5")) None.

End RecordSpec.

(** ** A runtime for the examples

    It follows CPython and pydantic 2 on what the examples use: decimal
    integer and fixed-point literals (with sign and surrounding blanks)
    for [int] and [float], integers for the validation of an optional
    integer field, strings for an optional string field.  A literal is
    given its exact value: this is what [float] returns for the
    literals of the examples, which are integers of a few digits, while
    [float] rounds a literal that is no double to the nearest one.  On
    other literals (exponents, underscores, [inf], [nan]) and for the
    text of floats and containers it is a stand-in; so is [text], which
    folds the ASCII letters only. *)

Module Example.
Import Py.

Definition signed (parse : string -> option Z) (s : string) : option Z :=
  match s with
  | String "-"%char s' => option_map Z.opp (parse s')
  | String "+"%char s' => parse s'
  | _ => parse s
  end.

Definition digits (s : string) : option Z :=
  if isdigit s then Some (digits_value 0 s) else None.

Definition int_literal (s : string) : option Z := signed digits (strip s).

(** The digits before and after the first point. *)
Fixpoint split_point (s : string) : string * option string :=
  match s with
  | EmptyString => (EmptyString, None)
  | String "."%char s' => (EmptyString, Some s')
  | String c s' => let '(a, b) := split_point s' in (String c a, b)
  end.

Definition unsigned_float (s : string) : option Q :=
  match split_point s with
  | (a, None) => option_map inject_Z (digits a)
  | (a, Some b) =>
      if all_digits a && all_digits b
         && negb (String.eqb a "" && String.eqb b "")
      then Some (Qmake (digits_value 0 (a ++ b))
                       (Z.to_pos (10 ^ Z.of_nat (String.length b))))
      else None
  end.

Definition float_literal (s : string) : option Q :=
  match strip s with
  | String "-"%char s' => option_map Qopp (unsigned_float s')
  | String "+"%char s' => unsigned_float s'
  | s' => unsigned_float s'
  end.

Definition integral (q : Q) : option Z :=
  if (Z.rem (Qnum q) (Zpos (Qden q)) =? 0)%Z
  then Some (Z.quot (Qnum q) (Zpos (Qden q))) else None.

Definition float_text (q : Q) : string :=
  match integral q with
  | Some n => pretty n ++ ".0"
  | None => "<float>"
  end.

Definition optional_int (v : json) : option (option Z) :=
  match v with
  | JNull => Some None
  | JInt n => Some (Some n)
  | JBool b => Some (Some (if b then 1 else 0)%Z)
  | JFloat q => option_map Some (integral q)
  | JStr s => option_map Some (int_literal s)
  | JList _ | JDict _ => None
  end.

Definition optional_str (v : json) : option (option string) :=
  match v with
  | JNull => Some None
  | JStr s => Some (Some s)
  | _ => None
  end.

(** A stand-in for [str.lower()]: it folds the ASCII letters only. *)
Definition text : Text :=
  {| str_lower := lower; str_lower_ascii := fun s _ => eq_refl |}.

Definition runtime : Runtime :=
  {| float_of_string := float_literal;
     int_of_string := int_literal;
     str_of_float := float_text;
     str_of_container := fun _ => "<object>";
     validate_optional_int := optional_int;
     validate_optional_str := optional_str |}.

End Example.

Module ExtractSpec.
Import Py Sportspress.

(** [row] was built from the entry [player_id] of the team entry
    [team_id] of a performance map. *)
Definition from_entry (performance : list (string * json))
    (team_id player_id : string) (row : EventPlayerRow.t) : Prop :=
  exists players player_stats,
    In (team_id, JDict players) performance
    /\ In (player_id, player_stats) players
    /\ EventPlayerRow.name row = "Player " ++ player_id.

(** An event in the performance format with header entries under the
    key ["0"] at both levels. *)
Definition performance_event : json :=
  JDict [ ("teams", JList [JInt 10; JInt 20]);
          ("performance",
           JDict [ ("0", JDict [("0", JStr "Team")]);
                   ("10", JDict [ ("0", JDict [("pts", JStr "PTS")]);
                                  ("77", JDict [("pts", JStr "12")]) ]) ]) ].

Definition performance_event_context : context :=
  Eval vm_compute in
    match @event_context Example.runtime performance_event with
    | Some ctx => ctx
    | None => mkContext JNull "" "" "" JNull
    end.

(** Its rows: one, for player 77 of team 10. *)
Definition performance_event_rows : list EventPlayerRow.t :=
  Eval vm_compute in
    default [] (@_extract_rows_from_event Example.runtime performance_event).2.

(** Events in the two boxscore formats whose only row has the id
    ["0"]. *)
Definition sentinel_row : json :=
  JDict [("id", JStr "0"); ("name", JStr "Header"); ("pts", JStr "5")].

Definition boxscore_list_event : json :=
  JDict [("boxscore", JList [sentinel_row])].

Definition boxscore_sides_event : json :=
  JDict [("results",
          JDict [("boxscore", JDict [("home", JList [sentinel_row])])])].

(** An event with a boxscore under [meta] and another at the top. *)
Definition plain_row (nm : string) : json :=
  JDict [("name", JStr nm); ("pts", JStr "5")].

Definition two_boxscores_event : json :=
  JDict [ ("meta", JDict [("boxscore", JList [plain_row "Ann"])]);
          ("boxscore", JList [plain_row "Bob"]) ].

(** The order in which the candidates are tried. *)
Definition place_before (p q : place) : bool :=
  match p, q with
  | InMeta, AtTop | InMeta, InResults | AtTop, InResults => true
  | _, _ => false
  end.

(** [b], found at [p], is the first truthy boxscore candidate of the
    event. *)
Definition first_truthy (event : json) (p : place) (b : json) : Prop :=
  candidate event p = Some b
  /\ truthy b = true
  /\ (forall q, place_before q p = true ->
                exists c, candidate event q = Some c /\ truthy c = false).

(** The keys that the boxscore fallback writes into a row dict. *)
Definition written_keys : list string := ["player_id"; "team_id"; "opp_team_id"].

Definition is_written (k : string) : bool :=
  existsb (String.eqb k) written_keys.

(** A row dict without the written keys. *)
Definition unwritten (row : json) : json :=
  match row with
  | JDict d => JDict (List.filter (fun kv => negb (is_written kv.1)) d)
  | _ => row
  end.

(** A boxscore, in either format, with the written keys removed from
    its row dicts. *)
Definition unwritten_rows (player_rows : json) : json :=
  match player_rows with
  | JList l => JList (map unwritten l)
  | _ => player_rows
  end.

Definition unwritten_boxscore (boxscore : json) : json :=
  match boxscore with
  | JDict sides => JDict (map (fun sv => (sv.1, unwritten_rows sv.2)) sides)
  | JList l => JList (map unwritten l)
  | _ => boxscore
  end.

(** A computation on a row that leaves it as it was, up to the written
    keys. *)
Definition frames {A} (m : RowM A) : Prop :=
  forall d, unwritten (JDict (m d).1) = unwritten (JDict d).

End ExtractSpec.


Module ScanSpec.
Import Py Records.

Definition default_settings : Settings := mkSettings 10 6.





(** The requests for the first pages return the lists [pages], none of
    them empty and each made of objects. *)
Definition serves (request : nat -> page_result) (pages : list (list json))
    : Prop :=
  forall i l, pages !! i = Some l ->
              request (S i) = Page200 (JList l)
              /\ l <> []
              /\ List.Forall (fun event => is_Some (has_data event)) l.





End ScanSpec.

(** * Further code

    The functions around the ones above: the rest of the milestone
    scan, the comparison of snapshots, the aggregation over seasons,
    the all-time list and the name cache. *)

(** ** The milestone scan ([core/milestones.py]) *)

Module Scan.
Import Milestones.

(** [totals[player.id] = ...] on the items of the dict. *)
Fixpoint set_totals (totals : list (Z * PlayerTotals)) (k : Z)
    (v : PlayerTotals) : list (Z * PlayerTotals) :=
  match totals with
  | [] => [(k, v)]
  | (k', v') :: totals' =>
      if (k' =? k)%Z then (k', v) :: totals'
      else (k', v') :: set_totals totals' k v
  end.

(** The [PlayerTotals] built from a fetched player. *)
Definition totals_of (p : Leaders.PlayerStats) : PlayerTotals :=
  {| player_id := Leaders.id p;
     name := Leaders.name p;
     points := Leaders.points p;
     assists := Leaders.assists p;
     rebounds := Leaders.rebounds p;
     steals := Leaders.steals p;
     blocks := Leaders.blocks p;
     threes_made := Leaders.threes_made p |}.

(** [get_current_season_totals]: [fetched] is what
    [fetch_players_for_season] returns, [None] when no endpoint is
    configured or the fetch raises; the result is the item list of the
    dict. *)
Definition get_current_season_totals
    (fetched : option (list Leaders.PlayerStats)) : list (Z * PlayerTotals) :=
  match fetched with
  | None => []
  | Some players =>
      fold_left (fun totals p => set_totals totals (Leaders.id p) (totals_of p))
                players []
  end.

(** [scan_and_detect_crossings]. *)
Definition scan_and_detect_crossings
    (fetched : option (list Leaders.PlayerStats))
    (last_totals : gmap string (gmap string Q))
    (milestones_sent : gmap string (gmap string (list Z)))
    : list MilestoneNotification
      * (gmap string (gmap string Q) * gmap string (gmap string (list Z))) :=
  match get_current_season_totals fetched with
  | [] => ([], (last_totals, milestones_sent))
  | current_totals =>
      detect_and_update current_totals last_totals milestones_sent
  end.

(** One iteration of the first loop of [update_milestone_state]. *)
Definition store_totals (acc : gmap string (gmap string Q))
    (e : Z * PlayerTotals) : gmap string (gmap string Q) :=
  <[str_of_int e.1 := totals_dict e.2]> acc.

End Scan.

(** ** Leader snapshots and career totals ([core/leaders.py],
    [core/sportspress.py]) *)

Module LeaderBoard.
Import Leaders.

(** [LeadersData]. *)
Record LeadersData := mkLeadersData {
  points : list LeaderEntry;
  assists : list LeaderEntry;
  rebounds : list LeaderEntry;
  steals : list LeaderEntry;
  blocks : list LeaderEntry;
  threes_made : list LeaderEntry
}.

(** [LeadersData()]. *)
Definition empty : LeadersData := mkLeadersData [] [] [] [] [] [].

(** [getattr(leaders, stat, [])]. *)
Definition getattr_leaders (l : LeadersData) (s : Stat) : list LeaderEntry :=
  match s with
  | Points => points l
  | Assists => assists l
  | Rebounds => rebounds l
  | Steals => steals l
  | Blocks => blocks l
  | ThreesMade => threes_made l
  end.

(** The loop over the six statistics that fills a [LeadersData]. *)
Definition leaders_of {tx : Py.Text} (players : list PlayerStats) (n : Z)
    : LeadersData :=
  {| points := top_n players Points n;
     assists := top_n players Assists n;
     rebounds := top_n players Rebounds n;
     steals := top_n players Steals n;
     blocks := top_n players Blocks n;
     threes_made := top_n players ThreesMade n |}.

(** [top_n_season_leaders]; [fetched] is the result of
    [fetch_players_for_season], [None] when it raises or no endpoint is
    configured. *)
Definition top_n_season_leaders {tx : Py.Text}
    (fetched : option (list PlayerStats)) (n : Z) : LeadersData :=
  match fetched with
  | Some players => leaders_of players n
  | None => empty
  end.

(** [[(leader.name, leader.value) for leader in leaders[:3]]]. *)
Definition top3 (leaders : list LeaderEntry) : list (string * Q) :=
  map (fun e => (entry_name e, entry_value e)) (firstn 3 leaders).

(** [==] on two lists of [(name, value)] tuples. *)
Fixpoint tuples_eqb (a b : list (string * Q)) : bool :=
  match a, b with
  | [], [] => true
  | x :: a', y :: b' =>
      String.eqb x.1 y.1 && Qeq_bool x.2 y.2 && tuples_eqb a' b'
  | _, _ => false
  end.

(** [leaders_changed]: the items of the returned dict. *)
Definition leaders_changed (current previous : LeadersData)
    : list (Stat * bool) :=
  map (fun s =>
         (s, negb (tuples_eqb (top3 (getattr_leaders current s))
                              (top3 (getattr_leaders previous s)))))
      tracked_stats.

End LeaderBoard.

Module Career.
Import Leaders.

Section WithFloatAdd.
(** The addition of two floats. *)
Context (fadd : Q -> Q -> Q).

(** The statements of the branch [if player.id in aggregated]: the six
    totals grow, the name is replaced, the other fields stay. *)
Definition accumulate (existing player : PlayerStats) : PlayerStats :=
  {| id := id existing;
     name := name player;
     points := fadd (points existing) (points player);
     assists := fadd (assists existing) (assists player);
     rebounds := fadd (rebounds existing) (rebounds player);
     steals := fadd (steals existing) (steals player);
     blocks := fadd (blocks existing) (blocks player);
     threes_made := fadd (threes_made existing) (threes_made player);
     fgm := fgm existing;
     fga := fga existing;
     threepm := threepm existing;
     threepa := threepa existing;
     fg_percent := fg_percent existing;
     threep_percent := threep_percent existing |}.

(** [aggregated] holds references: the dict binds a player id to the
    object of its first appearance, and that object is updated in
    place.  The store is the sequence of the player objects of all
    seasons, in order; a reference is an index into it. *)
Fixpoint lookup_ref (aggregated : list (Z * nat)) (k : Z) : option nat :=
  match aggregated with
  | [] => None
  | (k', r) :: aggregated' =>
      if (k' =? k)%Z then Some r else lookup_ref aggregated' k
  end.

(** The body of the inner loop, for the player object at index [i]. *)
Definition visit_player (st : list PlayerStats * list (Z * nat)) (i : nat)
    : list PlayerStats * list (Z * nat) :=
  let '(store, aggregated) := st in
  match store !! i with
  | None => st
  | Some player =>
      match lookup_ref aggregated (id player) with
      | Some r =>
          (alter (fun existing => accumulate existing player) r store,
           aggregated)
      | None => (store, (aggregated ++ [(id player, i)])%list)
      end
  end.

(** The two loops: every object of every season, in order. *)
Definition aggregate_store (season_players : list (list PlayerStats))
    : list PlayerStats * list (Z * nat) :=
  let store := concat season_players in
  fold_left visit_player (seq 0 (length store)) (store, []).

(** [aggregate_player_stats]: the items of the returned dict, each id
    with the final state of its object. *)
Definition aggregate_player_stats (season_players : list (list PlayerStats))
    : list (Z * PlayerStats) :=
  let '(store, aggregated) := aggregate_store season_players in
  omap (fun kr : Z * nat => (fun p => (kr.1, p)) <$> store !! kr.2) aggregated.

(** The argument [season_players] once the call has returned. *)
Definition season_players_after (season_players : list (list PlayerStats))
    : list (list PlayerStats) :=
  reshape (map length season_players) (aggregate_store season_players).1.

(** [top_n_career_leaders]; [fetched] holds, per season query, the
    result of [fetch_players_for_season], [None] when it raises
    ([fetch_all_players_seasons] then stores an empty list). *)
Definition top_n_career_leaders {tx : Py.Text}
    (fetched : list (option (list PlayerStats))) (n : Z)
    : LeaderBoard.LeadersData :=
  let season_players := map (default []) fetched in
  let players_list := map snd (aggregate_player_stats season_players) in
  LeaderBoard.leaders_of players_list n.

End WithFloatAdd.
End Career.

Module CareerSpec.
Import Leaders Career.

(** The season entries of player [k], in order. *)
Definition entries_of (k : Z) (players : list PlayerStats) : list PlayerStats :=
  List.filter (fun p => (id p =? k)%Z) players.

(** A dict built by value: the entry of the player's id is created or
    accumulated. *)
Fixpoint upsert (fadd : Q -> Q -> Q) (agg : list (Z * PlayerStats))
    (p : PlayerStats) : list (Z * PlayerStats) :=
  match agg with
  | [] => [(id p, p)]
  | (k, e) :: agg' =>
      if (k =? id p)%Z then (k, accumulate fadd e p) :: agg'
      else (k, e) :: upsert fadd agg' p
  end.

Definition aggregate_values (fadd : Q -> Q -> Q) (players : list PlayerStats)
    : list (Z * PlayerStats) :=
  fold_left (upsert fadd) players [].

(** The references of [aggregated] point at the values of the dict
    built by value. *)
Definition points_at (store : list PlayerStats)
    (kr : Z * nat) (ka : Z * PlayerStats) : Prop :=
  kr.1 = ka.1 /\ store !! kr.2 = Some ka.2.

(** What holds of the store and of [aggregated] once the objects
    before index [i] have been visited. *)
Definition store_inv (fadd : Q -> Q -> Q) (orig : list PlayerStats) (i : nat)
    (st : list PlayerStats * list (Z * nat)) : Prop :=
  length st.1 = length orig
  /\ Forall2 (points_at st.1) st.2 (aggregate_values fadd (take i orig))
  /\ List.NoDup (map snd st.2)
  /\ (forall j, ~ In j (map snd st.2) -> st.1 !! j = orig !! j)
  /\ (forall k r, In (k, r) st.2 ->
        (r < i)%nat
        /\ (exists q, orig !! r = Some q /\ id q = k)
        /\ (forall j q, (j < r)%nat -> orig !! j = Some q -> id q <> k))
  /\ (forall j q, (j < i)%nat -> orig !! j = Some q ->
                  In (id q) (map fst st.2)).

(** The ids of the objects that come before index [j]. *)
Definition earlier_ids (players : list PlayerStats) (j : nat) : list Z :=
  map id (take j players).

(** Two entries of a snapshot that compare equal. *)
Definition same_entry (a b : LeaderEntry) : Prop :=
  entry_name a = entry_name b /\ (entry_value a == entry_value b)%Q.

(** Two seasons of a league with a returning player. *)
Definition season_one : list PlayerStats :=
  [ mkPlayerStats 1 "Ann" 30 5 0 0 0 0 9 20 0 0 45 0;
    mkPlayerStats 2 "Bob" 10 0 0 0 0 0 0 0 0 0 0 0 ].

Definition season_two : list PlayerStats :=
  [ mkPlayerStats 2 "Bobby" 15 0 0 0 0 0 0 0 0 0 0 0;
    mkPlayerStats 1 "Ann" 12 1 0 0 0 0 4 10 0 0 40 0 ].

End CareerSpec.

(** ** Where rows come from, and which rows a scan applies *)

Module RowSpec.
Import Py Sportspress Records.

Section WithRuntime.
Context {rt : Runtime}.

(** [r] was built by [_create_player_row] for [side] with the date,
    link and team names of the event. *)
Definition created_on (ctx : context) (side : string)
    (r : EventPlayerRow.t) : Prop :=
  exists row,
    _create_player_row row side (team_a ctx) (team_b ctx) (date ctx)
                       (game_url ctx) = Some r.

(** The two sides that the performance format and the list format
    pass on. *)
Definition home_or_away (ctx : context) (r : EventPlayerRow.t) : Prop :=
  created_on ctx "home" r \/ created_on ctx "away" r.

Definition any_side (ctx : context) (r : EventPlayerRow.t) : Prop :=
  exists side, created_on ctx side r.

(** The iteration of [for row in player_rows] on [row] completes. *)
Definition row_completes (row : EventPlayerRow.t) : bool :=
  if (2 <=? length (double_digits row))%nat then
    match EventPlayerRow.game_url row with
    | None => true
    | Some v =>
        match validate_optional_str v with Some _ => true | None => false end
    end
  else true.

(** The rows that the row loop reaches: those up to the first one on
    which it raises, that one included. *)
Fixpoint rows_reached (player_rows : list EventPlayerRow.t)
    : list EventPlayerRow.t :=
  match player_rows with
  | [] => []
  | row :: rest =>
      if row_completes row then row :: rows_reached rest else [row]
  end.

(** The rows reached in a scan of [events]. *)
Definition rows_scanned (events : list json) : list EventPlayerRow.t :=
  flat_map (fun event =>
              match (_extract_rows_from_event event).2 with
              | Some player_rows => rows_reached player_rows
              | None => []
              end)
           events.

End WithRuntime.

(** The eight records of a [RecordsData], in the order of the scan. *)
Definition record_fields (records : RecordsData.t)
    : list (option SingleGameRecord.t) :=
  [ RecordsData.points records; RecordsData.rebounds records;
    RecordsData.assists records; RecordsData.steals records;
    RecordsData.blocks records; RecordsData.threes_made records;
    RecordsData.fg_percent records; RecordsData.threep_percent records ].

(** An event in the performance format with a player on each side. *)
Definition two_sided_event : json :=
  JDict [ ("teams", JList [JInt 10; JInt 20]);
          ("link", JStr "https://league.example/event/5");
          ("date", JStr "2024-01-15T19:00:00");
          ("performance",
           JDict [ ("10", JDict [("77", JDict [("pts", JStr "12");
                                                ("threepa", JStr "9");
                                                ("threeppercent", JStr "66")])]);
                   ("20", JDict [("88", JDict [("pts", JStr "31")])]) ]) ].

(** A world whose only page of events holds that event. *)
Definition two_sided_world : world :=
  mkWorld false
    (fun page => match page with
                 | 1%nat => Page200 (JList [two_sided_event])
                 | _ => Page200 (JList [])
                 end)
    None.

(** The achievement lists of [b] extend those of [a]. *)
Definition achievements_extend (a b : RecordsData.t) : Prop :=
  (exists dd, RecordsData.double_doubles b
              = (RecordsData.double_doubles a ++ dd)%list)
  /\ (exists td, RecordsData.triple_doubles b
                 = (RecordsData.triple_doubles a ++ td)%list).

Definition two_sided_rows : list EventPlayerRow.t :=
  Eval vm_compute in
    default [] (@_extract_rows_from_event Example.runtime two_sided_event).2.

End RowSpec.

(** ** Comparing two sets of records *)

Module RecordChanges.
Import Py.

(** [getattr(records, stat, None)] for the name of a record. *)
Definition getattr_record (records : RecordsData.t) (stat : string)
    : option SingleGameRecord.t :=
  if String.eqb stat "points" then RecordsData.points records
  else if String.eqb stat "rebounds" then RecordsData.rebounds records
  else if String.eqb stat "assists" then RecordsData.assists records
  else if String.eqb stat "steals" then RecordsData.steals records
  else if String.eqb stat "blocks" then RecordsData.blocks records
  else if String.eqb stat "threes_made" then RecordsData.threes_made records
  else if String.eqb stat "fg_percent" then RecordsData.fg_percent records
  else if String.eqb stat "threep_percent"
       then RecordsData.threep_percent records
  else None.

(** The names that [records_changed] walks through. *)
Definition changed_stats : list string :=
  [ "points"; "rebounds"; "assists"; "steals"; "blocks"; "threes_made";
    "fg_percent"; "threep_percent" ].

(** [records_changed] of [core/records.py]; a record object is
    truthy. *)
Definition records_changed (current previous : RecordsData.t)
    : list SingleGameRecord.t :=
  flat_map
    (fun stat =>
       match getattr_record current stat with
       | Some current_record =>
           match getattr_record previous stat with
           | None => [current_record]
           | Some previous_record =>
               if PyFloat.gtb (SingleGameRecord.value current_record)
                              (SingleGameRecord.value previous_record)
               then [current_record] else []
           end
       | None => []
       end)
    changed_stats.

End RecordChanges.

(** ** The record monitor ([core/record_monitor.py]) *)

Module RecordMonitor.
Import Py RecordChanges.

(** [RecordMonitor._compare_records]. *)
Definition _compare_records (old_record new_record : option SingleGameRecord.t)
    : bool :=
  match old_record, new_record with
  | None, Some _ => true
  | Some o, Some n =>
      PyFloat.gtb (SingleGameRecord.value n) (SingleGameRecord.value o)
  | _, None => false
  end.

(** The dicts appended to [new_records]. *)
Record NewRecord := mkNewRecord {
  type : string;
  old_record : option SingleGameRecord.t;
  new_record : option SingleGameRecord.t
}.

Definition record_types : list string :=
  [ "points"; "rebounds"; "assists"; "steals"; "blocks"; "threes_made";
    "threep_percent" ].

(** [RecordMonitor.check_for_new_records]; [previous_records] is the
    attribute of the monitor. *)
Definition check_for_new_records (previous_records : option RecordsData.t)
    (current_records : RecordsData.t) : list NewRecord :=
  match previous_records with
  | None => []
  | Some previous =>
      flat_map
        (fun record_type =>
           let old_record := getattr_record previous record_type in
           let new_record := getattr_record current_records record_type in
           if _compare_records old_record new_record
           then [mkNewRecord record_type old_record new_record] else [])
        record_types
  end.

(** [current] with its field-goal record unset. *)
Definition without_fg_percent (records : RecordsData.t) : RecordsData.t :=
  let 'RecordsData.mk p r a s b t fg tp dd td := records in
  RecordsData.mk p r a s b t None tp dd td.

End RecordMonitor.

(** ** Name resolution ([core/names.py]) *)

Module Names.
Import Py.

(** The module-level caches [_player_names] and [_team_names], and the
    ids for which [client.get_json] was called, in order. *)
Record state := mkState {
  _player_names : gmap Z json;
  _team_names : gmap Z json;
  player_requests : list Z;
  team_requests : list Z
}.

(** [data.get("title", {}).get("rendered", dflt)]; [None] is the
    [AttributeError] of a response or a title that is not a dict. *)
Definition rendered_title (data dflt : json) : option json :=
  title ← get data "title" (JDict []);
  get title "rendered" dflt.

(** [get_player_name]; [client id] is what
    [client.get_json(f".../players/{id}")] returns, [None] when it
    raises.  The result is the returned name and the state after the
    call. *)
Definition get_player_name (client : Z -> option json) (st : state)
    (player_id : option Z) : json * state :=
  match player_id with
  | None => (JStr "Player None", st)
  | Some id =>
      match _player_names st !! id with
      | Some name => (name, st)
      | None =>
          let fallback := JStr ("Player " ++ pretty id) in
          let name :=
            default fallback
                    (player_data ← client id;
                     rendered_title player_data fallback) in
          (name,
           {| _player_names := <[id := name]> (_player_names st);
              _team_names := _team_names st;
              player_requests := (player_requests st ++ [id])%list;
              team_requests := team_requests st |})
      end
  end.

(** [get_team_name]. *)
Definition get_team_name (client : Z -> option json) (st : state)
    (team_id : option Z) : json * state :=
  match team_id with
  | None => (JStr "Team None", st)
  | Some id =>
      match _team_names st !! id with
      | Some name => (name, st)
      | None =>
          let fallback := JStr ("Team " ++ pretty id) in
          let name :=
            default fallback
                    (team_data ← client id;
                     rendered_title team_data fallback) in
          (name,
           {| _player_names := _player_names st;
              _team_names := <[id := name]> (_team_names st);
              player_requests := player_requests st;
              team_requests := (team_requests st ++ [id])%list |})
      end
  end.

(** Resolving a sequence of player ids, one call after the other, each
    against the server as it is at that time. *)
Fixpoint get_player_names (calls : list ((Z -> option json) * Z))
    (st : state) : list json * state :=
  match calls with
  | [] => ([], st)
  | (client, id) :: calls' =>
      let '(name, st') := get_player_name client st (Some id) in
      let '(names, st'') := get_player_names calls' st' in
      (name :: names, st'')
  end.

(** A server on which every request fails, and one that knows player
    7. *)
Definition server_down : Z -> option json := fun _ => None.

Definition server_up : Z -> option json :=
  fun id =>
    if (id =? 7)%Z
    then Some (JDict [("title", JDict [("rendered", JStr "Ann Lee")])])
    else None.

Definition empty_state : state := mkState ∅ ∅ [] [].

(** No id was requested twice, and every requested id is cached. *)
Definition requested_once (st : state) : Prop :=
  List.NoDup (player_requests st)
  /\ (forall id, In id (player_requests st) ->
                 is_Some (_player_names st !! id)).

End Names.

(** ** Pagination and the players of a season
    ([core/http.py], [core/sportspress.py]) *)

Module Http.
Import Py.

(** What a call of [client.get_json] does, as [paginate] sees it. *)
Inductive response :=
| Returns (data : json)
| Raises400       (* a [ClientResponseError] whose status is 400 *)
| RaisesOther.    (* any other exception *)

(** [if max_pages and page > max_pages]. *)
Definition past_last (max_pages : option nat) (page : nat) : bool :=
  match max_pages with
  | Some m => negb (m =? 0)%nat && (m <? page)%nat
  | None => false
  end.

(** [HTTPClient.paginate] from page [page] on: the items yielded, in
    order, and whether the generator ended by raising.  [get_json n] is
    the outcome of the request for page [n]; [per_page] only enters the
    URL and a log line.  The loop has no bound of its own: [fuel]
    counts the requests allowed, and [None] means they did not
    suffice. *)
Fixpoint paginate (get_json : nat -> response) (max_pages : option nat)
    (fuel page : nat) : option (list json * bool) :=
  match fuel with
  | O => None
  | S fuel' =>
      if past_last max_pages page then Some ([], false)
      else
        match get_json page with
        | Returns data =>
            if negb (truthy data) then Some ([], false)
            else
              match data with
              | JList l =>
                  match paginate get_json max_pages fuel' (S page) with
                  | Some (items, raised) => Some ((l ++ items)%list, raised)
                  | None => None
                  end
              | _ => Some ([data], false)
              end
        | Raises400 => Some ([], false)
        | RaisesOther => Some ([], true)
        end
  end.

End Http.

Module Players.
Import Py Sportspress Http Leaders.

Section WithRuntime.
Context {rt : Runtime}.

Definition name_fields : list string :=
  ["name"; "title"; "post_title"; "player_name"].

(** [_extract_player_name] on the items of a dict. *)
Definition _extract_player_name (data : list (string * json)) : string :=
  match
    List.find (fun field => truthy (default JNull (dict_get data field)))
              name_fields
  with
  | Some field => strip (str (default JNull (dict_get data field)))
  | None => "Player_" ++ str (default (JStr "Unknown") (dict_get data "id"))
  end.

(** [_extract_player_id]; [None] when it raises. *)
Definition _extract_player_id (data : json) : option Z :=
  v ← get data "id" (JInt 0); int v.

(** The body of the [try] in the loop of [fetch_players_for_season]:
    the player built from an item, [None] when a statement raises (the
    item is then skipped). *)
Definition parse_player (player_data : json) : option PlayerStats :=
  player_id ← _extract_player_id player_data;
  match player_data with
  | JDict data =>
      match default (JDict []) (dict_get data "meta") with
      | JDict meta =>
          points ← _safe_extract_float meta "points";
          assists ← _safe_extract_float meta "assists";
          rebounds ← _safe_extract_float meta "rebounds";
          steals ← _safe_extract_float meta "steals";
          blocks ← _safe_extract_float meta "blocks";
          threes_made ← _safe_extract_float meta "threes_made";
          Some {| id := player_id;
                  name := _extract_player_name data;
                  points := points;
                  assists := assists;
                  rebounds := rebounds;
                  steals := steals;
                  blocks := blocks;
                  threes_made := threes_made;
                  fgm := 0; fga := 0; threepm := 0; threepa := 0;
                  fg_percent := 0; threep_percent := 0 |}
      | _ => None
      end
  | _ => None
  end.

(** [fetch_players_for_season]: the inner [None] is an exception that
    leaves the function, the outer one is lack of fuel. *)
Definition fetch_players_for_season (get_json : nat -> response)
    (fuel : nat) : option (option (list PlayerStats)) :=
  match paginate get_json None fuel 1 with
  | Some (items, raised) =>
      Some (if raised then None else Some (omap parse_player items))
  | None => None
  end.

(** [fetch_all_players_seasons], with one server per season query. *)
Fixpoint fetch_all_players_seasons (seasons : list (nat -> response))
    (fuel : nat) : option (list (list PlayerStats)) :=
  match seasons with
  | [] => Some []
  | get_json :: seasons' =>
      players ← fetch_players_for_season get_json fuel;
      rest ← fetch_all_players_seasons seasons' fuel;
      Some (default [] players :: rest)
  end.

End WithRuntime.

(** The server answers the requests for the first pages with the lists
    [pages], none of them empty. *)
Definition serves (get_json : nat -> response) (pages : list (list json))
    : Prop :=
  forall i l, pages !! i = Some l ->
              l <> [] /\ get_json (S i) = Returns (JList l).

(** A player item, and a server with two pages of them: one full, one
    short, then an empty page. *)
Definition player_item (id : Z) (name : string) (pts : string) : json :=
  JDict [("id", JInt id); ("name", JStr name);
         ("meta", JDict [("points", JStr pts)])].

Definition two_pages : list (list json) :=
  [ [player_item 1 "Ann" "30"; JStr "noise"];
    [player_item 2 "Bob" "12"] ].

Definition good_server : nat -> response :=
  fun page =>
    match page with
    | 1%nat => Returns (JList [player_item 1 "Ann" "30"; JStr "noise"])
    | 2%nat => Returns (JList [player_item 2 "Bob" "12"])
    | _ => Returns (JList [])
    end.

Definition failing_server : nat -> response :=
  fun page =>
    match page with
    | 1%nat => Returns (JList [player_item 1 "Ann" "30"; JStr "noise"])
    | 2%nat => Returns (JList [player_item 2 "Bob" "12"])
    | _ => RaisesOther
    end.

End Players.

(** ** The all-time leaders ([top_n_career_leaders_alltime]) *)

Module AllTime.
Import Py Sportspress Leaders.

Section WithRuntime.
Context {rt : Runtime}.

(** Validation of a model field declared [str]: as for
    [Optional[str]], but [None] is refused. *)
Definition validate_str (v : json) : option string :=
  match v with
  | JNull => None
  | _ => mjoin (validate_optional_str v)
  end.

(** [float(player_data.get(key, 0))]. *)
Definition stat_of (player_data : list (string * json)) (key : string)
    : option Q :=
  float (default (JInt 0) (dict_get player_data key)).

Definition alltime_keys : list string :=
  ["pts"; "ast"; "rebtwo"; "stl"; "blk"; "threepm"].

(** The body of the loop over [data.items()]: the players appended,
    [None] when a statement raises. *)
Definition alltime_player (entry : string * json)
    : option (list PlayerStats) :=
  let '(player_id, player_data) := entry in
  if String.eqb player_id "0" then Some []
  else
    match player_data with
    | JDict pd =>
        let player_name :=
          default (JStr ("Player " ++ player_id)) (dict_get pd "name") in
        points ← stat_of pd "pts";
        assists ← stat_of pd "ast";
        rebounds ← stat_of pd "rebtwo";
        steals ← stat_of pd "stl";
        blocks ← stat_of pd "blk";
        threes ← stat_of pd "threepm";
        if Qlt_bool 0 points || Qlt_bool 0 assists || Qlt_bool 0 rebounds
           || Qlt_bool 0 steals || Qlt_bool 0 blocks || Qlt_bool 0 threes
        then
          pid ← int (JStr player_id);
          nm ← validate_str player_name;
          Some [ {| id := pid; name := nm;
                    points := points; assists := assists;
                    rebounds := rebounds; steals := steals;
                    blocks := blocks; threes_made := threes;
                    fgm := 0; fga := 0; threepm := 0; threepa := 0;
                    fg_percent := 0; threep_percent := 0 |} ]
        else Some []
    | _ => Some []
    end.

(** [top_n_career_leaders_alltime]; [response] is what the request for
    the list returns, [None] when it raises.  A response that is not a
    dict ends in [LeadersData()] on every path: it is falsy, or does
    not contain ["data"], or cannot be tested or indexed. *)
Definition top_n_career_leaders_alltime {tx : Text}
    (response : option json) (n : Z) : LeaderBoard.LeadersData :=
  match response with
  | Some (JDict list_data) =>
      match dict_get list_data "data" with
      | Some data =>
          match
            match data with
            | JDict items => collect alltime_player items
            | _ => Some []
            end
          with
          | Some players => LeaderBoard.leaders_of players n
          | None => LeaderBoard.empty
          end
      | None => LeaderBoard.empty
      end
  | _ => LeaderBoard.empty
  end.

End WithRuntime.

(** Two players with statistics; the second list has an entry whose
    points are [null]. *)
Definition good_list : list (string * json) :=
  [ ("0", JDict [("name", JStr "Player"); ("pts", JStr "PTS")]);
    ("7", JDict [("name", JStr "Ann"); ("pts", JStr "120")]);
    ("8", JDict [("name", JStr "Bob"); ("pts", JInt 95)]) ].

Definition bad_list : list (string * json) :=
  (good_list ++ [("9", JDict [("name", JStr "Cy"); ("pts", JNull)])])%list.

End AllTime.

(** * Properties *)

(** ** Comparisons *)

Lemma Qlt_bool_iff x y : Qlt_bool x y = true <-> (x < y)%Q.
Proof.
  unfold Qlt_bool. rewrite negb_true_iff, <- not_true_iff_false, Qle_bool_iff.
  split; [apply Qnot_le_lt | apply Qlt_not_le].
Qed.

Lemma Qlt_bool_false x y : Qlt_bool x y = false <-> (y <= x)%Q.
Proof.
  unfold Qlt_bool. rewrite negb_false_iff. apply Qle_bool_iff.
Qed.

(** ** Milestone detection *)

Section MilestoneFacts.
Import Milestones MilestoneSpec.

Lemma not_sent_iff sent t : not_sent sent t = true <-> ~ In t sent.
Proof.
  unfold not_sent. rewrite negb_true_iff, <- not_true_iff_false.
  rewrite existsb_exists. split.
  - intros H Hin. apply H. exists t. split; [done | apply Z.eqb_refl].
  - intros H [x [Hin Hx]]. apply Z.eqb_eq in Hx. subst x. done.
Qed.







End MilestoneFacts.

Section MilestoneCounting.
Import Milestones MilestoneSpec.

Lemma player_crossings_unfold last sent pid pt :
  player_crossings last sent (pid, pt)
  = flat_map (stat_crossings (default ∅ (last !! str_of_int pid))
                             (default ∅ (sent !! str_of_int pid)) pt)
             MILESTONES.
Proof. reflexivity. Qed.








End MilestoneCounting.

Section MilestoneClaims.
Import Milestones MilestoneSpec.


Lemma player_crossings_fields last sent e :
  Forall (fun n => player n = name e.2
                   /\ value n = getattr_totals e.2 (stat n))
         (player_crossings last sent e).
Proof.
  destruct e as [pid pt]. rewrite player_crossings_unfold.
  apply Forall_forall. intros n Hn.
  apply list_elem_of_In in Hn. apply in_flat_map in Hn as [st [_ Hn]].
  unfold stat_crossings in Hn. apply in_map_iff in Hn as [t [<- _]].
  done.
Qed.



End MilestoneClaims.

Section MilestoneState.
Import Milestones MilestoneSpec.

Lemma announced_sent_under m pid s :
  announced m pid s = sent_under m (str_of_int pid) s.
Proof. reflexivity. Qed.

Lemma update_sent_fold ns caller copy :
  (fold_left record_sent_shared ns (caller, copy)).2
  = fold_left record_sent ns copy.
Proof.
  revert caller copy. induction ns as [|n ns IH]; intros caller copy; [done|].
  simpl. apply IH.
Qed.

Lemma sent_under_record_sent m n key s :
  sent_under (record_sent m n) key s
  = if decide (key = player n /\ s = stat n)
    then (sent_under m key s ++ [threshold n])%list
    else sent_under m key s.
Proof.
  unfold sent_under, record_sent.
  destruct (decide (key = player n)) as [->|Hk].
  - rewrite lookup_insert_eq. simpl.
    destruct (decide (s = stat n)) as [->|Hs].
    + rewrite lookup_insert_eq. simpl. rewrite decide_True; done.
    + rewrite lookup_insert_ne by done. rewrite decide_False; [done | tauto].
  - rewrite lookup_insert_ne by done. rewrite decide_False; [done | tauto].
Qed.

Lemma sent_under_mono ns m key s t :
  In t (sent_under m key s) ->
  In t (sent_under (fold_left record_sent ns m) key s).
Proof.
  revert m. induction ns as [|n ns IH]; intros m Hin; [done|].
  simpl. apply IH. rewrite sent_under_record_sent.
  case_decide; [apply in_or_app; by left | done].
Qed.

Lemma sent_under_recorded ns m n :
  In n ns ->
  In (threshold n)
     (sent_under (fold_left record_sent ns m) (player n) (stat n)).
Proof.
  revert m. induction ns as [|n' ns IH]; intros m Hin; [destruct Hin|].
  simpl. destruct Hin as [->|Hin]; [|by apply IH].
  apply sent_under_mono. rewrite sent_under_record_sent.
  rewrite decide_True by done. apply in_or_app. right. by left.
Qed.

(** Keys that name no notified player keep their entry. *)
Lemma record_sent_other_key ns m key :
  ~ In key (map player ns) ->
  fold_left record_sent ns m !! key = m !! key.
Proof.
  revert m. induction ns as [|n ns IH]; intros m Hnot; [done|].
  simpl in *. rewrite IH by tauto.
  unfold record_sent. rewrite lookup_insert_ne; [done | tauto].
Qed.

(** Keys that are the id of no current player keep their totals. *)
Lemma last_totals_other_key cur ns last sent key :
  ~ In key (map (fun e : Z * PlayerTotals => str_of_int e.1) cur) ->
  (update_milestone_state cur ns last sent).1 !! key = last !! key.
Proof.
  unfold update_milestone_state. simpl. clear ns sent.
  revert last. induction cur as [|[pid pt] cur IH]; intros last Hnot; [done|].
  simpl in *. rewrite IH by tauto.
  rewrite lookup_insert_ne; [done | tauto].
Qed.

(** Every notification carries the name of a current player. *)
Lemma detect_players cur last sent n :
  In n (detect_milestone_crossings cur last sent) ->
  In (player n) (map (fun e : Z * PlayerTotals => name e.2) cur).
Proof.
  unfold detect_milestone_crossings. intros Hn.
  apply in_flat_map in Hn as [e [He Hn]].
  pose proof (player_crossings_fields last sent e) as Hf.
  rewrite Forall_forall in Hf.
  destruct (Hf n) as [-> _]; [by apply list_elem_of_In|].
  apply in_map_iff. by exists e.
Qed.

(** A key that is neither the id nor the name of a current player keeps
    both entries through a pass. *)
Lemma stale_key_retained cur last sent key :
  ~ In key (map (fun e : Z * PlayerTotals => str_of_int e.1) cur) ->
  ~ In key (map (fun e : Z * PlayerTotals => name e.2) cur) ->
  (detect_and_update cur last sent).2.1 !! key = last !! key
  /\ (detect_and_update cur last sent).2.2 !! key = sent !! key.
Proof.
  intros Hid Hname. unfold detect_and_update. simpl. split.
  - by apply (last_totals_other_key cur [] last sent).
  - rewrite update_sent_fold. apply record_sent_other_key.
    intros Hin. apply Hname. apply in_map_iff in Hin as [n [<- Hn]].
    by eapply detect_players.
Qed.

End MilestoneState.

Section MilestoneIdempotence.
Import Milestones MilestoneSpec.

Lemma filter_nil_iff {A} (p : A -> bool) l :
  List.filter p l = [] <-> (forall x, In x l -> p x = false).
Proof.
  induction l as [|y l IH]; simpl; [tauto|].
  destruct (p y) eqn:Hy; split.
  - discriminate.
  - intros H. specialize (H y (or_introl eq_refl)). congruence.
  - intros H x [<-|Hx]; [done | by apply IH].
  - intros H. apply IH. intros x Hx. apply H. by right.
Qed.

Lemma flat_map_nil_iff {A B} (f : A -> list B) l :
  flat_map f l = [] <-> (forall x, In x l -> f x = []).
Proof.
  induction l as [|y l IH]; simpl; [tauto|]. split.
  - intros H. apply app_eq_nil in H as [Hy Hl].
    intros x [<-|Hx]; [done | by apply IH].
  - intros H. rewrite (H y) by (by left). simpl.
    apply IH. intros x Hx. apply H. by right.
Qed.

(** With [milestones_sent] written under the key that detection reads
    (a player whose display name is the decimal form of the id), a
    second detection over the same totals is silent. *)
Lemma detect_idempotent_when_name_is_id cur last sent :
  Forall (fun e : Z * PlayerTotals => name e.2 = str_of_int e.1) cur ->
  detect_milestone_crossings cur last
    (update_milestone_state cur
       (detect_milestone_crossings cur last sent) last sent).2 = [].
Proof.
  intros Hkeys. unfold update_milestone_state. simpl.
  rewrite update_sent_fold.
  set (first := detect_milestone_crossings cur last sent).
  set (sent' := fold_left record_sent first sent).
  unfold detect_milestone_crossings at 1.
  apply flat_map_nil_iff. intros [pid pt] He.
  rewrite player_crossings_unfold.
  apply flat_map_nil_iff. intros [s ths] Hst.
  unfold stat_crossings. simpl.
  assert (Hnil : new_thresholds (default ∅ (last !! str_of_int pid))
                   (default ∅ (sent' !! str_of_int pid)) pt s ths = []);
    [|by rewrite Hnil].
  unfold new_thresholds. apply filter_nil_iff. intros t Ht.
  apply not_true_iff_false. rewrite not_sent_iff. intros Hfresh.
  apply Hfresh. clear Hfresh.
  change (In t (sent_under sent' (str_of_int pid) s)).
  destruct (in_dec Z.eq_dec t (sent_under sent (str_of_int pid) s))
    as [Hold|Hnew].
  - by apply sent_under_mono.
  - assert (Hn : In (notify pt s t) first).
    { unfold first, detect_milestone_crossings.
      apply in_flat_map. exists (pid, pt). split; [done|].
      rewrite player_crossings_unfold. apply in_flat_map.
      exists (s, ths). split; [done|].
      unfold stat_crossings. simpl. apply in_map.
      unfold new_thresholds. apply filter_In. split; [done|].
      by apply not_sent_iff. }
    apply (sent_under_recorded first sent) in Hn. simpl in Hn.
    rewrite Forall_forall in Hkeys.
    specialize (Hkeys (pid, pt)). simpl in Hkeys.
    rewrite <- Hkeys; [done|]. by apply list_elem_of_In.
Qed.

End MilestoneIdempotence.

Section MilestoneDefects.
Import Milestones MilestoneSpec.

(** C1: running [detect_milestone_crossings] a second time on the same
    totals, with the announced map replaced by the one that
    [update_milestone_state] produced from the first run, should yield
    no notification.  For player 7 named "Alice" with 125 points and an
    empty state, the first run announces 100; the update files it under
    the key "Alice", detection reads the key "7", and the second run
    announces 100 again. *)
Theorem second_detection_repeats_notification :
  let current_totals := [(7%Z, alice)] in
  let first := detect_milestone_crossings current_totals ∅ ∅ in
  let updated := update_milestone_state current_totals first ∅ ∅ in
  first = [mkNotification "Alice" "points" 125 100]
  /\ updated.2 = {[ "Alice" := {[ "points" := [100%Z] ]} ]}
  /\ updated.2 !! "7" = None
  /\ detect_milestone_crossings current_totals ∅ updated.2
     = [mkNotification "Alice" "points" 125 100].
Proof. vm_compute. repeat split; reflexivity. Qed.

(** C10: a player present in the state but absent from the current
    totals should keep his entries through a detection-and-update
    pass.  Player 5 is absent; player 7, whose name is "5", crosses 100
    points: the pass appends 100 to the announced points of player 5,
    in the returned map and in the caller's. *)
Theorem stale_player_entry_is_modified :
  let current_totals := [(7%Z, player_named_5)] in
  let pass := detect_and_update current_totals stale_last stale_sent in
  ~ In "5" (map (fun e : Z * PlayerTotals => str_of_int e.1) current_totals)
  /\ pass.1 = [mkNotification "5" "points" 125 100]
  /\ pass.2.1 !! "5" = stale_last !! "5"
  /\ announced stale_sent 5 "points" = []
  /\ announced pass.2.2 5 "points" = [100%Z]
  /\ announced (milestones_sent_after_update pass.1 stale_sent) 5 "points"
     = [100%Z].
Proof.
  vm_compute. repeat split; try reflexivity.
  intros [H|[]]. discriminate.
Qed.

(** The same on a state written by the code itself: the key "Player1"
    of [milestones_sent] is the id of no current player, and the pass
    extends its entry. *)
Example name_keyed_entry_is_extended :
  let current_totals := [(1%Z, player1)] in
  let pass := detect_and_update current_totals player1_last player1_sent in
  ~ In "Player1"
       (map (fun e : Z * PlayerTotals => str_of_int e.1) current_totals)
  /\ pass.1 = [mkNotification "Player1" "points" 260 250]
  /\ sent_under player1_sent "Player1" "points" = [100%Z]
  /\ sent_under pass.2.2 "Player1" "points" = [100%Z; 250%Z].
Proof.
  vm_compute. repeat split; try reflexivity.
  intros [H|[]]. discriminate.
Qed.

End MilestoneDefects.

(** ** Leaders *)

Section LeaderFacts.
Import Leaders LeaderSpec.
Context {tx : Py.Text}.

Lemma string_leb_iff a b :
  String.leb a b = true <-> a = b \/ OrderedTypeEx.String_as_OT.lt a b.
Proof.
  unfold String.leb.
  destruct (String.compare a b) eqn:Hc.
  - apply OrderedTypeEx.String_as_OT.cmp_eq in Hc. tauto.
  - apply OrderedTypeEx.String_as_OT.cmp_lt in Hc. tauto.
  - split; [discriminate|]. intros [->|Hlt].
    + assert (String.compare b b = Eq) as Hb
        by (by apply OrderedTypeEx.String_as_OT.cmp_eq).
      congruence.
    + apply OrderedTypeEx.String_as_OT.cmp_lt in Hlt.
      unfold OrderedTypeEx.String_as_OT.cmp in Hlt. congruence.
Qed.

Lemma string_leb_trans a b c :
  String.leb a b = true -> String.leb b c = true -> String.leb a c = true.
Proof.
  rewrite !string_leb_iff. intros [->|Hab] [->|Hbc]; auto.
  right. eapply OrderedTypeEx.String_as_OT.lt_trans; eassumption.
Qed.

Lemma string_ltb_false a b : String.ltb a b = false -> String.leb b a = true.
Proof.
  unfold String.ltb, String.leb. rewrite (String.compare_antisym b a).
  destruct (String.compare a b); simpl; done.
Qed.

Lemma string_ltb_leb a b : String.ltb a b = true -> String.leb a b = true.
Proof.
  unfold String.ltb, String.leb. destruct (String.compare a b); done.
Qed.

Lemma ranks_before_trans a b c :
  ranks_before a b -> ranks_before b c -> ranks_before a c.
Proof.
  unfold ranks_before. intros [Hab|[Hab Hn1]] [Hbc|[Hbc Hn2]].
  - left. lra.
  - left. lra.
  - left. lra.
  - right. split; [lra|]. eapply string_leb_trans; eassumption.
Qed.

(** The comparison of keys decides the ranking. *)
Lemma key_lt_true x y :
  key_lt (sort_key y) (sort_key x) = true -> ranks_before y x.
Proof.
  unfold key_lt, sort_key, ranks_before. simpl.
  rewrite orb_true_iff, andb_true_iff, Qlt_bool_iff, Qeq_bool_iff.
  intros [H|[H Hs]]; [left; lra | right].
  split; [lra | by apply string_ltb_leb].
Qed.

Lemma key_lt_false x y :
  key_lt (sort_key y) (sort_key x) = false -> ranks_before x y.
Proof.
  unfold key_lt, sort_key, ranks_before. simpl.
  rewrite orb_false_iff, andb_false_iff, Qlt_bool_false.
  intros [H [He|Hs]].
  - left. apply not_true_iff_false in He. rewrite Qeq_bool_iff in He.
    destruct (Qlt_le_dec (snd y) (snd x)); [done|].
    exfalso. apply He. lra.
  - destruct (Qlt_le_dec (snd y) (snd x)); [by left|].
    right. split; [lra | by apply string_ltb_false].
Qed.

Lemma insert_by_key_perm x l : Permutation (insert_by_key x l) (x :: l).
Proof.
  induction l as [|y l IH]; simpl; [done|].
  destruct (key_lt _ _); [|done].
  rewrite IH. apply perm_swap.
Qed.

Lemma insert_by_key_sorted x l :
  StronglySorted ranks_before l ->
  StronglySorted ranks_before (insert_by_key x l).
Proof.
  induction 1 as [|y l Hl IH Hy]; simpl.
  - repeat constructor.
  - destruct (key_lt (sort_key y) (sort_key x)) eqn:Hk.
    + constructor; [exact IH|].
      apply List.Forall_forall. intros z Hz.
      apply (Permutation_in _ (insert_by_key_perm x l)) in Hz.
      destruct Hz as [<-|Hz]; [by apply key_lt_true|].
      rewrite List.Forall_forall in Hy. by apply Hy.
    + apply key_lt_false in Hk.
      constructor; [by constructor|].
      constructor; [done|].
      eapply List.Forall_impl; [|exact Hy].
      intros z Hz. eapply ranks_before_trans; eassumption.
Qed.

Lemma sort_by_key_sorted l : StronglySorted ranks_before (sort_by_key l).
Proof.
  induction l as [|x l IH]; simpl; [constructor|].
  by apply insert_by_key_sorted.
Qed.

Lemma sort_by_key_perm l : Permutation (sort_by_key l) l.
Proof.
  induction l as [|x l IH]; simpl; [done|].
  rewrite insert_by_key_perm. by constructor.
Qed.

Lemma in_firstn {A} n (l : list A) x : In x (firstn n l) -> In x l.
Proof.
  intros H. rewrite <- (firstn_skipn n l). apply in_or_app. by left.
Qed.

Lemma firstn_sorted {A} (R : A -> A -> Prop) n l :
  StronglySorted R l -> StronglySorted R (firstn n l).
Proof.
  intros Hs. revert n. induction Hs as [|x l Hl IH Hx]; intros [|n]; simpl;
    try constructor.
  - apply IH.
  - rewrite List.Forall_forall in *. intros y Hy. apply Hx.
    by apply (in_firstn n).
Qed.

End LeaderFacts.

Section LeaderClaims.
Import Leaders LeaderSpec.
Context {tx : Py.Text}.

Lemma entry_pair_make_entry x : entry_pair (make_entry x) = x.
Proof. by destruct x. Qed.

Lemma top_n_nonneg players s n :
  (0 <= n)%Z ->
  top_n players s n
  = map make_entry (firstn (Z.to_nat n) (_stable_sort_leaders players s)).
Proof.
  intros Hn. unfold top_n, slice_to.
  destruct (Z.ltb_spec n 0); [lia | done].
Qed.

Lemma stable_sort_leaders_perm players s :
  Permutation (_stable_sort_leaders players s) (positive_entries players s).
Proof. apply sort_by_key_perm. Qed.

Lemma positive_entries_positive players s x :
  In x (positive_entries players s) -> (0 < snd x)%Q.
Proof.
  unfold positive_entries. intros Hx.
  apply in_map_iff in Hx as [p [<- Hp]].
  apply filter_In in Hp as [_ Hp]. by apply Qlt_bool_iff.
Qed.

Lemma sorted_make_entry l :
  StronglySorted ranks_before l ->
  StronglySorted (fun a b => ranks_before (entry_pair a) (entry_pair b))
                 (map make_entry l).
Proof.
  induction 1 as [|x l Hl IH Hx]; simpl; constructor; [done|].
  rewrite List.Forall_forall in *. intros e He.
  apply in_map_iff in He as [y [<- Hy]].
  rewrite !entry_pair_make_entry. by apply Hx.
Qed.

Lemma sorted_pair {A} (R : A -> A -> Prop) before a between b after :
  StronglySorted R (before ++ a :: between ++ b :: after)%list -> R a b.
Proof.
  induction before as [|x before IH]; cbn.
  - intros H. apply StronglySorted_inv in H as [_ H].
    rewrite List.Forall_forall in H. apply H.
    apply in_or_app. right. by left.
  - intros H. apply StronglySorted_inv in H as [H _]. by apply IH.
Qed.

(** C2: for every list of player stats, every tracked statistic and
    every [n >= 0], the leaders have length at most [n], carry only
    strictly positive values, and are sorted by value descending with
    ties broken by the lower-cased name ascending, where lower-casing
    is the interpreter's [str.lower()]; for names of ASCII characters
    this is the order of the names with the letters A to Z folded.
    The leaders are the first entries of a rearrangement of the
    players with a positive value.  Rows A:30, B:30, C:25 for points
    with [n = 3] give [(A,30); (B,30); (C,25)], and rows Bob:30,
    alice:30, Carl:25, dan:25 give [(alice,30); (Bob,30); (Carl,25)]. *)
Theorem top_n_bounded_positive_sorted :
  forall (players : list PlayerStats) (s : Stat) (n : Z),
    (0 <= n)%Z ->
    (Z.of_nat (length (top_n players s n)) <= n)%Z
    /\ List.Forall (fun e => (0 < entry_value e)%Q) (top_n players s n)
    /\ StronglySorted
         (fun a b => ranks_before (entry_pair a) (entry_pair b))
         (top_n players s n)
    /\ (forall before a between b after,
          top_n players s n = (before ++ a :: between ++ b :: after)%list ->
          ((entry_value b <= entry_value a)%Q
           /\ ((entry_value a == entry_value b)%Q ->
               Py.is_ascii (entry_name a) = true ->
               Py.is_ascii (entry_name b) = true ->
               String.leb (Py.lower (entry_name a))
                          (Py.lower (entry_name b)) = true)))
    /\ (exists rest,
          Permutation (map entry_pair (top_n players s n) ++ rest)
                      (positive_entries players s))
    /\ @top_n Example.text scenario_A Points 3
       = [mkLeaderEntry "A" 30; mkLeaderEntry "B" 30; mkLeaderEntry "C" 25]
    /\ @top_n Example.text mixed_case Points 3
       = [mkLeaderEntry "alice" 30; mkLeaderEntry "Bob" 30;
          mkLeaderEntry "Carl" 25].
Proof.
  intros players s n Hn. rewrite top_n_nonneg by done.
  set (sorted := _stable_sort_leaders players s).
  assert (Hsorted :
    StronglySorted (fun a b => ranks_before (entry_pair a) (entry_pair b))
                   (map make_entry (firstn (Z.to_nat n) sorted))).
  { apply sorted_make_entry, firstn_sorted, sort_by_key_sorted. }
  split; [|split; [|split; [|split; [|split; [|split]]]]].
  - rewrite length_map.
    pose proof (firstn_le_length (Z.to_nat n) sorted). lia.
  - apply List.Forall_forall. intros e He.
    apply in_map_iff in He as [x [<- Hx]].
    apply in_firstn in Hx.
    apply (Permutation_in _ (stable_sort_leaders_perm players s)) in Hx.
    apply positive_entries_positive in Hx. by destruct x.
  - exact Hsorted.
  - intros before a between b after Heq. rewrite Heq in Hsorted.
    apply sorted_pair in Hsorted. unfold ranks_before in Hsorted.
    cbn [entry_pair fst snd] in Hsorted. split.
    + destruct Hsorted as [Hlt|[Hv _]]; lra.
    + intros Hv Ha Hb. destruct Hsorted as [Hlt|[_ Hle]]; [lra|].
      by rewrite !Py.str_lower_ascii in Hle.
  - exists (skipn (Z.to_nat n) sorted).
    rewrite map_map. erewrite map_ext by apply entry_pair_make_entry.
    rewrite map_id, firstn_skipn. apply stable_sort_leaders_perm.
  - reflexivity.
  - reflexivity.
Qed.

End LeaderClaims.

Section LeaderExamples.
Import Leaders LeaderSpec.

Lemma top_n_bounded_positive_sorted_witness :
  (Z.of_nat (length (@top_n Example.text mixed_case Points 3)) <= 3)%Z
  /\ @top_n Example.text mixed_case Points 3
     = [mkLeaderEntry "alice" 30; mkLeaderEntry "Bob" 30;
        mkLeaderEntry "Carl" 25].
Proof.
  pose proof (@top_n_bounded_positive_sorted Example.text mixed_case
                Points 3) as H.
  destruct H as (Hlen & _ & _ & _ & _ & _ & Hex); [lia|].
  split; [exact Hlen | exact Hex].
Defined.

End LeaderExamples.

(** ** Single-game records *)

Section FloatFacts.

Lemma float_ltb_irrefl a : PyFloat.ltb a a = false.
Proof.
  destruct a as [| |q|]; try reflexivity. cbn.
  apply Qlt_bool_false. lra.
Qed.

Lemma float_lt_trans a b c :
  PyFloat.lt a b -> PyFloat.lt b c -> PyFloat.lt a c.
Proof.
  unfold PyFloat.lt.
  destruct a as [| |p|], b as [| |q|], c as [| |r|]; cbn;
    try discriminate; try reflexivity.
  rewrite !Qlt_bool_iff. lra.
Qed.

Lemma float_lt_not_nan a b :
  PyFloat.lt a b -> PyFloat.is_nan a = false /\ PyFloat.is_nan b = false.
Proof. unfold PyFloat.lt. by destruct a, b. Qed.

Lemma float_eq_refl a : PyFloat.is_nan a = false -> PyFloat.eq a a.
Proof. destruct a; cbn; first [done | intros; lra]. Qed.

Lemma float_eq_sym a b : PyFloat.eq a b -> PyFloat.eq b a.
Proof. destruct a, b; cbn; first [done | intros; lra]. Qed.

Lemma float_eq_trans a b c :
  PyFloat.eq a b -> PyFloat.eq b c -> PyFloat.eq a c.
Proof. destruct a, b, c; cbn; first [done | intros; lra]. Qed.

Lemma float_eq_not_lt a b : PyFloat.eq a b -> ~ PyFloat.lt a b.
Proof.
  unfold PyFloat.lt. destruct a, b; cbn; try done.
  intros Heq Hlt. apply Qlt_bool_iff in Hlt. lra.
Qed.

Lemma float_not_lt_le a b :
  PyFloat.is_nan a = false -> PyFloat.is_nan b = false ->
  PyFloat.ltb a b = false -> PyFloat.le b a.
Proof.
  unfold PyFloat.le, PyFloat.lt.
  destruct a as [| |p|], b as [| |q|]; cbn; try done; try tauto.
  intros _ _ Hlt. apply Qlt_bool_false in Hlt.
  destruct (Qlt_le_dec q p) as [H|H].
  - left. by apply Qlt_bool_iff.
  - right. lra.
Qed.

Lemma float_le_refl a : PyFloat.is_nan a = false -> PyFloat.le a a.
Proof. intros H. right. by apply float_eq_refl. Qed.

Lemma float_le_trans a b c :
  PyFloat.le a b -> PyFloat.le b c -> PyFloat.le a c.
Proof.
  unfold PyFloat.le, PyFloat.lt.
  destruct a as [| |p|], b as [| |q|], c as [| |r|]; cbn;
    rewrite ?Qlt_bool_iff; try tauto;
    try (intros [?|?] [?|?]; try done; try (left; lra); right; lra).
Qed.

Lemma float_le_antisym a b :
  PyFloat.le a b -> PyFloat.le b a -> PyFloat.eq a b.
Proof.
  unfold PyFloat.le, PyFloat.lt.
  destruct a as [| |p|], b as [| |q|]; cbn;
    rewrite ?Qlt_bool_iff; try tauto;
    try (intros [?|?] [?|?]; try done; lra).
Qed.

Lemma float_le_eq_r a b c :
  PyFloat.le a b -> PyFloat.eq b c -> PyFloat.le a c.
Proof. intros Hab Hbc. eapply float_le_trans; [exact Hab | by right]. Qed.

End FloatFacts.

Section RecordClaims.
Import Records RecordSpec.

Lemma record_of_value c :
  SingleGameRecord.value (record_of c) = RecordCandidate.value c.
Proof. reflexivity. Qed.

Lemma try_update_max_le current c :
  record_le current (_try_update_max current c).
Proof.
  unfold _try_update_max. destruct current as [cur|]; [|done]. simpl.
  unfold PyFloat.gtb. destruct (PyFloat.ltb _ _) eqn:Hlt; simpl.
  - right. exact Hlt.
  - by left.
Qed.

(** C5: the update step replaces the record iff the record is unset or
    the candidate's value is strictly greater; otherwise, and in
    particular on a tie or when either value is NaN, the incumbent is
    returned unchanged.  The new record carries the statistic, value,
    holder, game and date of the candidate, and those of its ids and
    links that are set and not zero or empty; the stored value never
    decreases. *)
Theorem try_update_max_replaces_iff_greater :
  forall (current : option SingleGameRecord.t) (candidate : RecordCandidate.t),
    let replaced := 
      exists r,
        _try_update_max current candidate = Some r
        /\ SingleGameRecord.stat r = RecordCandidate.stat candidate
        /\ SingleGameRecord.value r = RecordCandidate.value candidate
        /\ SingleGameRecord.holder r = RecordCandidate.holder candidate
        /\ SingleGameRecord.game r = RecordCandidate.game candidate
        /\ SingleGameRecord.date r = RecordCandidate.date candidate
        /\ SingleGameRecord.player_id r
           = match RecordCandidate.player_id candidate with
             | Some n => if (n =? 0)%Z then None else Some n
             | None => None
             end
        /\ SingleGameRecord.team_id r
           = match RecordCandidate.team_id candidate with
             | Some n => if (n =? 0)%Z then None else Some n
             | None => None
             end
        /\ SingleGameRecord.opp_team_id r
           = match RecordCandidate.opp_team_id candidate with
             | Some n => if (n =? 0)%Z then None else Some n
             | None => None
             end
        /\ SingleGameRecord.game_url r
           = match RecordCandidate.game_url candidate with
             | Some v => if Py.truthy v then Some v else None
             | None => None
             end
        /\ SingleGameRecord.player_url r
           = match RecordCandidate.player_url candidate with
             | Some s => if String.eqb s "" then None else Some s
             | None => None
             end in
    (current = None -> replaced)
    /\ (forall cur,
          current = Some cur ->
          (PyFloat.lt (SingleGameRecord.value cur)
                      (RecordCandidate.value candidate) -> replaced)
          /\ (~ PyFloat.lt (SingleGameRecord.value cur)
                           (RecordCandidate.value candidate) ->
              _try_update_max current candidate = Some cur)
          /\ (PyFloat.eq (RecordCandidate.value candidate)
                         (SingleGameRecord.value cur) ->
              _try_update_max current candidate = Some cur)
          /\ (PyFloat.is_nan (RecordCandidate.value candidate) = true
              \/ PyFloat.is_nan (SingleGameRecord.value cur) = true ->
              _try_update_max current candidate = Some cur))
    /\ record_le current (_try_update_max current candidate).
Proof.
  intros current candidate replaced.
  assert (Hnew : _try_update_max current candidate
                 = Some (record_of candidate) -> replaced).
  { intros Heq. exists (record_of candidate). split; [exact Heq|].
    by repeat split. }
  split; [|split].
  - intros ->. by apply Hnew.
  - intros cur ->. unfold PyFloat.lt in *. cbn [_try_update_max] in *.
    unfold PyFloat.gtb in *.
    destruct (PyFloat.ltb _ _) eqn:Hlt.
    + split; [by intros _; apply Hnew|]. split; [done|].
      split.
      * intros Heq. by apply float_eq_sym, float_eq_not_lt in Heq.
      * destruct (float_lt_not_nan _ _ Hlt) as [H1 H2].
        intros [H|H]; congruence.
    + split; [done|]. by repeat split.
  - apply try_update_max_le.
Qed.

Lemma try_update_max_replaces_iff_greater_witness :
  _try_update_max (Some (record_of (points_candidate "A" 40))) full_candidate
  = Some (SingleGameRecord.mk "points" (PyFloat.Finite 55) "B"
            "Team 1 vs Team 2" "2024-01-15" (Some 77%Z) (Some 10%Z)
            (Some 20%Z) (Some (Py.JStr "https://league.example/event/5"))
            None)
  /\ _try_update_max (Some (record_of (points_candidate "A" 40)))
                     (points_candidate "B" 40)
     = Some (SingleGameRecord.mk "points" (PyFloat.Finite 40) "A"
               "Team 1 vs Team 2" "2024-01-15" None None None None None).
Proof.
  pose proof (try_update_max_replaces_iff_greater
                (Some (record_of (points_candidate "A" 40)))
                full_candidate) as (_ & H1 & _).
  pose proof (try_update_max_replaces_iff_greater
                (Some (record_of (points_candidate "A" 40)))
                (points_candidate "B" 40)) as (_ & H2 & _).
  split.
  - destruct (H1 _ eq_refl) as (Hrep & _).
    destruct Hrep as (r & -> & Hs & Hv & Hh & Hg & Hd & Hp & Ht & Ho & Hu & Hpu);
      [reflexivity|].
    destruct r. cbn in *. by subst.
  - destruct (H2 _ eq_refl) as (_ & Hkeep & _).
    rewrite Hkeep; [reflexivity|]. intros Hlt. vm_compute in Hlt.
    discriminate.
Defined.

Lemma record_le_refl r : record_le r r.
Proof. destruct r; simpl; [by left | done]. Qed.

Lemma record_le_trans a b c : record_le a b -> record_le b c -> record_le a c.
Proof.
  destruct a, b, c; simpl; try done.
  intros [->|Hab] [->|Hbc]; try (by left); try (by right).
  right. by eapply float_lt_trans.
Qed.

Lemma fold_candidates_le current l1 l2 :
  record_le (fold_candidates current l1) (fold_candidates current (l1 ++ l2)).
Proof.
  unfold fold_candidates. rewrite fold_left_app.
  generalize (fold_left _try_update_max l1 current). clear current l1.
  induction l2 as [|c l2 IH]; intros r; simpl; [apply record_le_refl|].
  eapply record_le_trans; [apply try_update_max_le | apply IH].
Qed.

(** The value held after a fold that starts from a set record whose
    value is not NaN, over candidates none of which is NaN: the
    greatest of the start value and the candidates' values. *)
Lemma fold_candidates_from_set cur l :
  PyFloat.is_nan (SingleGameRecord.value cur) = false ->
  no_nan l ->
  exists r,
    fold_candidates (Some cur) l = Some r
    /\ PyFloat.is_nan (SingleGameRecord.value r) = false
    /\ PyFloat.le (SingleGameRecord.value cur) (SingleGameRecord.value r)
    /\ (forall c, In c l ->
          PyFloat.le (RecordCandidate.value c) (SingleGameRecord.value r))
    /\ (r = cur
        \/ exists c, In c l
                     /\ PyFloat.eq (RecordCandidate.value c)
                                   (SingleGameRecord.value r)).
Proof.
  revert cur. induction l as [|c l IH]; intros cur Hcur Hl.
  - exists cur. simpl. split; [done|]. split; [done|].
    split; [by apply float_le_refl|]. split; [tauto | by left].
  - assert (Hc : PyFloat.is_nan (RecordCandidate.value c) = false)
      by (apply Hl; by left).
    assert (Hl' : no_nan l) by (intros c' Hc'; apply Hl; by right).
    unfold fold_candidates. cbn [fold_left _try_update_max].
    unfold PyFloat.gtb. destruct (PyFloat.ltb _ _) eqn:Hlt.
    + destruct (IH (record_of c) Hc Hl') as (r & Hr & Hnan & Hge & Hall & Hsrc).
      exists r. split; [exact Hr|]. split; [exact Hnan|].
      rewrite record_of_value in Hge.
      split; [eapply float_le_trans; [left; exact Hlt | exact Hge]|]. split.
      * intros c' [<-|Hc']; [done | by apply Hall].
      * right. destruct Hsrc as [->|[c' [Hc' Hv]]].
        -- exists c. split; [by left|]. rewrite record_of_value.
           by apply float_eq_refl.
        -- exists c'. split; [by right | done].
    + destruct (IH cur Hcur Hl') as (r & Hr & Hnan & Hge & Hall & Hsrc).
      exists r. split; [exact Hr|]. split; [exact Hnan|].
      split; [done|]. split.
      * intros c' [<-|Hc']; [|by apply Hall].
        eapply float_le_trans; [|exact Hge].
        by apply float_not_lt_le.
      * destruct Hsrc as [->|[c' [Hc' Hv]]]; [by left|].
        right. exists c'. split; [by right | done].
Qed.

Lemma fold_candidates_max c l :
  no_nan (c :: l) ->
  exists r,
    fold_candidates None (c :: l) = Some r
    /\ is_max_value (SingleGameRecord.value r) (c :: l).
Proof.
  intros Hl.
  assert (Hc : PyFloat.is_nan (RecordCandidate.value c) = false)
    by (apply Hl; by left).
  destruct (fold_candidates_from_set (record_of c) l Hc)
    as (r & Hr & Hnan & Hge & Hall & Hsrc).
  { intros c' Hc'. apply Hl. by right. }
  exists r. split; [exact Hr|]. rewrite record_of_value in Hge. split.
  - destruct Hsrc as [->|[c' [Hc' Hv]]].
    + exists c. split; [by left|]. rewrite record_of_value.
      by apply float_eq_refl.
    + exists c'. split; [by right | done].
  - intros c' [<-|Hc']; [done | by apply Hall].
Qed.

Lemma is_max_value_unique m m' l :
  is_max_value m l -> is_max_value m' l -> PyFloat.eq m m'.
Proof.
  intros [[c [Hc Hv]] Hub] [[c' [Hc' Hv']] Hub'].
  apply Hub in Hc'. apply Hub' in Hc.
  apply float_le_antisym.
  - eapply float_le_trans; [right; apply float_eq_sym; exact Hv | exact Hc].
  - eapply float_le_trans; [right; apply float_eq_sym; exact Hv' | exact Hc'].
Qed.

Lemma is_max_value_perm m l l' :
  Permutation l l' -> is_max_value m l -> is_max_value m l'.
Proof.
  intros Hp [[c [Hc Hv]] Hub]. split.
  - exists c. split; [by apply (Permutation_in _ Hp) | done].
  - intros c' Hc'. apply Hub. by apply (Permutation_in _ (Permutation_sym Hp)).
Qed.

(** The claim fails at NaN: every comparison with NaN is false, so a
    NaN candidate folded in first is never replaced, and one folded in
    later never replaces.  The two orders of a NaN candidate and a
    candidate with 55 points end at NaN and at 55. *)
Lemma record_fold_depends_on_order_at_nan :
  Permutation [nan_candidate "A"; points_candidate "B" 55]
              [points_candidate "B" 55; nan_candidate "A"]
  /\ record_value
       (fold_candidates None [nan_candidate "A"; points_candidate "B" 55])
     = Some PyFloat.NaN
  /\ record_value
       (fold_candidates None [points_candidate "B" 55; nan_candidate "A"])
     = Some (PyFloat.Finite 55).
Proof. split; [apply perm_swap | split; reflexivity]. Qed.

(** C6: folding candidates through the update step never lowers the
    record.  When no candidate value is NaN, the final value is the
    greatest candidate value, whatever the processing order;
    candidates with 40 and 55 points end at 55 in either order. *)
Theorem record_fold_is_order_independent_max :
  forall (candidates candidates' : list RecordCandidate.t),
    Permutation candidates candidates' ->
    (forall current l1 l2,
        candidates = (l1 ++ l2)%list ->
        record_le (fold_candidates current l1)
                  (fold_candidates current candidates))
    /\ (no_nan candidates ->
        (candidates <> [] ->
         exists r, fold_candidates None candidates = Some r
                   /\ is_max_value (SingleGameRecord.value r) candidates)
        /\ same_value (record_value (fold_candidates None candidates))
                      (record_value (fold_candidates None candidates')))
    /\ record_value
         (fold_candidates None
            [points_candidate "A" 40; points_candidate "B" 55])
       = Some (PyFloat.Finite 55)
    /\ record_value
         (fold_candidates None
            [points_candidate "B" 55; points_candidate "A" 40])
       = Some (PyFloat.Finite 55).
Proof.
  intros l l' Hp. split; [|split; [|split]].
  - intros current l1 l2 ->. apply fold_candidates_le.
  - intros Hl. split.
    + destruct l as [|c l]; [done|]. intros _. by apply fold_candidates_max.
    + assert (Hl' : no_nan l').
      { intros c Hc. apply Hl.
        by apply (Permutation_in _ (Permutation_sym Hp)). }
      destruct l as [|c l].
      * apply Permutation_nil in Hp. subst. done.
      * destruct l' as [|c' l'];
          [apply Permutation_sym, Permutation_nil in Hp; discriminate|].
        destruct (fold_candidates_max c l Hl) as (r & -> & Hr).
        destruct (fold_candidates_max c' l' Hl') as (r' & -> & Hr').
        simpl. eapply is_max_value_unique; [|exact Hr'].
        by apply (is_max_value_perm _ _ _ Hp).
  - reflexivity.
  - reflexivity.
Qed.

Lemma record_fold_is_order_independent_max_witness :
  same_value
    (record_value
       (fold_candidates None
          [points_candidate "A" 40; points_candidate "B" 55]))
    (record_value
       (fold_candidates None
          [points_candidate "B" 55; points_candidate "A" 40])).
Proof.
  apply (record_fold_is_order_independent_max
           [points_candidate "A" 40; points_candidate "B" 55]
           [points_candidate "B" 55; points_candidate "A" 40]).
  - apply perm_swap.
  - intros c [<-|[<-|[]]]; reflexivity.
Defined.




End RecordClaims.

Section AchievementClaim.
Import Py Sportspress Records RecordSpec.




End AchievementClaim.


(** ** Row extraction *)

Section ExtractFacts.
Import Py Sportspress ExtractSpec.
Context {rt : Runtime}.

(** Case analysis on the first computation of a chain that may
    raise. *)
Ltac bind_case :=
  match goal with
  | |- (?m ≫= _) = Some _ -> _ =>
      destruct m eqn:?; simpl; [|discriminate]
  end.

Lemma collect_In {A B} (body : A -> option (list B)) l rows r :
  collect body l = Some rows -> In r rows ->
  exists x rs, In x l /\ body x = Some rs /\ In r rs.
Proof.
  revert rows. induction l as [|x l IH]; intros rows Hc Hr; simpl in Hc.
  - injection Hc as <-. destruct Hr.
  - destruct (body x) as [rs|] eqn:Hx; [|discriminate]. simpl in Hc.
    destruct (collect body l) as [rest|] eqn:Hl; [|discriminate].
    injection Hc as <-. apply in_app_or in Hr as [Hr|Hr].
    + exists x, rs. split; [by left | done].
    + destruct (IH rest eq_refl Hr) as (y & rs' & Hy & Hb & Hin).
      exists y, rs'. split; [by right | done].
Qed.

Lemma create_player_row_name row side ta tb dt url r :
  _create_player_row row side ta tb dt url = Some r ->
  EventPlayerRow.name r
  = str (or_else
           (or_else (or_else (default JNull (dict_get row "name"))
                             (default JNull (dict_get row "player")))
                    (default JNull (dict_get row "title")))
           (JStr "Unknown")).
Proof.
  unfold _create_player_row.
  destruct (side_is_team_a side);
    repeat match goal with
           | |- (?m ≫= _) = Some _ -> _ =>
               destruct m; cbn [mbind option_bind]; [|discriminate]
           end;
    by intros [= <-].
Qed.

Lemma perf_player_sentinel ctx team_id player_stats :
  perf_player ctx team_id ("0", player_stats) = Some [].
Proof. reflexivity. Qed.

Lemma perf_team_sentinel ctx team_performance :
  perf_team ctx ("0", team_performance) = Some [].
Proof. reflexivity. Qed.

Lemma perf_player_row ctx team_id player_id player_stats rs r :
  perf_player ctx team_id (player_id, player_stats) = Some rs -> In r rs ->
  player_id <> "0" /\ EventPlayerRow.name r = "Player " ++ player_id.
Proof.
  unfold perf_player. destruct (String.eqb_spec player_id "0") as [->|Hne].
  - intros [= <-] [].
  - destruct player_stats as [| | | | | |ps]; try (intros [= <-] []).
    destruct (has_stats ps); [|intros [= <-] []].
    repeat bind_case.
    intros [= <-] [<-|[]]. split; [done|].
    match goal with H : _create_player_row _ _ _ _ _ _ = Some _ |- _ =>
      rewrite (create_player_row_name _ _ _ _ _ _ _ H) end.
    reflexivity.
Qed.

Lemma perf_team_row ctx team_id team_performance rs r :
  perf_team ctx (team_id, team_performance) = Some rs -> In r rs ->
  team_id <> "0"
  /\ exists players player_id player_stats,
       team_performance = JDict players
       /\ In (player_id, player_stats) players
       /\ player_id <> "0"
       /\ EventPlayerRow.name r = "Player " ++ player_id.
Proof.
  unfold perf_team. destruct (String.eqb_spec team_id "0") as [->|Hne].
  - intros [= <-] [].
  - destruct team_performance as [| | | | | |players];
      try (intros [= <-] []).
    intros Hc Hr. split; [done|].
    destruct (collect_In _ _ _ _ Hc Hr) as ([pid ps] & rs' & Hin & Hb & Hr').
    destruct (perf_player_row _ _ _ _ _ _ Hb Hr') as [Hpid Hname].
    by exists players, pid, ps.
Qed.

(** The rows of the performance format come from entries whose team
    key and player key are not ["0"]. *)
Lemma performance_rows_origin ctx event rows r :
  performance_rows ctx event = Some rows -> In r rows ->
  exists performance team_id player_id,
    get event "performance" JNull = Some (JDict performance)
    /\ from_entry performance team_id player_id r
    /\ team_id <> "0" /\ player_id <> "0".
Proof.
  unfold performance_rows.
  destruct (get event "performance" JNull) as [pd|]; [|discriminate]. simpl.
  destruct pd as [| | | | | |[|tp perf]]; try (intros [= <-] []).
  intros Hc Hr.
  destruct (collect_In _ _ _ _ Hc Hr) as ([tid tperf] & rs & Hin & Hb & Hr').
  destruct (perf_team_row _ _ _ _ _ Hb Hr')
    as (Htid & players & pid & ps & -> & Hp & Hpid & Hname).
  exists (tp :: perf), tid, pid. split; [done|]. split; [|done].
  exists players, ps. repeat split; assumption.
Qed.

(** When the performance format yields rows, they are the result and
    the event is left as it was. *)
Lemma extract_performance_rows event ctx prows :
  event_context event = Some ctx ->
  performance_rows ctx event = Some prows -> prows <> [] ->
  _extract_rows_from_event event = (event, Some prows)
  \/ _extract_rows_from_event event = (event, None).
Proof.
  intros Hctx Hrows Hne.
  unfold _extract_rows_from_event, mbind, option_bind.
  rewrite Hctx, Hrows.
  destruct (candidate event InMeta); [|by right].
  destruct (candidate event AtTop); [|by right].
  destruct (candidate event InResults); [|by right].
  left. by destruct prows.
Qed.

End ExtractFacts.

Section SentinelClaim.
Import Py Sportspress ExtractSpec.

(** The claim C7 as stated fails on the boxscore fallback: a row whose
    id is ["0"] is returned, in the list format and in the
    home/away format. *)
Lemma boxscore_sentinel_row_is_returned :
  (exists r,
      (@_extract_rows_from_event Example.runtime boxscore_list_event).2
      = Some [r]
      /\ EventPlayerRow.name r = "Header"
      /\ EventPlayerRow.player_id r = Some 0%Z)
  /\ (exists r,
        (@_extract_rows_from_event Example.runtime boxscore_sides_event).2
        = Some [r]
        /\ EventPlayerRow.name r = "Header"
        /\ EventPlayerRow.player_id r = Some 0%Z).
Proof.
  split; eexists; (split; [vm_compute; reflexivity | split; reflexivity]).
Qed.

(** C7, amended: in the nested team/player/stat performance map the
    entries under the key ["0"], at the team level and at the player
    level, yield no row and raise nothing, and every row that
    [_extract_rows_from_event] returns from that format was built from
    a player entry whose team key and player key are not ["0"].  (The
    boxscore fallback has no such check.) *)
Theorem performance_sentinel_is_skipped :
  forall (rt : Runtime) (event : json) (rows : list EventPlayerRow.t),
    (forall ctx team_id player_stats,
        perf_player ctx team_id ("0", player_stats) = Some [])
    /\ (forall ctx team_performance,
          perf_team ctx ("0", team_performance) = Some [])
    /\ (forall ctx prows,
          (_extract_rows_from_event event).2 = Some rows ->
          event_context event = Some ctx ->
          performance_rows ctx event = Some prows ->
          prows <> [] ->
          rows = prows
          /\ forall r, In r rows ->
               exists performance team_id player_id,
                 get event "performance" JNull = Some (JDict performance)
                 /\ from_entry performance team_id player_id r
                 /\ team_id <> "0" /\ player_id <> "0").
Proof.
  intros rt event rows. split; [|split].
  - intros. apply perf_player_sentinel.
  - intros. apply perf_team_sentinel.
  - intros ctx prows Hex Hctx Hrows Hne.
    destruct (extract_performance_rows _ _ _ Hctx Hrows Hne) as [H|H];
      rewrite H in Hex; simpl in Hex; [|discriminate].
    injection Hex as <-. split; [done|].
    intros r Hr. by eapply performance_rows_origin.
Qed.

Lemma performance_sentinel_is_skipped_witness :
  (@_extract_rows_from_event Example.runtime performance_event).2
  = Some performance_event_rows
  /\ forall r, In r performance_event_rows ->
       exists performance team_id player_id,
         get performance_event "performance" JNull
         = Some (JDict performance)
         /\ from_entry performance team_id player_id r
         /\ team_id <> "0" /\ player_id <> "0".
Proof.
  split; [vm_compute; reflexivity|].
  destruct (performance_sentinel_is_skipped Example.runtime performance_event
              performance_event_rows) as (_ & _ & H).
  apply (H performance_event_context performance_event_rows).
  - vm_compute. reflexivity.
  - vm_compute. reflexivity.
  - vm_compute. reflexivity.
  - discriminate.
Defined.

End SentinelClaim.

Section FrameFacts.
Import Py Sportspress ExtractSpec.
Context {rt : Runtime}.

Lemma dict_set_same d k v : dict_get d k = Some v -> dict_set d k v = d.
Proof.
  induction d as [|[k' v'] d IH]; simpl; [discriminate|].
  destruct (String.eqb k' k); [by intros [= ->] | intros H; by rewrite IH].
Qed.

Lemma unwritten_dict_set d k v :
  is_written k = true -> unwritten (JDict (dict_set d k v)) = unwritten (JDict d).
Proof.
  intros Hk. simpl. f_equal.
  induction d as [|[k' v'] d IH]; simpl.
  - by rewrite Hk.
  - destruct (String.eqb_spec k' k) as [->|Hne]; simpl.
    + by rewrite Hk.
    + by rewrite IH.
Qed.

Lemma frames_ret {A} (a : A) : frames (ret a).
Proof. by intros d. Qed.

Lemma frames_eval {A} (o : option A) : frames (eval o).
Proof. by intros d. Qed.

Lemma frames_row_get k : frames (row_get k).
Proof. by intros d. Qed.

Lemma frames_row_self : frames row_self.
Proof. by intros d. Qed.

Lemma frames_row_set k v : is_written k = true -> frames (row_set k v).
Proof. intros Hk d. by apply unwritten_dict_set. Qed.

Lemma frames_bind {A B} (m : RowM A) (k : A -> RowM B) :
  frames m -> (forall a, frames (k a)) -> frames (bind m k).
Proof.
  intros Hm Hk d. unfold bind. specialize (Hm d).
  destruct (m d) as [d' [a|]].
  - etrans; [apply Hk | exact Hm].
  - exact Hm.
Qed.

Lemma frames_box_row ctx side : frames (box_row ctx side).
Proof.
  unfold box_row.
  repeat first
    [ apply frames_bind; [|intros ?]
    | apply frames_row_get | apply frames_row_self | apply frames_eval
    | apply frames_ret | apply frames_row_set; reflexivity
    | match goal with |- frames (if ?b then _ else _) => destruct b end ].
Qed.

Lemma visit_frame {B} (body : json -> json * option (list B)) l :
  (forall x, unwritten (body x).1 = unwritten x) ->
  map unwritten (visit body l).1 = map unwritten l.
Proof.
  intros Hbody. induction l as [|x l IH]; simpl; [done|].
  specialize (Hbody x). destruct (body x) as [x' [rows|]]; simpl in *.
  - destruct (visit body l) as [l' rest]. simpl in *. by rewrite Hbody, IH.
  - by rewrite Hbody.
Qed.

Lemma box_side_row_frame ctx side x :
  unwritten (box_side_row ctx side x).1 = unwritten x.
Proof.
  unfold box_side_row. destruct x as [| | | | | |d]; try done.
  pose proof (frames_box_row ctx side d) as H.
  by destruct (box_row ctx side d) as [d' r].
Qed.

Lemma box_list_row_frame ctx x :
  unwritten (box_list_row ctx x).1 = unwritten x.
Proof.
  unfold box_list_row. destruct x as [| | | | | |d]; try done.
  match goal with |- context [box_row ctx ?side d] =>
    pose proof (frames_box_row ctx side d) as H;
    by destruct (box_row ctx side d) as [d' r]
  end.
Qed.

Lemma visit_sides_frame ctx sides :
  map (fun sv : string * json => (sv.1, unwritten_rows sv.2))
      (visit_sides ctx sides).1
  = map (fun sv : string * json => (sv.1, unwritten_rows sv.2)) sides.
Proof.
  induction sides as [|[side player_rows] sides IH]; simpl; [done|].
  destruct player_rows as [| | | | |l|];
    try (destruct (visit_sides ctx sides) as [sides' rest]; simpl in *;
         by rewrite IH).
  pose proof (visit_frame (box_side_row ctx side) l
                (box_side_row_frame ctx side)) as Hl.
  destruct (visit (box_side_row ctx side) l) as [l' [rows|]]; simpl in *.
  - destruct (visit_sides ctx sides) as [sides' rest]. simpl in *.
    by rewrite Hl, IH.
  - by rewrite Hl.
Qed.

Lemma visit_boxscore_frame ctx boxscore :
  unwritten_boxscore (visit_boxscore ctx boxscore).1
  = unwritten_boxscore boxscore.
Proof.
  unfold visit_boxscore. destruct boxscore as [| | | | |l|sides]; try done.
  - pose proof (visit_frame (box_list_row ctx) l (box_list_row_frame ctx)).
    destruct (visit (box_list_row ctx) l) as [l' r]. simpl in *. by f_equal.
  - pose proof (visit_sides_frame ctx sides).
    destruct (visit_sides ctx sides) as [sides' r]. simpl in *. by f_equal.
Qed.

End FrameFacts.

Section PurityClaim.
Import Py Sportspress ExtractSpec.

Lemma get_truthy_dict x k dflt v :
  get x k dflt = Some v -> truthy v = true -> truthy dflt = false ->
  exists d, x = JDict d /\ dict_get d k = Some v.
Proof.
  unfold get. destruct x as [| | | | | |d]; try discriminate.
  intros [= <-] Hv Hd. exists d. split; [done|].
  destruct (dict_get d k) as [v|]; [done|]. simpl in Hv. congruence.
Qed.

(** Putting a candidate back where it was found changes nothing. *)
Lemma with_candidate_same event p b :
  candidate event p = Some b -> truthy b = true ->
  with_candidate event p b = event.
Proof.
  intros Hc Hb. destruct p; simpl in Hc.
  - destruct (get event "meta" (JDict [])) as [m|] eqn:Hm; [|discriminate].
    simpl in Hc.
    destruct (get_truthy_dict _ _ _ _ Hc Hb eq_refl) as (md & -> & Hmd).
    destruct event as [| | | | | |e]; try discriminate.
    simpl in Hm. injection Hm as Hm. unfold with_candidate.
    destruct (dict_get e "meta") as [m|] eqn:He; simpl in Hm.
    + subst m. by rewrite (dict_set_same md), (dict_set_same e).
    + by subst.
  - destruct (get_truthy_dict _ _ _ _ Hc Hb eq_refl) as (e & -> & He).
    unfold with_candidate. by rewrite (dict_set_same e).
  - destruct (get event "results" (JDict [])) as [m|] eqn:Hm; [|discriminate].
    simpl in Hc.
    destruct (get_truthy_dict _ _ _ _ Hc Hb eq_refl) as (md & -> & Hmd).
    destruct event as [| | | | | |e]; try discriminate.
    simpl in Hm. injection Hm as Hm. unfold with_candidate.
    destruct (dict_get e "results") as [m|] eqn:He; simpl in Hm.
    + subst m. by rewrite (dict_set_same md), (dict_set_same e).
    + by subst.
Qed.

Lemma find_first_truthy event c0 c1 c2 p b :
  candidate event InMeta = Some c0 ->
  candidate event AtTop = Some c1 ->
  candidate event InResults = Some c2 ->
  List.find (fun pc : place * json => truthy pc.2)
            [(InMeta, c0); (AtTop, c1); (InResults, c2)] = Some (p, b) ->
  first_truthy event p b.
Proof.
  intros H0 H1 H2. cbn [List.find snd].
  destruct (truthy c0) eqn:T0; [|destruct (truthy c1) eqn:T1;
                                   [|destruct (truthy c2) eqn:T2]];
    intros [= <- <-]; (split; [done|]); (split; [done|]);
    intros [] Hq; try discriminate; by eexists.
Qed.

Lemma first_truthy_find event c0 c1 c2 p b :
  candidate event InMeta = Some c0 ->
  candidate event AtTop = Some c1 ->
  candidate event InResults = Some c2 ->
  first_truthy event p b ->
  List.find (fun pc : place * json => truthy pc.2)
            [(InMeta, c0); (AtTop, c1); (InResults, c2)] = Some (p, b).
Proof.
  intros H0 H1 H2 (Hc & Hb & Hfirst). cbn [List.find snd].
  destruct p.
  - assert (c0 = b) as -> by congruence. by rewrite Hb.
  - destruct (Hfirst InMeta eq_refl) as (c & Hc0 & Hf).
    assert (c = c0) as -> by congruence. rewrite Hf.
    assert (c1 = b) as -> by congruence. by rewrite Hb.
  - destruct (Hfirst InMeta eq_refl) as (c & Hc0 & Hf).
    assert (c = c0) as -> by congruence. rewrite Hf.
    destruct (Hfirst AtTop eq_refl) as (c' & Hc1 & Hf').
    assert (c' = c1) as -> by congruence. rewrite Hf'.
    assert (c2 = b) as -> by congruence. by rewrite Hb.
Qed.

(** The event after the call: as before, or with the first truthy
    boxscore candidate changed in the written keys of its rows. *)
Lemma extract_event_after {rt : Runtime} event :
  (_extract_rows_from_event event).1 = event
  \/ exists p b b',
       first_truthy event p b
       /\ (_extract_rows_from_event event).1 = with_candidate event p b'
       /\ unwritten_boxscore b' = unwritten_boxscore b.
Proof.
  unfold _extract_rows_from_event, mbind, option_bind.
  destruct (event_context event) as [ctx|]; [|by left].
  destruct (performance_rows ctx event) as [rows|]; [|by left].
  destruct (candidate event InMeta) as [c0|] eqn:H0; [|by left].
  destruct (candidate event AtTop) as [c1|] eqn:H1; [|by left].
  destruct (candidate event InResults) as [c2|] eqn:H2; [|by left].
  destruct rows; [|by left].
  destruct (List.find _ _) as [[p b]|] eqn:Hfind; [|by left].
  right. apply (find_first_truthy event c0 c1 c2 p b H0 H1 H2) in Hfind.
  pose proof (visit_boxscore_frame ctx b) as Hframe.
  destruct (visit_boxscore ctx b) as [b' r]. simpl in Hframe.
  by exists p, b, b'.
Qed.

(** When the performance map yields no row and every candidate can be
    read, the first truthy candidate is the one that is visited. *)
Lemma extract_visits_first_truthy {rt : Runtime} event ctx p b :
  event_context event = Some ctx ->
  performance_rows ctx event = Some [] ->
  (forall q, is_Some (candidate event q)) ->
  first_truthy event p b ->
  _extract_rows_from_event event
  = (with_candidate event p (visit_boxscore ctx b).1,
     (visit_boxscore ctx b).2).
Proof.
  intros Hctx Hrows Hall Hfirst.
  unfold _extract_rows_from_event, mbind, option_bind.
  rewrite Hctx, Hrows.
  destruct (Hall InMeta) as [c0 H0]. destruct (Hall AtTop) as [c1 H1].
  destruct (Hall InResults) as [c2 H2]. rewrite H0, H1, H2.
  rewrite (first_truthy_find event c0 c1 c2 p b H0 H1 H2 Hfirst).
  by destruct (visit_boxscore ctx b).
Qed.

(** The claim C8 as stated fails: the call writes into the row dict of
    the boxscore. *)
Lemma extract_writes_into_boxscore_rows :
  (@_extract_rows_from_event Example.runtime boxscore_list_event).1
  = JDict [("boxscore",
            JList [JDict [ ("id", JStr "0"); ("name", JStr "Header");
                           ("pts", JStr "5"); ("player_id", JInt 0);
                           ("team_id", JNull); ("opp_team_id", JNull) ]])]
  /\ (@_extract_rows_from_event Example.runtime boxscore_list_event).1
     <> boxscore_list_event.
Proof.
  split; [vm_compute; reflexivity|]. vm_compute. discriminate.
Qed.

(** C8, amended: [_extract_rows_from_event] leaves the event unchanged
    when it returns rows of the performance map.  When the performance
    map yields no row, the boxscore candidates are tried in the order
    [meta.boxscore], [boxscore], [results.boxscore], and the first
    truthy one is visited: the event after the call differs from the
    event before it in that candidate only, and there only in the keys
    [player_id], [team_id] and [opp_team_id] of the row dicts; a
    candidate after the first truthy one is not touched.  In every
    case the event is as before or changed in this way. *)
Theorem extract_changes_only_written_keys :
  forall (rt : Runtime) (event : json),
    (forall ctx prows,
        event_context event = Some ctx ->
        performance_rows ctx event = Some prows ->
        prows <> [] ->
        (_extract_rows_from_event event).1 = event)
    /\ (forall ctx p b,
          event_context event = Some ctx ->
          performance_rows ctx event = Some [] ->
          (forall q, is_Some (candidate event q)) ->
          first_truthy event p b ->
          (_extract_rows_from_event event).1
          = with_candidate event p (visit_boxscore ctx b).1
          /\ with_candidate event p b = event
          /\ unwritten_boxscore (visit_boxscore ctx b).1
             = unwritten_boxscore b)
    /\ ((_extract_rows_from_event event).1 = event
        \/ exists p b b',
             first_truthy event p b
             /\ with_candidate event p b = event
             /\ (_extract_rows_from_event event).1 = with_candidate event p b'
             /\ unwritten_boxscore b' = unwritten_boxscore b).
Proof.
  intros rt event. split; [|split].
  - intros ctx prows Hctx Hrows Hne.
    by destruct (extract_performance_rows _ _ _ Hctx Hrows Hne) as [->| ->].
  - intros ctx p b Hctx Hrows Hall Hfirst.
    rewrite (extract_visits_first_truthy event ctx p b Hctx Hrows Hall Hfirst).
    split; [done|]. split; [|apply visit_boxscore_frame].
    destruct Hfirst as (Hc & Hb & _). by apply with_candidate_same.
  - destruct (extract_event_after event)
      as [H|(p & b & b' & Hfirst & He & Hu)]; [by left|].
    right. exists p, b, b'. split; [done|]. split; [|done].
    destruct Hfirst as (Hc & Hb & _). by apply with_candidate_same.
Qed.

Lemma extract_changes_only_written_keys_witness :
  (@_extract_rows_from_event Example.runtime two_boxscores_event).1
  = JDict [ ("meta",
             JDict [("boxscore",
                     JList [JDict [ ("name", JStr "Ann"); ("pts", JStr "5");
                                    ("team_id", JNull);
                                    ("opp_team_id", JNull) ]])]);
            ("boxscore", JList [plain_row "Bob"]) ].
Proof.
  destruct (extract_changes_only_written_keys Example.runtime
              two_boxscores_event) as (_ & H & _).
  destruct (H (mkContext (JList []) "Team A" "Team B" "" (JStr ""))
              InMeta (JList [plain_row "Ann"])) as (Hafter & _).
  - vm_compute. reflexivity.
  - vm_compute. reflexivity.
  - intros []; vm_compute; by eexists.
  - split; [vm_compute; reflexivity|]. split; [reflexivity|].
    intros [] Hq; discriminate.
  - rewrite Hafter. vm_compute. reflexivity.
Defined.

End PurityClaim.

(** ** The scan of the events *)

Section ScanClaim.
Import Py Sportspress Records.










End ScanClaim.

(** * Properties of the further code *)

(** ** The milestone scan *)

Section ScanFacts.
Import Milestones MilestoneSpec Scan.

Lemma set_totals_keys totals k v x :
  In x (map fst (set_totals totals k v)) <-> x = k \/ In x (map fst totals).
Proof.
  induction totals as [|[k' v'] totals IH]; simpl; [intuition congruence|].
  destruct (Z.eqb_spec k' k) as [->|Hne]; simpl; [intuition congruence|].
  rewrite IH. intuition congruence.
Qed.

Lemma set_totals_NoDup totals k v :
  List.NoDup (map fst totals) -> List.NoDup (map fst (set_totals totals k v)).
Proof.
  induction totals as [|[k' v'] totals IH]; simpl; intros Hnd.
  - constructor; [intros [] | constructor].
  - apply List.NoDup_cons_iff in Hnd as [Hnot Hnd].
    destruct (Z.eqb_spec k' k) as [->|Hne]; simpl.
    + by constructor.
    + constructor; [|by apply IH].
      rewrite set_totals_keys. intros [->|H]; done.
Qed.

(** The dict of current totals has distinct keys. *)
Lemma current_totals_NoDup fetched :
  List.NoDup (map fst (get_current_season_totals fetched)).
Proof.
  destruct fetched as [players|]; simpl; [|constructor].
  assert (H : forall totals : list (Z * PlayerTotals),
             List.NoDup (map fst totals) ->
             List.NoDup
               (map fst (fold_left
                           (fun totals p =>
                              set_totals totals (Leaders.id p) (totals_of p))
                           players totals))).
  { induction players as [|p players IH]; intros totals Hnd; [done|].
    simpl. apply IH. by apply set_totals_NoDup. }
  apply H. constructor.
Qed.

Lemma updated_last_totals_fold cur ns last sent :
  (update_milestone_state cur ns last sent).1 = fold_left store_totals cur last.
Proof.
  unfold update_milestone_state. simpl. clear ns sent. revert last.
  induction cur as [|[pid pt] cur IH]; intros last; [done|]. apply IH.
Qed.

Lemma store_totals_other cur m key :
  ~ In key (map (fun e : Z * PlayerTotals => str_of_int e.1) cur) ->
  fold_left store_totals cur m !! key = m !! key.
Proof.
  revert m. induction cur as [|e cur IH]; intros m Hnot; [done|].
  simpl in *. rewrite IH by tauto. unfold store_totals.
  rewrite lookup_insert_ne; [done | tauto].
Qed.

(** After the update the baseline of every current player is the
    current totals. *)
Lemma store_totals_lookup cur m pid pt :
  List.NoDup (map fst cur) -> In (pid, pt) cur ->
  fold_left store_totals cur m !! str_of_int pid = Some (totals_dict pt).
Proof.
  revert m. induction cur as [|[p0 t0] cur IH]; intros m Hnd Hin; [done|].
  simpl in *. apply List.NoDup_cons_iff in Hnd as [Hnot Hnd].
  destruct Hin as [[= -> ->]|Hin]; [|by apply IH].
  rewrite store_totals_other.
  - unfold store_totals. simpl. apply lookup_insert_eq.
  - intros Hin. apply Hnot. apply in_map_iff in Hin as [[p1 t1] [Heq Hin]].
    simpl in Heq. apply (inj pretty) in Heq. subst p1.
    apply in_map_iff. by exists (pid, t1).
Qed.

Lemma store_totals_fixed cur m :
  (forall pid pt, In (pid, pt) cur ->
                  m !! str_of_int pid = Some (totals_dict pt)) ->
  fold_left store_totals cur m = m.
Proof.
  induction cur as [|[pid pt] cur IH]; intros H; [done|].
  simpl. unfold store_totals at 2. simpl.
  rewrite insert_id by (apply H; by left).
  apply IH. intros pid' pt' Hin. apply H. by right.
Qed.

Lemma totals_dict_lookup pt s ths :
  In (s, ths) MILESTONES -> totals_dict pt !! s = Some (getattr_totals pt s).
Proof.
  intros Hin. simpl in Hin.
  repeat (destruct Hin as [[= <- <-]|Hin]; [reflexivity|]). destruct Hin.
Qed.

(** No threshold lies in [(v, v]]. *)
Lemma no_crossing_when_unchanged v ths :
  _get_crossed_thresholds v v ths = [].
Proof.
  unfold _get_crossed_thresholds. apply filter_nil_iff. intros t _.
  destruct (Qlt_bool v (inject_Z t)) eqn:Hlt; [|done]. simpl.
  apply Qlt_bool_iff in Hlt. apply not_true_iff_false.
  rewrite Qle_bool_iff. lra.
Qed.

(** Detection against a baseline that holds the current totals is
    silent, whatever has been announced. *)
Lemma detect_silent_on_current_baseline cur last sent :
  (forall pid pt, In (pid, pt) cur ->
                  last !! str_of_int pid = Some (totals_dict pt)) ->
  detect_milestone_crossings cur last sent = [].
Proof.
  intros Hbase. unfold detect_milestone_crossings.
  apply flat_map_nil_iff. intros [pid pt] He.
  rewrite player_crossings_unfold, (Hbase pid pt He).
  change (default ∅ (Some (totals_dict pt))) with (totals_dict pt).
  apply flat_map_nil_iff. intros [s ths] Hst.
  unfold stat_crossings, new_thresholds. simpl.
  rewrite (totals_dict_lookup pt s ths Hst). simpl.
  by rewrite no_crossing_when_unchanged.
Qed.

End ScanFacts.

Section ScanProperties.
Import Milestones MilestoneSpec Scan.

Lemma update_without_notifications cur l s :
  update_milestone_state cur [] l s = (fold_left store_totals cur l, s).
Proof.
  rewrite <- (updated_last_totals_fold cur [] l s). reflexivity.
Qed.

Lemma detect_and_update_twice cur last sent :
  List.NoDup (map fst cur) ->
  detect_and_update cur (detect_and_update cur last sent).2.1
                    (detect_and_update cur last sent).2.2
  = ([], (detect_and_update cur last sent).2).
Proof.
  intros Hnd. unfold detect_and_update at 1.
  set (r := detect_and_update cur last sent).
  assert (Hbase : forall pid pt, In (pid, pt) cur ->
            r.2.1 !! str_of_int pid = Some (totals_dict pt)).
  { intros pid pt Hin. unfold r, detect_and_update. cbn [fst snd].
    rewrite updated_last_totals_fold. by apply store_totals_lookup. }
  rewrite (detect_silent_on_current_baseline cur _ _ Hbase).
  rewrite update_without_notifications, (store_totals_fixed _ _ Hbase).
  by destruct r as [ns [l s]].
Qed.

(** X1: a milestone scan fed with the state that the previous scan of
    the same fetched players returned emits no notification and
    returns that state unchanged. *)
Theorem scan_twice_is_silent :
  forall (fetched : option (list Leaders.PlayerStats))
         (last_totals : gmap string (gmap string Q))
         (milestones_sent : gmap string (gmap string (list Z))),
    let first := scan_and_detect_crossings fetched last_totals milestones_sent in
    scan_and_detect_crossings fetched first.2.1 first.2.2 = ([], first.2).
Proof.
  intros fetched last sent. unfold scan_and_detect_crossings.
  pose proof (current_totals_NoDup fetched) as Hnd.
  destruct (get_current_season_totals fetched) as [|e cur]; [done|].
  by apply detect_and_update_twice.
Qed.

Lemma sent_under_fold ns m key s :
  sent_under (fold_left record_sent ns m) key s
  = (sent_under m key s
     ++ map threshold
          (List.filter (fun n => String.eqb (player n) key
                                 && String.eqb (stat n) s) ns))%list.
Proof.
  revert m. induction ns as [|n ns IH]; intros m; simpl.
  - by rewrite app_nil_r.
  - rewrite IH, sent_under_record_sent.
    destruct (String.eqb_spec (player n) key) as [<-|Hk];
      destruct (String.eqb_spec (stat n) s) as [<-|Hs]; simpl.
    + rewrite decide_True by done. by rewrite <- app_assoc.
    + rewrite decide_False; [done | intros [_ ?]; congruence].
    + rewrite decide_False; [done | intros [? _]; congruence].
    + rewrite decide_False; [done | intros [? _]; congruence].
Qed.

(** X2: [update_milestone_state] removes nothing.  Every key of
    [last_totals] is kept, and the announced list stored under a key
    and a statistic becomes the old list followed by the thresholds of
    the notifications whose player name is that key, for that
    statistic, in order. *)
Theorem update_milestone_state_appends :
  forall (current_totals : list (Z * PlayerTotals))
         (notifications : list MilestoneNotification)
         (last_totals : gmap string (gmap string Q))
         (milestones_sent : gmap string (gmap string (list Z)))
         (key s : string),
    let updated :=
      update_milestone_state current_totals notifications
                             last_totals milestones_sent in
    (is_Some (last_totals !! key) -> is_Some (updated.1 !! key))
    /\ sent_under updated.2 key s
       = (sent_under milestones_sent key s
          ++ map threshold
               (List.filter (fun n => String.eqb (player n) key
                                      && String.eqb (stat n) s)
                            notifications))%list.
Proof.
  intros cur ns last sent key s updated. split.
  - unfold updated. rewrite updated_last_totals_fold. clear.
    revert last. induction cur as [|e cur IH]; intros last Hk; [done|].
    simpl. apply IH. unfold store_totals.
    destruct (decide (str_of_int e.1 = key)) as [<-|Hne].
    + rewrite lookup_insert_eq. by eexists.
    + by rewrite lookup_insert_ne.
  - unfold updated, update_milestone_state. simpl.
    rewrite update_sent_fold. apply sent_under_fold.
Qed.

Lemma update_milestone_state_appends_witness :
  is_Some ((update_milestone_state [(7%Z, alice)]
              [mkNotification "Alice" "points" 125 100] stale_last ∅).1
           !! "5").
Proof.
  apply (update_milestone_state_appends [(7%Z, alice)]
           [mkNotification "Alice" "points" 125 100] stale_last ∅ "5" "points").
  vm_compute. by eexists.
Defined.

(** X3: after [update_milestone_state] the stored baseline of every
    current player is the current total of each tracked statistic,
    whether or not a notification was emitted; the entries of other
    keys are the old ones. *)
Theorem update_stores_current_totals :
  forall (current_totals : list (Z * PlayerTotals))
         (notifications : list MilestoneNotification)
         (last_totals : gmap string (gmap string Q))
         (milestones_sent : gmap string (gmap string (list Z))),
    List.NoDup (map fst current_totals) ->
    let updated :=
      update_milestone_state current_totals notifications
                             last_totals milestones_sent in
    (forall pid pt s ths,
        In (pid, pt) current_totals -> In (s, ths) MILESTONES ->
        previous_value updated.1 pid s = getattr_totals pt s)
    /\ (forall key,
          ~ In key (map (fun e : Z * PlayerTotals => str_of_int e.1)
                        current_totals) ->
          updated.1 !! key = last_totals !! key).
Proof.
  intros cur ns last sent Hnd updated. unfold updated.
  rewrite updated_last_totals_fold. split.
  - intros pid pt s ths Hin Hs. unfold previous_value.
    rewrite (store_totals_lookup cur last pid pt Hnd Hin). simpl.
    by rewrite (totals_dict_lookup pt s ths Hs).
  - intros key Hkey. by apply store_totals_other.
Qed.

Lemma update_stores_current_totals_witness :
  previous_value
    (update_milestone_state [(7%Z, alice)] [] stale_last ∅).1 7 "points"
  = 125%Q.
Proof.
  destruct (update_stores_current_totals [(7%Z, alice)] [] stale_last ∅)
    as [H _].
  - repeat constructor. intros [].
  - apply (H 7%Z alice "points" [100; 250; 500; 750; 1000; 1500; 2000]%Z).
    + by left.
    + by left.
Defined.

End ScanProperties.

(** ** Snapshots of leaders *)

Section SnapshotProperties.
Import Leaders LeaderBoard CareerSpec.

Lemma tuples_eqb_iff a b :
  tuples_eqb a b = true
  <-> Forall2 (fun x y : string * Q => x.1 = y.1 /\ (x.2 == y.2)%Q) a b.
Proof.
  revert b. induction a as [|x a IH]; intros [|y b]; simpl.
  - split; [constructor | done].
  - split; [discriminate | inversion 1].
  - split; [discriminate | inversion 1].
  - rewrite !andb_true_iff, String.eqb_eq, Qeq_bool_iff, IH. split.
    + intros [[H1 H2] H3]. by constructor.
    + inversion 1; subst. tauto.
Qed.

Lemma top3_same current previous :
  Forall2 (fun x y : string * Q => x.1 = y.1 /\ (x.2 == y.2)%Q)
          (top3 current) (top3 previous)
  <-> Forall2 same_entry (firstn 3 current) (firstn 3 previous).
Proof.
  unfold top3. generalize (firstn 3 current) (firstn 3 previous).
  intros a. induction a as [|x a IH]; intros [|y b]; simpl.
  - split; constructor.
  - split; inversion 1.
  - split; inversion 1.
  - split; inversion 1; subst; constructor; try done; by apply IH.
Qed.

(** X4: [leaders_changed] gives one answer per tracked statistic, in
    order, and the answer for a statistic is [False] exactly when the
    first three entries of the two snapshots have the same names and
    equal values, position by position; entries after the third are
    not looked at. *)
Theorem leaders_changed_compares_top3 :
  forall (current previous : LeadersData),
    map fst (leaders_changed current previous) = tracked_stats
    /\ (forall s,
          In (s, false) (leaders_changed current previous)
          <-> Forall2 same_entry (firstn 3 (getattr_leaders current s))
                                 (firstn 3 (getattr_leaders previous s)))
    /\ (forall s,
          In (s, true) (leaders_changed current previous)
          <-> ~ Forall2 same_entry (firstn 3 (getattr_leaders current s))
                                   (firstn 3 (getattr_leaders previous s))).
Proof.
  intros current previous. split; [reflexivity|].
  assert (Hin : forall s b,
            In (s, b) (leaders_changed current previous)
            <-> b = negb (tuples_eqb (top3 (getattr_leaders current s))
                                     (top3 (getattr_leaders previous s)))).
  { intros s b. unfold leaders_changed. rewrite in_map_iff. split.
    - by intros [s' [[= <- <-] _]].
    - intros ->. exists s. split; [done|]. destruct s; simpl; tauto. }
  split; intros s; rewrite Hin, <- top3_same, <- tuples_eqb_iff;
    destruct (tuples_eqb _ _); simpl; split; try done; intros H; by destruct H.
Qed.

Lemma leaders_changed_compares_top3_witness :
  In (Points, false)
     (leaders_changed
        (mkLeadersData
           [mkLeaderEntry "A" 30; mkLeaderEntry "B" 30; mkLeaderEntry "C" 25;
            mkLeaderEntry "D" 20] [] [] [] [] [])
        (mkLeadersData
           [mkLeaderEntry "A" 30; mkLeaderEntry "B" 30; mkLeaderEntry "C" 25;
            mkLeaderEntry "E" 24] [] [] [] [] [])).
Proof.
  apply leaders_changed_compares_top3. simpl.
  repeat constructor.
Defined.

End SnapshotProperties.

(** ** Career totals *)

Section AggregateValues.
Import Leaders Career CareerSpec.
Context (fadd : Q -> Q -> Q).
Local Set Warnings "-clear-no-such-hyp".

Lemma upsert_keys agg p x :
  In x (map fst (upsert fadd agg p)) <-> x = id p \/ In x (map fst agg).
Proof.
  induction agg as [|[k e] agg IH]; simpl; [intuition congruence|].
  destruct (Z.eqb_spec k (id p)) as [->|Hne]; simpl; [intuition congruence|].
  rewrite IH. intuition congruence.
Qed.

Lemma upsert_NoDup agg p :
  List.NoDup (map fst agg) -> List.NoDup (map fst (upsert fadd agg p)).
Proof.
  induction agg as [|[k e] agg IH]; simpl; intros Hnd.
  - constructor; [intros [] | constructor].
  - apply List.NoDup_cons_iff in Hnd as [Hnot Hnd].
    destruct (Z.eqb_spec k (id p)) as [->|Hne]; simpl.
    + by constructor.
    + constructor; [|by apply IH].
      rewrite upsert_keys. intros [->|H]; done.
Qed.

(** The entries of the dict after one more player. *)
Lemma upsert_In agg p k a :
  List.NoDup (map fst agg) ->
  In (k, a) (upsert fadd agg p)
  <-> (k <> id p /\ In (k, a) agg)
      \/ (k = id p
          /\ ((exists e, In (k, e) agg /\ a = accumulate fadd e p)
              \/ (~ In k (map fst agg) /\ a = p))).
Proof.
  induction agg as [|[k' e] agg IH]; simpl; intros Hnd.
  - naive_solver.
  - apply List.NoDup_cons_iff in Hnd as [Hnot Hnd]. specialize (IH Hnd).
    assert (Hkeys : forall x v, In (x, v) agg -> In x (map fst agg)).
    { intros x v Hin. apply in_map_iff. by exists (x, v). }
    destruct (Z.eqb_spec k' (id p)) as [->|Hne]; simpl; [|rewrite IH];
      naive_solver.
Qed.

Lemma aggregate_values_snoc l p :
  aggregate_values fadd (l ++ [p])
  = upsert fadd (aggregate_values fadd l) p.
Proof. unfold aggregate_values. by rewrite fold_left_app. Qed.

Lemma aggregate_values_NoDup l :
  List.NoDup (map fst (aggregate_values fadd l)).
Proof.
  induction l as [|p l IH] using rev_ind; [constructor|].
  rewrite aggregate_values_snoc. by apply upsert_NoDup.
Qed.

Lemma entries_of_snoc k l p :
  entries_of k (l ++ [p])
  = (entries_of k l ++ if (id p =? k)%Z then [p] else [])%list.
Proof. unfold entries_of. by rewrite List.filter_app. Qed.

(** The dict holds, for each id, the accumulation of the entries of
    that id in order. *)
Lemma aggregate_values_In l k a :
  In (k, a) (aggregate_values fadd l)
  <-> exists first rest,
        entries_of k l = first :: rest
        /\ a = fold_left (accumulate fadd) rest first.
Proof.
  revert k a. induction l as [|p l IH] using rev_ind; intros k a.
  - simpl. split; [intros [] | intros (f & r & H & _); discriminate].
  - rewrite aggregate_values_snoc, upsert_In by apply aggregate_values_NoDup.
    rewrite entries_of_snoc. split.
    + intros [[Hk Hin]|[-> [[e [Hin ->]]|[Hno ->]]]].
      * apply IH in Hin as (f & r & He & ->).
        destruct (Z.eqb_spec (id p) k); [congruence|].
        exists f, r. by rewrite app_nil_r.
      * apply IH in Hin as (f & r & He & ->).
        rewrite Z.eqb_refl, He. exists f, (r ++ [p])%list.
        split; [done|]. by rewrite fold_left_app.
      * rewrite Z.eqb_refl.
        destruct (entries_of (id p) l) as [|f r] eqn:He.
        -- by exists p, [].
        -- exfalso. apply Hno. apply in_map_iff.
           exists (id p, fold_left (accumulate fadd) r f). split; [done|].
           apply IH. by exists f, r.
    + intros (f & r & He & ->).
      destruct (Z.eqb_spec (id p) k) as [<-|Hne].
      * right. split; [done|].
        destruct (entries_of (id p) l) as [|f0 r0] eqn:He0.
        -- right. simpl in He. injection He as <- <-. split; [|done].
           intros Hin. apply in_map_iff in Hin as [[k e] [Hk Hin]].
           simpl in Hk. subst k. apply IH in Hin as (f' & r' & He' & _).
           congruence.
        -- left. simpl in He. injection He as <- <-.
           exists (fold_left (accumulate fadd) r0 f0). split.
           ++ apply IH. by exists f0, r0.
           ++ by rewrite fold_left_app.
      * left. split; [done|]. rewrite app_nil_r in He.
        apply IH. by exists f, r.
Qed.

End AggregateValues.

Section AggregateStore.
Import Leaders Career CareerSpec.
Context (fadd : Q -> Q -> Q).
Local Set Warnings "-clear-no-such-hyp".

Lemma lookup_ref_None aggregated k :
  lookup_ref aggregated k = None <-> ~ In k (map fst aggregated).
Proof.
  induction aggregated as [|[k' r] aggregated IH]; simpl; [tauto|].
  destruct (Z.eqb_spec k' k) as [->|Hne]; [naive_solver|].
  rewrite IH. naive_solver.
Qed.

Lemma lookup_ref_Some aggregated k r :
  lookup_ref aggregated k = Some r -> In (k, r) aggregated.
Proof.
  induction aggregated as [|[k' r'] aggregated IH]; simpl; [discriminate|].
  destruct (Z.eqb_spec k' k) as [->|Hne]; [intros [= ->]; by left|].
  intros H. right. by apply IH.
Qed.

Lemma points_at_append store aggregated values p i :
  Forall2 (points_at store) aggregated values ->
  lookup_ref aggregated (id p) = None ->
  store !! i = Some p ->
  Forall2 (points_at store) (aggregated ++ [(id p, i)])
          (upsert fadd values p).
Proof.
  induction 1 as [|[k r] [k' e] aggregated values [Hk Hr] Hrest IH]; simpl.
  - intros _ Hi. by repeat constructor.
  - simpl in Hk. subst k'.
    destruct (Z.eqb_spec k (id p)) as [->|Hne]; [discriminate|].
    intros Hnone Hi. constructor; [done | by apply IH].
Qed.

Lemma points_at_alter_other store aggregated values f r :
  Forall2 (points_at store) aggregated values ->
  ~ In r (map snd aggregated) ->
  Forall2 (points_at (alter f r store)) aggregated values.
Proof.
  induction 1 as [|[k r'] [k' e] aggregated values [Hk Hr] Hrest IH]; simpl;
    intros Hnot; constructor.
  - split; [done|]. simpl in *.
    rewrite list_lookup_alter_ne; [done | intros ->; apply Hnot; by left].
  - apply IH. simpl in Hnot. tauto.
Qed.

Lemma points_at_accumulate store aggregated values p r :
  Forall2 (points_at store) aggregated values ->
  List.NoDup (map snd aggregated) ->
  lookup_ref aggregated (id p) = Some r ->
  Forall2 (points_at (alter (fun existing => accumulate fadd existing p)
                            r store))
          aggregated (upsert fadd values p).
Proof.
  induction 1 as [|[k r'] [k' e] aggregated values [Hk Hr] Hrest IH]; simpl;
    [discriminate|].
  intros Hnd. apply List.NoDup_cons_iff in Hnd as [Hnot Hnd].
  simpl in Hk. subst k'.
  destruct (Z.eqb_spec k (id p)) as [->|Hne].
  - intros [= ->]. constructor.
    + split; [done|]. simpl in *. by rewrite list_lookup_alter_eq, Hr.
    + by apply points_at_alter_other.
  - intros Hlook. constructor; [|by apply IH].
    split; [done|]. simpl in *. rewrite list_lookup_alter_ne; [done|].
    intros Heq. apply Hnot. apply lookup_ref_Some in Hlook.
    apply in_map_iff. exists (id p, r). split; [simpl; congruence | done].
Qed.

Lemma visit_player_inv orig i st :
  store_inv fadd orig i st -> (i < length orig)%nat ->
  store_inv fadd orig (S i) (visit_player fadd st i).
Proof.
  destruct st as [store agg].
  unfold store_inv. cbn [fst snd].
  intros (Hlen & Hpts & Hnd & Hframe & Hrefs & Hseen) Hi.
  destruct (lookup_lt_is_Some_2 orig i Hi) as [p Hp].
  assert (Hfresh : ~ In i (map snd agg)).
  { intros Hin. apply in_map_iff in Hin as [[k r] [Hr Hin]]. simpl in Hr.
    subst r. apply Hrefs in Hin as [Hlt _]. lia. }
  assert (Hsi : store !! i = Some p) by (by rewrite Hframe).
  unfold visit_player. rewrite Hsi.
  rewrite (take_S_r orig i p Hp), aggregate_values_snoc.
  destruct (lookup_ref agg (id p)) as [r|] eqn:Hlook; cbn [fst snd].
  - pose proof (lookup_ref_Some _ _ _ Hlook) as Hin.
    split; [by rewrite length_alter|].
    split; [by apply points_at_accumulate|].
    split; [done|]. split; [|split].
    + intros j Hj. rewrite list_lookup_alter_ne; [by apply Hframe|].
      intros <-. apply Hj. apply in_map_iff. by exists (id p, r).
    + intros k r' Hin'. destruct (Hrefs k r' Hin') as (Hlt & Hq & Hfirst).
      split; [lia | done].
    + intros j q Hj Hq. destruct (decide (j = i)) as [->|Hne].
      * assert (q = p) by congruence. subst q.
        apply in_map_iff. by exists (id p, r).
      * apply (Hseen j q); [lia | done].
  - apply lookup_ref_None in Hlook.
    split; [done|]. split; [by apply points_at_append; [|apply lookup_ref_None|]|].
    split; [|split; [|split]].
    + rewrite map_app. apply List.NoDup_app; [done | |].
      * constructor; [intros [] | constructor].
      * intros a Ha [<-|[]]. done.
    + intros j Hj. apply Hframe. intros Hin. apply Hj.
      rewrite map_app. apply in_or_app. by left.
    + intros k r Hin. apply in_app_or in Hin as [Hin|[[= <- <-]|[]]].
      * destruct (Hrefs k r Hin) as (Hlt & Hq & Hfirst). split; [lia | done].
      * split; [lia|]. split; [by exists p|].
        intros j q Hj Hq Heq. apply Hlook. rewrite <- Heq.
        by apply (Hseen j q).
    + intros j q Hj Hq. rewrite map_app. apply in_or_app.
      destruct (decide (j = i)) as [->|Hne].
      * assert (q = p) by congruence. subst q. right. by left.
      * left. apply (Hseen j q); [lia | done].
Qed.

Lemma visit_players_inv orig m i st :
  store_inv fadd orig i st -> (i + m <= length orig)%nat ->
  store_inv fadd orig (i + m) (fold_left (visit_player fadd) (seq i m) st).
Proof.
  revert i st. induction m as [|m IH]; intros i st Hinv Hle; simpl.
  - by rewrite Nat.add_0_r.
  - replace (i + S m)%nat with (S i + m)%nat by lia.
    apply IH; [|lia]. apply visit_player_inv; [done | lia].
Qed.

Lemma aggregate_store_inv season_players :
  store_inv fadd (concat season_players) (length (concat season_players))
            (aggregate_store fadd season_players).
Proof.
  unfold aggregate_store.
  apply (visit_players_inv (concat season_players)
           (length (concat season_players)) 0); [|lia].
  unfold store_inv. cbn [fst snd take map aggregate_values fold_left].
  split; [done|]. split; [constructor|]. split; [constructor|].
  split; [done|]. split; [intros k r [] | intros j q Hj; lia].
Qed.

Lemma points_at_values store aggregated values :
  Forall2 (points_at store) aggregated values ->
  omap (fun kr : Z * nat => (fun p => (kr.1, p)) <$> store !! kr.2) aggregated
  = values.
Proof.
  induction 1 as [|[k r] [k' e] aggregated values [Hk Hr] Hrest IH]; [done|].
  cbn [fst snd] in Hk, Hr. subst k'.
  cbn [omap list_omap fst snd]. rewrite Hr. cbn. by rewrite IH.
Qed.

(** The returned dict is the dict built by value. *)
Lemma aggregate_player_stats_values season_players :
  aggregate_player_stats fadd season_players
  = aggregate_values fadd (concat season_players).
Proof.
  unfold aggregate_player_stats.
  pose proof (aggregate_store_inv season_players) as (_ & Hpts & _).
  rewrite firstn_all in Hpts.
  destruct (aggregate_store fadd season_players) as [store agg].
  by apply points_at_values.
Qed.

End AggregateStore.

Section AggregateFacts.
Import Leaders Career CareerSpec.
Context (fadd : Q -> Q -> Q).
Local Set Warnings "-clear-no-such-hyp".

Lemma last_cons_default {A} (x : A) l d d' :
  List.last (x :: l) d = List.last (x :: l) d'.
Proof.
  revert x. induction l as [|y l IH]; intros x; [done|].
  change (List.last (y :: l) d = List.last (y :: l) d'). apply IH.
Qed.

Lemma accumulate_fold_stat rest first s :
  getattr_stat (fold_left (accumulate fadd) rest first) s
  = fold_left fadd (map (fun p => getattr_stat p s) rest)
              (getattr_stat first s).
Proof.
  revert first. induction rest as [|p rest IH]; intros first; [done|].
  cbn [fold_left map]. rewrite IH. by destruct s.
Qed.

Lemma accumulate_fold_name rest first :
  name (fold_left (accumulate fadd) rest first)
  = name (List.last rest first).
Proof.
  revert first. induction rest as [|p rest IH]; intros first; [done|].
  cbn [fold_left]. rewrite IH. destruct rest as [|q rest]; [done|].
  f_equal.
  change (List.last (p :: q :: rest) first)
    with (List.last (q :: rest) first).
  apply last_cons_default.
Qed.

Lemma accumulate_fold_fixed rest first :
  let a := fold_left (accumulate fadd) rest first in
  id a = id first /\ fgm a = fgm first /\ fga a = fga first
  /\ threepm a = threepm first /\ threepa a = threepa first
  /\ fg_percent a = fg_percent first
  /\ threep_percent a = threep_percent first.
Proof.
  revert first. induction rest as [|p rest IH]; intros first; [done|].
  exact (IH (accumulate fadd first p)).
Qed.

Lemma entries_of_In k players p :
  In p (entries_of k players) <-> In p players /\ id p = k.
Proof.
  unfold entries_of. rewrite filter_In.
  split; intros [Hin Hk]; (split; [done|]); by apply Z.eqb_eq.
Qed.

Lemma aggregate_values_keys players k :
  In k (map fst (aggregate_values fadd players))
  <-> exists p, In p players /\ id p = k.
Proof.
  split.
  - intros Hin. apply in_map_iff in Hin as [[k' a] [Hk Hin]].
    simpl in Hk. subst k'.
    apply aggregate_values_In in Hin as (first & rest & Hent & _).
    exists first. apply entries_of_In. rewrite Hent. by left.
  - intros (p & Hin & Hk).
    assert (Hp : In p (entries_of k players)) by (by apply entries_of_In).
    destruct (entries_of k players) as [|first rest] eqn:Hent; [done|].
    apply in_map_iff.
    exists (k, fold_left (accumulate fadd) rest first). split; [done|].
    apply aggregate_values_In. by exists first, rest.
Qed.

(** X5: the dict returned by [aggregate_player_stats] binds a player id
    to exactly one object.  With [first] the player's entry of the
    earliest season and [rest] the later ones, each of the six totals
    of that object is [first]'s value with the values of [rest] added
    in season order, its name is the name of the most recent entry, and
    its shooting fields are those of [first]. *)
Theorem aggregate_player_stats_totals :
  forall (season_players : list (list PlayerStats)) (k : Z)
         (first : PlayerStats) (rest : list PlayerStats),
    entries_of k (concat season_players) = first :: rest ->
    exists a,
      (forall a', In (k, a') (aggregate_player_stats fadd season_players)
                  <-> a' = a)
      /\ id a = k
      /\ name a = name (List.last rest first)
      /\ (forall s,
            getattr_stat a s
            = fold_left fadd (map (fun p => getattr_stat p s) rest)
                        (getattr_stat first s))
      /\ fgm a = fgm first /\ fga a = fga first
      /\ threepm a = threepm first /\ threepa a = threepa first
      /\ fg_percent a = fg_percent first
      /\ threep_percent a = threep_percent first.
Proof.
  intros season_players k first rest Hent.
  exists (fold_left (accumulate fadd) rest first).
  pose proof (accumulate_fold_fixed rest first) as (Hid & Hfixed).
  assert (Hk : id first = k).
  { apply (entries_of_In k (concat season_players)). rewrite Hent. by left. }
  split; [|split; [congruence|split; [apply accumulate_fold_name|split]]].
  - intros a'. rewrite aggregate_player_stats_values, aggregate_values_In.
    split.
    + intros (first' & rest' & Hent' & ->). congruence.
    + intros ->. by exists first, rest.
  - intros s. apply accumulate_fold_stat.
  - exact Hfixed.
Qed.

End AggregateFacts.

Section AggregateExamples.
Import Leaders Career CareerSpec.

Lemma aggregate_player_stats_totals_witness :
  exists a,
    (forall a',
        In (1%Z, a') (aggregate_player_stats Qplus [season_one; season_two])
        <-> a' = a)
    /\ name a = "Ann"%string
    /\ getattr_stat a Points = (30 + 12)%Q.
Proof.
  destruct (aggregate_player_stats_totals Qplus
              [season_one; season_two] 1
              (mkPlayerStats 1 "Ann" 30 5 0 0 0 0 9 20 0 0 45 0)
              [mkPlayerStats 1 "Ann" 12 1 0 0 0 0 4 10 0 0 40 0])
    as (a & Hin & _ & Hname & Hstat & _); [reflexivity|].
  exists a. split; [exact Hin|]. split; [exact Hname | exact (Hstat Points)].
Defined.

End AggregateExamples.

Section AggregateObjects.
Import Leaders Career CareerSpec.
Context (fadd : Q -> Q -> Q) {tx : Py.Text}.
Local Set Warnings "-clear-no-such-hyp".

Lemma concat_reshape {A} (ls : list (list A)) (l : list A) :
  length l = length (concat ls) ->
  concat (reshape (map length ls) l) = l.
Proof.
  revert l. induction ls as [|x ls IH]; intros l Hlen.
  - by destruct l.
  - cbn [map reshape concat]. rewrite IH; [apply take_drop|].
    cbn [concat] in Hlen. rewrite length_app in Hlen.
    rewrite length_drop. lia.
Qed.

Lemma season_players_after_concat season_players :
  concat (season_players_after fadd season_players)
  = (aggregate_store fadd season_players).1.
Proof.
  unfold season_players_after. apply concat_reshape.
  by pose proof (aggregate_store_inv fadd season_players) as (Hlen & _).
Qed.

Lemma points_at_In store aggregated values k r :
  Forall2 (points_at store) aggregated values ->
  In (k, r) aggregated ->
  exists a, In (k, a) values /\ store !! r = Some a.
Proof.
  induction 1 as [|[k1 r1] [k2 e] aggregated values [Hk Hr] Hrest IH];
    [intros []|].
  cbn [fst snd] in Hk, Hr. subst k2.
  intros [[= -> ->]|Hin].
  - exists e. split; [by left | done].
  - destruct (IH Hin) as (a & Ha & Hs). exists a. split; [by right | done].
Qed.

Lemma earlier_ids_In players j k :
  In k (earlier_ids players j)
  <-> exists i q, (i < j)%nat /\ players !! i = Some q /\ id q = k.
Proof.
  unfold earlier_ids. rewrite in_map_iff. split.
  - intros (q & Hk & Hin). apply list_elem_of_In, elem_of_take in Hin
      as (i & Hq & Hi). by exists i, q.
  - intros (i & q & Hi & Hq & Hk). exists q. split; [done|].
    apply list_elem_of_In, elem_of_take. by exists i.
Qed.

Lemma aggregate_values_functional players k a a' :
  In (k, a) (aggregate_values fadd players) ->
  In (k, a') (aggregate_values fadd players) -> a = a'.
Proof.
  rewrite !aggregate_values_In.
  intros (f & r & He & ->) (f' & r' & He' & ->). congruence.
Qed.

(** X6: the keys of the dict returned by [aggregate_player_stats] are
    the ids of the players of all seasons, each id once. *)
Theorem aggregate_player_stats_keys :
  forall season_players : list (list PlayerStats),
    List.NoDup (map fst (aggregate_player_stats fadd season_players))
    /\ (forall k,
          In k (map fst (aggregate_player_stats fadd season_players))
          <-> exists season p,
                In season season_players /\ In p season /\ id p = k).
Proof.
  intros season_players. rewrite aggregate_player_stats_values.
  split; [apply aggregate_values_NoDup|].
  intros k. rewrite aggregate_values_keys. split.
  - intros (p & Hin & Hk). apply in_concat in Hin as (season & Hs & Hp).
    by exists season, p.
  - intros (season & p & Hs & Hp & Hk). exists p. split; [|done].
    apply in_concat. by exists season.
Qed.

(** X7: [aggregate_player_stats] changes the objects it was given.
    Once it has returned, a player object whose id occurred earlier in
    the seasons is as it was, and the first object of each id is the
    value the returned dict binds to that id: it carries the totals. *)
Theorem aggregate_player_stats_updates_first_object :
  forall (season_players : list (list PlayerStats)) (j : nat)
         (p : PlayerStats),
    concat season_players !! j = Some p ->
    (In (id p) (earlier_ids (concat season_players) j) ->
     concat (season_players_after fadd season_players) !! j = Some p)
    /\ (~ In (id p) (earlier_ids (concat season_players) j) ->
        forall a,
          In (id p, a) (aggregate_player_stats fadd season_players)
          <-> concat (season_players_after fadd season_players) !! j
              = Some a).
Proof.
  intros season_players j p Hp.
  rewrite season_players_after_concat, aggregate_player_stats_values.
  pose proof (aggregate_store_inv fadd season_players) as Hinv.
  set (orig := concat season_players) in *.
  destruct (aggregate_store fadd season_players) as [store agg].
  unfold store_inv in Hinv. cbn [fst snd] in *.
  destruct Hinv as (Hlen & Hpts & Hnd & Hframe & Hrefs & Hseen).
  rewrite firstn_all in Hpts.
  assert (Hj : (j < length orig)%nat) by (by eapply lookup_lt_Some).
  split.
  - intros Hearlier. rewrite Hframe; [done|].
    intros Hin. apply in_map_iff in Hin as [[k r] [Hr Hin]].
    cbn [snd] in Hr. subst r.
    destruct (Hrefs k j Hin) as (_ & (q & Hq & Hk) & Hfirst).
    assert (q = p) by congruence. subst q.
    apply earlier_ids_In in Hearlier as (i & q & Hi & Hq' & Hk').
    apply (Hfirst i q Hi Hq'). congruence.
  - intros Hnew.
    pose proof (Hseen j p Hj Hp) as Hkey.
    apply in_map_iff in Hkey as [[k r] [Hk Hin]]. cbn [fst] in Hk. subst k.
    destruct (Hrefs (id p) r Hin) as (_ & (q & Hq & Hqk) & Hfirst).
    assert (r = j) as ->.
    { destruct (Nat.lt_trichotomy r j) as [Hlt|[Heq|Hgt]]; [|done|].
      - exfalso. apply Hnew, earlier_ids_In. by exists r, q.
      - exfalso. by apply (Hfirst j p Hgt Hp). }
    destruct (points_at_In _ _ _ _ _ Hpts Hin) as (a0 & Ha0 & Hs0).
    intros a. split.
    + intros Ha. by rewrite (aggregate_values_functional _ _ _ _ Ha Ha0).
    + intros Hs. assert (a = a0) by congruence. by subst a.
Qed.

Lemma top_n_In players s n e :
  In e (top_n players s n) ->
  exists p, In p players
            /\ e = mkLeaderEntry (name p) (getattr_stat p s)
            /\ (0 < getattr_stat p s)%Q.
Proof.
  unfold top_n. intros He. apply in_map_iff in He as [x [<- Hx]].
  assert (Hin : In x (_stable_sort_leaders players s)).
  { unfold slice_to in Hx.
    destruct (n <? 0)%Z; by apply in_firstn in Hx. }
  apply (Permutation_in _ (sort_by_key_perm _)) in Hin.
  apply in_map_iff in Hin as [p [<- Hp]].
  apply filter_In in Hp as [Hp Hpos].
  exists p. split; [done|]. split; [done | by apply Qlt_bool_iff].
Qed.

Lemma getattr_leaders_of players n s :
  LeaderBoard.getattr_leaders (LeaderBoard.leaders_of players n) s
  = top_n players s n.
Proof. by destruct s. Qed.

(** X8: a season whose fetch failed counts as a season without
    players: the career leaders are those of the other seasons. *)
Theorem career_leaders_skip_failed_season :
  forall (before after : list (option (list PlayerStats))) (n : Z),
    top_n_career_leaders fadd (before ++ None :: after) n
    = top_n_career_leaders fadd (before ++ after) n.
Proof.
  intros before after n. unfold top_n_career_leaders.
  rewrite !aggregate_player_stats_values.
  by rewrite !map_app, !concat_app.
Qed.

(** X9: every entry of a career leaders list stands for one player id:
    its value is the player's total of that statistic over the fetched
    seasons, added in season order, its name is the name of the
    player's most recent entry, and the value is strictly positive. *)
Theorem career_leader_is_player_total :
  forall (fetched : list (option (list PlayerStats))) (n : Z) (s : Stat)
         (e : LeaderEntry),
    In e (LeaderBoard.getattr_leaders (top_n_career_leaders fadd fetched n) s) ->
    exists k first rest,
      entries_of k (concat (map (default []) fetched)) = first :: rest
      /\ entry_name e = name (List.last rest first)
      /\ entry_value e
         = fold_left fadd (map (fun p => getattr_stat p s) rest)
                     (getattr_stat first s)
      /\ (0 < entry_value e)%Q.
Proof.
  intros fetched n s e. unfold top_n_career_leaders.
  rewrite getattr_leaders_of, aggregate_player_stats_values.
  intros He. apply top_n_In in He as (a & Ha & -> & Hpos).
  apply in_map_iff in Ha as [[k a'] [Hk Ha]]. cbn [snd] in Hk. subst a'.
  apply aggregate_values_In in Ha as (first & rest & Hent & ->).
  exists k, first, rest. cbn [entry_name entry_value].
  split; [done|]. split; [apply accumulate_fold_name|].
  split; [apply accumulate_fold_stat | done].
Qed.

End AggregateObjects.

Section AggregateObjectExamples.
Import Leaders Career CareerSpec.

Lemma aggregate_player_stats_updates_first_object_witness :
  concat (season_players_after Qplus [season_one; season_two]) !! 3%nat
  = Some (mkPlayerStats 1 "Ann" 12 1 0 0 0 0 4 10 0 0 40 0)
  /\ (In (1%Z, mkPlayerStats 1 "Ann" (30 + 12) (5 + 1) (0 + 0) (0 + 0)
                             (0 + 0) (0 + 0) 9 20 0 0 45 0)
         (aggregate_player_stats Qplus [season_one; season_two])
      <-> concat (season_players_after Qplus [season_one; season_two]) !! 0%nat
          = Some (mkPlayerStats 1 "Ann" (30 + 12) (5 + 1) (0 + 0) (0 + 0)
                                (0 + 0) (0 + 0) 9 20 0 0 45 0)).
Proof.
  split.
  - destruct (aggregate_player_stats_updates_first_object Qplus
                [season_one; season_two] 3
                (mkPlayerStats 1 "Ann" 12 1 0 0 0 0 4 10 0 0 40 0))
      as [Hsame _]; [reflexivity|].
    apply Hsame. vm_compute. auto.
  - destruct (aggregate_player_stats_updates_first_object Qplus
                [season_one; season_two] 0
                (mkPlayerStats 1 "Ann" 30 5 0 0 0 0 9 20 0 0 45 0))
      as [_ Hfirst]; [reflexivity|].
    apply Hfirst. vm_compute. tauto.
Defined.

Lemma career_leader_is_player_total_witness :
  exists k first rest,
    entries_of k (concat [season_one; season_two]) = first :: rest
    /\ "Bobby"%string = name (List.last rest first)
    /\ (10 + 15)%Q
       = fold_left Qplus (map (fun p => getattr_stat p Points) rest)
                   (getattr_stat first Points)
    /\ (0 < 10 + 15)%Q.
Proof.
  apply (career_leader_is_player_total Qplus (tx := Example.text)
           [Some season_one; Some season_two] 3 Points
           (mkLeaderEntry "Bobby" (10 + 15))).
  vm_compute. tauto.
Defined.

End AggregateObjectExamples.

Section RowOrigin.
Import Py Sportspress RowSpec.
Context {rt : Runtime}.

Ltac bind_step :=
  match goal with
  | |- (?m ≫= _) = Some _ -> _ =>
      destruct m eqn:?; simpl; [|discriminate]
  end.

Lemma create_player_row_fields row side ta tb dt url r :
  _create_player_row row side ta tb dt url = Some r ->
  EventPlayerRow.threepm r = 0%Q
  /\ EventPlayerRow.threepa r = 0%Q
  /\ EventPlayerRow.date r = dt
  /\ EventPlayerRow.game_url r = (if truthy url then Some url else None)
  /\ EventPlayerRow.team r = (if side_is_team_a side then ta else tb)
  /\ EventPlayerRow.opp r = (if side_is_team_a side then tb else ta).
Proof.
  unfold _create_player_row.
  destruct (side_is_team_a side);
    repeat match goal with
           | |- (?m ≫= _) = Some _ -> _ =>
               destruct m; cbn [mbind option_bind]; [|discriminate]
           end;
    by intros [= <-].
Qed.

Lemma collect_Forall {A B} (P : B -> Prop) (body : A -> option (list B)) l
    rows :
  (forall x rs, body x = Some rs -> List.Forall P rs) ->
  collect body l = Some rows -> List.Forall P rows.
Proof.
  intros Hbody. revert rows.
  induction l as [|x l IH]; intros rows Hc; simpl in Hc.
  - injection Hc as <-. constructor.
  - destruct (body x) as [rs|] eqn:Hx; [|discriminate]. simpl in Hc.
    destruct (collect body l) as [rest|] eqn:Hl; [|discriminate].
    injection Hc as <-. apply List.Forall_app. split; [by eapply Hbody | by apply IH].
Qed.

Lemma perf_player_created ctx team_id entry rs :
  perf_player ctx team_id entry = Some rs ->
  List.Forall (home_or_away ctx) rs.
Proof.
  destruct entry as [player_id player_stats]. unfold perf_player.
  destruct (String.eqb player_id "0"); [intros [= <-]; constructor|].
  destruct player_stats as [| | | | | |ps]; try (intros [= <-]; constructor).
  destruct (has_stats ps); [|intros [= <-]; constructor].
  repeat bind_step.
  intros [= <-]. constructor; [|constructor].
  match goal with
  | H : (if ?c then _ else _) = Some ?so |- _ =>
      destruct c; [destruct (item (teams ctx) 1); simpl in H|];
        try discriminate; injection H as <-
  end; [left | right]; eexists; eassumption.
Qed.

Lemma performance_rows_created ctx event rows :
  performance_rows ctx event = Some rows ->
  List.Forall (home_or_away ctx) rows.
Proof.
  unfold performance_rows.
  destruct (get event "performance" JNull) as [pd|]; [|discriminate]. simpl.
  destruct pd as [| | | | | |[|tp perf]]; try (intros [= <-]; constructor).
  apply collect_Forall. intros [team_id team_performance] rs.
  unfold perf_team.
  destruct (String.eqb team_id "0"); [intros [= <-]; constructor|].
  destruct team_performance as [| | | | | |players];
    try (intros [= <-]; constructor).
  apply collect_Forall. intros entry rs'. apply perf_player_created.
Qed.

Lemma box_row_created ctx side d d' r :
  box_row ctx side d = (d', Some r) -> created_on ctx side r.
Proof.
  unfold box_row, bind, row_get, row_set, row_self, eval, ret.
  repeat match goal with
         | |- context [if ?c then _ else _] => destruct c
         | |- context [match ?o with Some _ => _ | None => _ end] =>
             destruct o
         end;
    intros [= <- Hr]; try discriminate; eexists; eassumption.
Qed.

Lemma visit_Forall {B} (P : B -> Prop)
    (body : json -> json * option (list B)) l l' rows :
  (forall x x' rs, body x = (x', Some rs) -> List.Forall P rs) ->
  visit body l = (l', Some rows) -> List.Forall P rows.
Proof.
  intros Hbody. revert l' rows.
  induction l as [|x l IH]; intros l' rows; simpl.
  - intros [= <- <-]. constructor.
  - destruct (body x) as [x' [rs|]] eqn:Hx; [|discriminate].
    destruct (visit body l) as [l'' [rest|]] eqn:Hl; simpl;
      [|discriminate].
    intros [= <- <-]. apply List.Forall_app.
    split; [by eapply Hbody | by eapply IH].
Qed.

Lemma box_side_row_created ctx side x x' rs :
  box_side_row ctx side x = (x', Some rs) ->
  List.Forall (created_on ctx side) rs.
Proof.
  unfold box_side_row. destruct x as [| | | | | |d];
    try (intros [= <- <-]; constructor).
  destruct (box_row ctx side d) as [d' [r|]] eqn:Hb; simpl;
    [|discriminate].
  intros [= <- <-]. constructor; [|constructor]. by eapply box_row_created.
Qed.

Lemma box_list_row_created ctx x x' rs :
  box_list_row ctx x = (x', Some rs) -> List.Forall (home_or_away ctx) rs.
Proof.
  unfold box_list_row. destruct x as [| | | | | |d];
    try (intros [= <- <-]; constructor).
  destruct (String.eqb _ _);
    match goal with
    | |- context [box_row ctx ?side d] =>
        destruct (box_row ctx side d) as [d' [r|]] eqn:Hb
    end; simpl; try discriminate;
    intros [= <- <-]; (constructor; [|constructor]);
    [left | right]; by eapply box_row_created.
Qed.

Lemma visit_sides_created ctx sides sides' rows :
  visit_sides ctx sides = (sides', Some rows) ->
  List.Forall (any_side ctx) rows.
Proof.
  revert sides' rows.
  induction sides as [|[side player_rows] sides IH]; intros sides' rows;
    simpl.
  - intros [= <- <-]. constructor.
  - destruct player_rows as [| | | | |l|];
      try (destruct (visit_sides ctx sides) as [s'' rest] eqn:Hs;
           intros [= <- ->]; by eapply IH).
    destruct (visit (box_side_row ctx side) l) as [l' [rs|]] eqn:Hv;
      [|discriminate].
    destruct (visit_sides ctx sides) as [s'' [rest|]] eqn:Hs; simpl;
      [|discriminate].
    intros [= <- <-]. apply List.Forall_app. split; [|by eapply IH].
    eapply List.Forall_impl; [|eapply visit_Forall; [|exact Hv]].
    + intros r Hr. exists side. exact Hr.
    + intros x x' rs'. apply box_side_row_created.
Qed.

Lemma home_or_away_any_side ctx r : home_or_away ctx r -> any_side ctx r.
Proof. intros [H|H]; eexists; exact H. Qed.

Lemma visit_boxscore_created ctx boxscore boxscore' rows :
  visit_boxscore ctx boxscore = (boxscore', Some rows) ->
  List.Forall (any_side ctx) rows
  /\ ((forall sides, boxscore <> JDict sides) ->
      List.Forall (home_or_away ctx) rows).
Proof.
  unfold visit_boxscore. destruct boxscore as [| | | | |l|sides];
    try (intros [= <- <-]; split; constructor).
  - destruct (visit (box_list_row ctx) l) as [l' r] eqn:Hv.
    intros [= <- ->].
    assert (List.Forall (home_or_away ctx) rows) as Hrows.
    { eapply visit_Forall; [|exact Hv].
      intros x x' rs. apply box_list_row_created. }
    split; [|done].
    eapply List.Forall_impl; [|exact Hrows]. apply home_or_away_any_side.
  - destruct (visit_sides ctx sides) as [sides' r] eqn:Hv.
    intros [= <- ->]. split; [by eapply visit_sides_created|].
    intros Hno. by destruct (Hno sides).
Qed.

(** Every row returned for an event was built by [_create_player_row]
    with the date, link and team names of that event; outside the
    boxscore format keyed by side, for the side ["home"] or
    ["away"]. *)
Lemma extract_rows_created event rows :
  (_extract_rows_from_event event).2 = Some rows ->
  exists ctx,
    event_context event = Some ctx
    /\ List.Forall (any_side ctx) rows
    /\ ((forall p sides, candidate event p <> Some (JDict sides)) ->
        List.Forall (home_or_away ctx) rows).
Proof.
  unfold _extract_rows_from_event, mbind, option_bind.
  destruct (event_context event) as [ctx|]; [|discriminate].
  destruct (performance_rows ctx event) as [prows|] eqn:Hp; [|discriminate].
  destruct (candidate event InMeta) as [c0|] eqn:H0; [|discriminate].
  destruct (candidate event AtTop) as [c1|] eqn:H1; [|discriminate].
  destruct (candidate event InResults) as [c2|] eqn:H2; [|discriminate].
  pose proof (performance_rows_created _ _ _ Hp) as Hperf.
  destruct prows as [|r0 prows].
  - destruct (List.find _ _) as [[p boxscore]|] eqn:Hfind.
    + destruct (visit_boxscore ctx boxscore) as [b' r] eqn:Hv.
      cbn [snd]. intros ->. exists ctx. split; [done|].
      destruct (visit_boxscore_created _ _ _ _ Hv) as [Hany Hha].
      split; [done|]. intros Hno. apply Hha. intros sides ->.
      apply find_some in Hfind as [Hin _].
      destruct Hin as [[= <- ->]|[[= <- ->]|[[= <- ->]|[]]]];
        by eapply Hno.
    + cbn [snd]. intros [= <-]. exists ctx. by repeat split.
  - cbn [snd]. intros [= <-]. exists ctx. split; [done|]. split; [|done].
    eapply List.Forall_impl; [|exact Hperf]. apply home_or_away_any_side.
Qed.

End RowOrigin.

Section RowFacts.
Import Py Sportspress Records RecordSpec RowSpec.
Context {rt : Runtime}.

Lemma created_on_fields ctx side r :
  created_on ctx side r ->
  EventPlayerRow.threepm r = 0%Q
  /\ EventPlayerRow.threepa r = 0%Q
  /\ EventPlayerRow.date r = date ctx
  /\ EventPlayerRow.game_url r
     = (if truthy (game_url ctx) then Some (game_url ctx) else None)
  /\ EventPlayerRow.team r
     = (if side_is_team_a side then team_a ctx else team_b ctx)
  /\ EventPlayerRow.opp r
     = (if side_is_team_a side then team_b ctx else team_a ctx).
Proof. intros [row Hrow]. by eapply create_player_row_fields. Qed.

Lemma extracted_rows_no_attempts event rows :
  (_extract_rows_from_event event).2 = Some rows ->
  List.Forall (fun r => EventPlayerRow.threepa r = 0%Q) rows.
Proof.
  intros Hrows.
  destruct (extract_rows_created event rows Hrows) as (ctx & _ & Hany & _).
  eapply List.Forall_impl; [|exact Hany].
  intros r [side Hr]. by destruct (created_on_fields _ _ _ Hr) as (_ & ? & _).
Qed.

(** X10: every row returned for an event carries the first ten
    characters of the event's date and, if the event has a link, that
    link as its game URL; its fields [threepm] and [threepa] are 0,
    whatever the event holds under those keys; its team and opponent
    are the two team names of the event, in one order or the other. *)
Theorem extracted_rows_carry_event_context :
  forall (event : json) (rows : list EventPlayerRow.t)
         (r : EventPlayerRow.t),
    (_extract_rows_from_event event).2 = Some rows -> In r rows ->
    exists ctx,
      event_context event = Some ctx
      /\ EventPlayerRow.date r = date ctx
      /\ EventPlayerRow.game_url r
         = (if truthy (game_url ctx) then Some (game_url ctx) else None)
      /\ EventPlayerRow.threepm r = 0%Q
      /\ EventPlayerRow.threepa r = 0%Q
      /\ ((EventPlayerRow.team r = team_a ctx
           /\ EventPlayerRow.opp r = team_b ctx)
          \/ (EventPlayerRow.team r = team_b ctx
              /\ EventPlayerRow.opp r = team_a ctx)).
Proof.
  intros event rows r Hrows Hr.
  destruct (extract_rows_created event rows Hrows) as (ctx & Hctx & Hany & _).
  rewrite List.Forall_forall in Hany. destruct (Hany r Hr) as [side Hside].
  destruct (created_on_fields _ _ _ Hside)
    as (Hpm & Hpa & Hdate & Hurl & Hteam & Hopp).
  exists ctx. repeat (split; [done|]).
  destruct (side_is_team_a side); [by left | by right].
Qed.

(** X11: unless the rows come from a boxscore keyed by side, every
    row of an event has the event's first team as its team and the
    second as its opponent, on whichever side the player is: the sides
    passed on are ["home"] and ["away"], and both start with ["home"]
    or ["a"]. *)
Theorem extracted_rows_are_labelled_team_a :
  forall (event : json) (rows : list EventPlayerRow.t)
         (r : EventPlayerRow.t),
    (forall p sides, candidate event p <> Some (JDict sides)) ->
    (_extract_rows_from_event event).2 = Some rows -> In r rows ->
    exists ctx,
      event_context event = Some ctx
      /\ EventPlayerRow.team r = team_a ctx
      /\ EventPlayerRow.opp r = team_b ctx.
Proof.
  intros event rows r Hno Hrows Hr.
  destruct (extract_rows_created event rows Hrows) as (ctx & Hctx & _ & Hha).
  specialize (Hha Hno). rewrite List.Forall_forall in Hha.
  exists ctx. split; [done|].
  destruct (Hha r Hr) as [Hside|Hside];
    by destruct (created_on_fields _ _ _ Hside) as (_ & _ & _ & _ & ? & ?).
Qed.

End RowFacts.

Section RowExamples.
Import Py Sportspress Records RecordSpec RowSpec.

Lemma extracted_rows_carry_event_context_witness :
  exists r,
    In r two_sided_rows
    /\ EventPlayerRow.points r = 12%Q
    /\ EventPlayerRow.threep_percent r = 66%Q
    /\ EventPlayerRow.threepa r = 0%Q
    /\ EventPlayerRow.date r = "2024-01-15"%string.
Proof.
  exists (nth 0 two_sided_rows (row_with 0 0 0 0 0)).
  destruct (@extracted_rows_carry_event_context Example.runtime
              two_sided_event two_sided_rows
              (nth 0 two_sided_rows (row_with 0 0 0 0 0)))
    as (ctx & Hctx & Hdate & _ & _ & Hpa & _);
    [reflexivity | left; reflexivity |].
  split; [left; reflexivity|]. split; [reflexivity|]. split; [reflexivity|].
  split; [exact Hpa|].
  rewrite Hdate. vm_compute in Hctx. by injection Hctx as <-.
Defined.

Lemma extracted_rows_are_labelled_team_a_witness :
  exists r,
    In r two_sided_rows
    /\ EventPlayerRow.team_id r = Some 20%Z
    /\ EventPlayerRow.team r = "Team 10"%string
    /\ EventPlayerRow.opp r = "Team 20"%string.
Proof.
  exists (nth 1 two_sided_rows (row_with 0 0 0 0 0)).
  destruct (@extracted_rows_are_labelled_team_a Example.runtime
              two_sided_event two_sided_rows
              (nth 1 two_sided_rows (row_with 0 0 0 0 0)))
    as (ctx & Hctx & Hteam & Hopp).
  - intros p sides. by destruct p.
  - reflexivity.
  - right. left. reflexivity.
  - vm_compute in Hctx. injection Hctx as <-.
    split; [right; left; reflexivity|]. split; [reflexivity|].
    split; [exact Hteam | exact Hopp].
Defined.

End RowExamples.

Section ScanFacts2.
Import Py Sportspress Records RecordSpec RowSpec.
Context {rt : Runtime} (settings : Settings).

Lemma check_doubles_cases records row pid tid oid url :
  match _check_double_triple_doubles records row pid tid oid url with
  | Some records' =>
      records' = records
      \/ (exists a, records' = append_triple records a)
      \/ (exists a, records' = append_double records a)
  | None =>
      (2 <=? length (double_digits row))%nat = true
      /\ validate_game_url url = None
  end.
Proof.
  unfold _check_double_triple_doubles, achievement.
  destruct (validate_game_url url) as [u|]; cbn [mbind option_bind].
  - destruct (3 <=? _)%nat; [right; left; by eexists|].
    destruct (2 <=? _)%nat; [right; right; by eexists | by left].
  - destruct (3 <=? _)%nat eqn:H3.
    + split; [|done]. apply Nat.leb_le in H3. apply Nat.leb_le. lia.
    + destruct (2 <=? _)%nat; [done | by left].
Qed.

Lemma check_doubles_records records row pid tid oid url records' :
  _check_double_triple_doubles records row pid tid oid url = Some records' ->
  record_fields records' = record_fields records.
Proof.
  intros H. pose proof (check_doubles_cases records row pid tid oid url) as Hc.
  rewrite H in Hc. destruct records.
  by destruct Hc as [->|[[a ->]|[a ->]]].
Qed.

Lemma process_row_completes records row :
  (process_row settings records row).2 = row_completes row.
Proof.
  unfold process_row, row_completes.
  unfold _check_double_triple_doubles, achievement, validate_game_url.
  destruct (3 <=? _)%nat eqn:H3.
  - assert ((2 <=? length (double_digits row))%nat = true) as ->.
    { apply Nat.leb_le in H3. apply Nat.leb_le. lia. }
    destruct (EventPlayerRow.game_url row) as [v|]; [|done].
    by destruct (validate_optional_str v).
  - destruct (2 <=? _)%nat; [|done].
    destruct (EventPlayerRow.game_url row) as [v|]; [|done].
    by destruct (validate_optional_str v).
Qed.

Lemma process_row_records records row :
  record_fields (process_row settings records row).1
  = record_fields (update_maxima settings records row).
Proof.
  unfold process_row.
  destruct (_check_double_triple_doubles _ _ _ _ _ _) as [r|] eqn:Hr;
    [|done].
  by eapply check_doubles_records.
Qed.

Lemma update_maxima_fields a b row :
  record_fields a = record_fields b ->
  record_fields (update_maxima settings a row)
  = record_fields (update_maxima settings b row).
Proof.
  destruct a, b. cbn. by intros [= -> -> -> -> -> -> -> ->].
Qed.

Lemma update_maxima_fold_fields a b rows :
  record_fields a = record_fields b ->
  record_fields (fold_left (update_maxima settings) rows a)
  = record_fields (fold_left (update_maxima settings) rows b).
Proof.
  revert a b. induction rows as [|row rows IH]; intros a b Hab; [done|].
  cbn [fold_left]. by apply IH, update_maxima_fields.
Qed.

Lemma process_rows_reached records rows :
  record_fields (process_rows settings records rows)
  = record_fields
      (fold_left (update_maxima settings) (rows_reached rows) records).
Proof.
  revert records. induction rows as [|row rows IH]; intros records; [done|].
  cbn [process_rows rows_reached].
  pose proof (process_row_completes records row) as Hc.
  pose proof (process_row_records records row) as Hr.
  destruct (process_row settings records row) as [records' completed].
  cbn [fst snd] in Hc, Hr. rewrite <- Hc.
  destruct completed; [|exact Hr].
  cbn [fold_left]. rewrite IH. by apply update_maxima_fold_fields.
Qed.

Lemma scan_events_scanned records events :
  record_fields (scan_events settings records events)
  = record_fields
      (fold_left (update_maxima settings) (rows_scanned events) records).
Proof.
  unfold scan_events, rows_scanned.
  revert records. induction events as [|event events IH]; intros records;
    [done|].
  cbn [fold_left flat_map]. rewrite fold_left_app, IH.
  apply update_maxima_fold_fields. unfold process_event.
  destruct (_extract_rows_from_event event).2 as [player_rows|]; [|done].
  apply process_rows_reached.
Qed.

Lemma update_maxima_fold_threep records rows :
  (0 < MIN_3PA_FOR_3P_PERCENT settings)%Z ->
  List.Forall (fun r => EventPlayerRow.threepa r = 0%Q) rows ->
  RecordsData.threep_percent
    (fold_left (update_maxima settings) rows records)
  = RecordsData.threep_percent records.
Proof.
  intros Hmin Hrows. revert records.
  induction Hrows as [|row rows Hrow Hrows IH]; intros records; [done|].
  cbn [fold_left]. rewrite IH. destruct records. cbn. rewrite Hrow.
  destruct (Qle_bool _ _) eqn:Hle; [|done].
  apply Qle_bool_iff in Hle. unfold Qle in Hle. cbn in Hle. lia.
Qed.

Lemma rows_reached_In rows r : In r (rows_reached rows) -> In r rows.
Proof.
  induction rows as [|row rows IH]; [done|]. cbn [rows_reached].
  destruct (row_completes row).
  - intros [<-|Hin]; [by left | right; by apply IH].
  - intros [<-|[]]. by left.
Qed.

Lemma rows_scanned_no_attempts events :
  List.Forall (fun r => EventPlayerRow.threepa r = 0%Q) (rows_scanned events).
Proof.
  unfold rows_scanned. apply List.Forall_forall. intros r Hr.
  apply in_flat_map in Hr as (event & _ & Hr).
  destruct (_extract_rows_from_event event).2 as [rows|] eqn:Hrows; [|done].
  apply rows_reached_In in Hr.
  pose proof (extracted_rows_no_attempts event rows Hrows) as Hall.
  rewrite List.Forall_forall in Hall. by apply Hall.
Qed.

Lemma scan_events_threep records events :
  (0 < MIN_3PA_FOR_3P_PERCENT settings)%Z ->
  RecordsData.threep_percent (scan_events settings records events)
  = RecordsData.threep_percent records.
Proof.
  intros Hmin.
  pose proof (scan_events_scanned records events) as Hf.
  rewrite <- (update_maxima_fold_threep records (rows_scanned events) Hmin
                (rows_scanned_no_attempts events)).
  destruct (scan_events settings records events),
    (fold_left (update_maxima settings) (rows_scanned events) records).
  cbn in Hf. by injection Hf.
Qed.

(** X12: with a positive [MIN_3PA_FOR_3P_PERCENT] (the default is 6)
    the records computed from events never hold a three-point
    percentage record: the rows have 0 attempts, so the test
    [row.threepa >= settings.MIN_3PA_FOR_3P_PERCENT] fails on each. *)
Theorem computed_records_have_no_threep_percent :
  forall w : world,
    (0 < MIN_3PA_FOR_3P_PERCENT settings)%Z ->
    RecordsData.threep_percent (compute_single_game_records settings w)
    = None.
Proof.
  intros w Hmin. unfold compute_single_game_records.
  destruct (if setup_raises w then fallback w else _) as [events|]; [|done].
  by rewrite scan_events_threep.
Qed.

Lemma update_maxima_le records row :
  Forall2 record_le (record_fields records)
          (record_fields (update_maxima settings records row)).
Proof.
  destruct records. unfold update_maxima, record_fields.
  cbn [RecordsData.points RecordsData.rebounds RecordsData.assists
       RecordsData.steals RecordsData.blocks RecordsData.threes_made
       RecordsData.fg_percent RecordsData.threep_percent].
  repeat (constructor;
          [first [apply try_update_max_le
                 | destruct (Qle_bool _ _);
                   [apply try_update_max_le | apply record_le_refl]]|]).
  constructor.
Qed.

Lemma record_fields_le_refl records :
  Forall2 record_le (record_fields records) (record_fields records).
Proof. repeat constructor; apply record_le_refl. Qed.

Lemma record_fields_le_trans a b c :
  Forall2 record_le (record_fields a) (record_fields b) ->
  Forall2 record_le (record_fields b) (record_fields c) ->
  Forall2 record_le (record_fields a) (record_fields c).
Proof.
  intros Hab Hbc. unfold record_fields in *.
  repeat match goal with
         | H : Forall2 _ (_ :: _) (_ :: _) |- _ =>
             apply Forall2_cons_1 in H as [? H]
         end.
  repeat (constructor; [by eapply record_le_trans|]). constructor.
Qed.

Lemma update_maxima_fold_le records rows :
  Forall2 record_le (record_fields records)
          (record_fields (fold_left (update_maxima settings) rows records)).
Proof.
  revert records. induction rows as [|row rows IH]; intros records.
  - apply record_fields_le_refl.
  - cbn [fold_left].
    eapply record_fields_le_trans; [apply update_maxima_le | apply IH].
Qed.

Lemma achievements_extend_refl a : achievements_extend a a.
Proof. split; exists []; by rewrite app_nil_r. Qed.

Lemma achievements_extend_trans a b c :
  achievements_extend a b -> achievements_extend b c ->
  achievements_extend a c.
Proof.
  intros [[d1 H1] [t1 H2]] [[d2 H3] [t2 H4]]. split.
  - exists (d1 ++ d2)%list. by rewrite H3, H1, <- app_assoc.
  - exists (t1 ++ t2)%list. by rewrite H4, H2, <- app_assoc.
Qed.

Lemma update_maxima_achievements records row :
  achievements_extend records (update_maxima settings records row).
Proof.
  destruct records. split; exists []; cbn; by rewrite app_nil_r.
Qed.

Lemma check_doubles_achievements records row pid tid oid url records' :
  _check_double_triple_doubles records row pid tid oid url = Some records' ->
  achievements_extend records records'.
Proof.
  intros H. pose proof (check_doubles_cases records row pid tid oid url) as Hc.
  rewrite H in Hc. destruct records.
  destruct Hc as [->|[[a ->]|[a ->]]].
  - apply achievements_extend_refl.
  - split; [exists []; by rewrite app_nil_r | by eexists].
  - split; [by eexists | exists []; by rewrite app_nil_r].
Qed.

Lemma process_row_achievements records row :
  achievements_extend records (process_row settings records row).1.
Proof.
  unfold process_row.
  destruct (_check_double_triple_doubles _ _ _ _ _ _) as [r|] eqn:Hr;
    [|apply update_maxima_achievements].
  cbn [fst]. eapply achievements_extend_trans;
    [apply update_maxima_achievements
    | eapply check_doubles_achievements; exact Hr].
Qed.

Lemma process_rows_achievements records rows :
  achievements_extend records (process_rows settings records rows).
Proof.
  revert records. induction rows as [|row rows IH]; intros records.
  - apply achievements_extend_refl.
  - cbn [process_rows].
    pose proof (process_row_achievements records row) as Hrow.
    destruct (process_row settings records row) as [records' completed].
    destruct completed; [|exact Hrow].
    eapply achievements_extend_trans; [exact Hrow | apply IH].
Qed.

Lemma scan_events_achievements records events :
  achievements_extend records (scan_events settings records events).
Proof.
  unfold scan_events. revert records.
  induction events as [|event events IH]; intros records.
  - apply achievements_extend_refl.
  - cbn [fold_left]. eapply achievements_extend_trans; [|apply IH].
    unfold process_event.
    destruct (_extract_rows_from_event event).2;
      [apply process_rows_achievements | apply achievements_extend_refl].
Qed.

(** X13: scanning events never lowers or unsets any of the eight
    records, and never removes or reorders an achievement: the two
    achievement lists are extended at their end. *)
Theorem scan_never_lowers_records :
  forall (records : RecordsData.t) (events : list json),
    Forall2 record_le (record_fields records)
            (record_fields (scan_events settings records events))
    /\ achievements_extend records (scan_events settings records events).
Proof.
  intros records events. split; [|apply scan_events_achievements].
  rewrite scan_events_scanned. apply update_maxima_fold_le.
Qed.

End ScanFacts2.

Section ScanExamples.
Import Py Sportspress Records RecordSpec RowSpec ScanSpec.

Lemma computed_records_have_no_threep_percent_witness :
  RecordsData.threep_percent
    (@compute_single_game_records Example.runtime default_settings
       two_sided_world)
  = None.
Proof.
  apply (@computed_records_have_no_threep_percent Example.runtime
           default_settings two_sided_world).
  reflexivity.
Defined.

End ScanExamples.

Section NameFacts.
Import Py Names.

Lemma get_player_name_cached client st id :
  _player_names (get_player_name client st (Some id)).2 !! id
  = Some (get_player_name client st (Some id)).1.
Proof.
  unfold get_player_name.
  destruct (_player_names st !! id) as [name|] eqn:Hc; cbn [fst snd]; [done|].
  cbn. by rewrite lookup_insert_eq.
Qed.

Lemma get_player_name_requests client st id :
  player_requests (get_player_name client st (Some id)).2
  = match _player_names st !! id with
    | Some _ => player_requests st
    | None => (player_requests st ++ [id])%list
    end.
Proof.
  unfold get_player_name. by destruct (_player_names st !! id).
Qed.

Lemma get_player_name_keeps client st id id' name :
  _player_names st !! id' = Some name ->
  _player_names (get_player_name client st (Some id)).2 !! id' = Some name.
Proof.
  unfold get_player_name. intros Hc.
  destruct (_player_names st !! id) as [name'|] eqn:Hid; cbn [snd]; [done|].
  cbn. rewrite lookup_insert_ne; [done|]. intros ->. congruence.
Qed.

Lemma get_player_name_again client client' st id :
  get_player_name client' (get_player_name client st (Some id)).2 (Some id)
  = get_player_name client st (Some id).
Proof.
  pose proof (get_player_name_cached client st id) as Hc.
  destruct (get_player_name client st (Some id)) as [name st'].
  cbn [fst snd] in *. unfold get_player_name at 1. by rewrite Hc.
Qed.

Lemma get_player_name_requested_once client st id :
  requested_once st ->
  requested_once (get_player_name client st (Some id)).2.
Proof.
  intros [Hnd Hreq]. split.
  - rewrite get_player_name_requests.
    destruct (_player_names st !! id) eqn:Hc; [done|].
    apply List.NoDup_app; [done | |].
    + constructor; [intros [] | constructor].
    + intros a Ha [<-|[]]. destruct (Hreq id Ha) as [name Hname]. congruence.
  - intros id' Hin. rewrite get_player_name_requests in Hin.
    destruct (_player_names st !! id) eqn:Hc.
    + destruct (Hreq id' Hin) as [name Hname]. exists name.
      by apply get_player_name_keeps.
    + apply in_app_or in Hin as [Hin|[<-|[]]].
      * destruct (Hreq id' Hin) as [name Hname]. exists name.
        by apply get_player_name_keeps.
      * rewrite get_player_name_cached. by eexists.
Qed.

Lemma get_player_names_keeps calls st id name :
  _player_names st !! id = Some name ->
  _player_names (get_player_names calls st).2 !! id = Some name.
Proof.
  revert st. induction calls as [|[client id'] calls IH]; intros st Hc;
    [done|].
  cbn [get_player_names].
  pose proof (get_player_name_keeps client st id' id name Hc) as Hk.
  destruct (get_player_name client st (Some id')) as [n st'].
  specialize (IH st' Hk).
  destruct (get_player_names calls st') as [ns st'']. exact IH.
Qed.

Lemma get_player_names_requested_once calls st :
  requested_once st -> requested_once (get_player_names calls st).2.
Proof.
  revert st. induction calls as [|[client id] calls IH]; intros st Hst;
    [done|].
  cbn [get_player_names].
  pose proof (get_player_name_requested_once client st id Hst) as Hk.
  destruct (get_player_name client st (Some id)) as [n st'].
  specialize (IH st' Hk).
  destruct (get_player_names calls st') as [ns st'']. exact IH.
Qed.

Lemma get_player_names_lookup calls st i client id :
  calls !! i = Some (client, id) ->
  (get_player_names calls st).1 !! i
  = _player_names (get_player_names calls st).2 !! id.
Proof.
  revert st i. induction calls as [|[client' id'] calls IH]; intros st i;
    [done|].
  cbn [get_player_names].
  pose proof (get_player_name_cached client' st id') as Hc.
  destruct (get_player_name client' st (Some id')) as [n st'].
  cbn [fst snd] in Hc.
  pose proof (get_player_names_keeps calls st' id' n Hc) as Hk.
  specialize (IH st').
  destruct (get_player_names calls st') as [ns st''].
  cbn [fst snd] in *.
  destruct i as [|i]; cbn.
  - intros [= -> ->]. by rewrite Hk.
  - apply IH.
Qed.

(** X15: over any sequence of calls of [get_player_name] that starts
    with empty caches, no id is requested twice, and all calls for one
    id return the same value, whatever the server answers at the time
    of the later calls. *)
Theorem player_names_are_requested_once :
  forall (calls : list ((Z -> option json) * Z)),
    List.NoDup (player_requests (get_player_names calls empty_state).2)
    /\ (forall i j client client' id,
          calls !! i = Some (client, id) ->
          calls !! j = Some (client', id) ->
          is_Some ((get_player_names calls empty_state).1 !! i)
          /\ (get_player_names calls empty_state).1 !! i
             = (get_player_names calls empty_state).1 !! j).
Proof.
  intros calls. split.
  - apply (get_player_names_requested_once calls empty_state).
    split; [constructor | intros id []].
  - intros i j client client' id Hi Hj.
    rewrite (get_player_names_lookup _ _ _ _ _ Hi),
      (get_player_names_lookup _ _ _ _ _ Hj).
    split; [|done].
    rewrite <- (get_player_names_lookup _ _ _ _ _ Hi).
    apply lookup_lt_is_Some.
    assert (Hlen : forall st,
               length (get_player_names calls st).1 = length calls).
    { clear. induction calls as [|[c k] calls IH]; intros st; [done|].
      cbn [get_player_names].
      destruct (get_player_name c st (Some k)) as [n st'].
      specialize (IH st').
      destruct (get_player_names calls st') as [ns st'']. cbn in *.
      by rewrite IH. }
    rewrite Hlen. by eapply lookup_lt_Some.
Qed.

(** X16: a failed request is remembered as a name.  If the request for
    an id that is not cached raises, the call returns
    ["Player <id>"], and so does every later call for that id, also
    once the server answers again; the id is not requested again. *)
Theorem failed_player_lookup_is_remembered :
  forall (client client' : Z -> option json) (st : state) (id : Z),
    _player_names st !! id = None ->
    client id = None ->
    let first := get_player_name client st (Some id) in
    first.1 = JStr ("Player " ++ pretty id)
    /\ (get_player_name client' first.2 (Some id)).1
       = JStr ("Player " ++ pretty id)
    /\ player_requests (get_player_name client' first.2 (Some id)).2
       = (player_requests st ++ [id])%list.
Proof.
  intros client client' st id Hmiss Hfail first.
  assert (Hfirst : first.1 = JStr ("Player " ++ pretty id)).
  { unfold first, get_player_name. rewrite Hmiss, Hfail. reflexivity. }
  split; [exact Hfirst|].
  unfold first. rewrite get_player_name_again.
  fold first. split; [exact Hfirst|].
  unfold first. rewrite get_player_name_requests. by rewrite Hmiss.
Qed.

End NameFacts.

Section NameExamples.
Import Py Names.

Lemma player_names_are_requested_once_witness :
  (get_player_names [(server_down, 7%Z); (server_up, 7%Z)] empty_state).1
    !! 0%nat
  = (get_player_names [(server_down, 7%Z); (server_up, 7%Z)] empty_state).1
      !! 1%nat.
Proof.
  destruct (player_names_are_requested_once
              [(server_down, 7%Z); (server_up, 7%Z)]) as [_ Hsame].
  destruct (Hsame 0%nat 1%nat server_down server_up 7%Z) as [_ Heq];
    [reflexivity | reflexivity |].
  exact Heq.
Defined.

Lemma failed_player_lookup_is_remembered_witness :
  (get_player_name server_up
     (get_player_name server_down empty_state (Some 7%Z)).2 (Some 7%Z)).1
  = JStr "Player 7".
Proof.
  destruct (failed_player_lookup_is_remembered server_down server_up
              empty_state 7) as (_ & Hsecond & _);
    [reflexivity | reflexivity |].
  exact Hsecond.
Defined.

End NameExamples.

Section MonitorFacts.
Import Py RecordChanges RecordMonitor.

Lemma compare_records_new old_record new_record :
  (if _compare_records old_record new_record
   then [new_record] else [])
  = map Some
      match new_record with
      | Some current_record =>
          match old_record with
          | None => [current_record]
          | Some previous_record =>
              if PyFloat.gtb (SingleGameRecord.value current_record)
                             (SingleGameRecord.value previous_record)
              then [current_record] else []
          end
      | None => []
      end.
Proof.
  destruct old_record as [o|], new_record as [n|]; cbn; try done.
  by destruct (PyFloat.gtb _ _).
Qed.

(** X17: the record monitor and [records_changed] apply the same
    test.  Against a set of previous records, the new records that
    [check_for_new_records] reports are, in order, those that
    [records_changed] returns once the field-goal percentage record is
    left out: the monitor does not look at [fg_percent]. *)
Theorem monitor_reports_changed_records_but_fg_percent :
  forall previous current : RecordsData.t,
    map new_record (check_for_new_records (Some previous) current)
    = map Some (records_changed (without_fg_percent current) previous).
Proof.
  intros previous current.
  unfold check_for_new_records, records_changed, record_types, changed_stats.
  destruct current, previous.
  cbn [flat_map without_fg_percent getattr_record String.eqb Ascii.eqb
       Bool.eqb RecordsData.points RecordsData.rebounds RecordsData.assists
       RecordsData.steals RecordsData.blocks RecordsData.threes_made
       RecordsData.fg_percent RecordsData.threep_percent].
  rewrite !map_app. cbn [app].
  repeat match goal with
         | |- context [map new_record
                         (if _compare_records ?o ?n then [?x] else [])] =>
             replace (map new_record
                        (if _compare_records o n then [x] else []))
               with (if _compare_records o n then [n] else [])
               by (by destruct (_compare_records o n));
             rewrite (compare_records_new o n)
         end.
  reflexivity.
Qed.

End MonitorFacts.

Section PaginateFacts.
Import Py Http Players Leaders.
Context {rt : Runtime}.

Lemma paginate_pages get_json pages fuel page tail :
  (forall i l, pages !! i = Some l ->
               l <> [] /\ get_json (page + i)%nat = Returns (JList l)) ->
  paginate get_json None fuel (page + length pages) = Some tail ->
  paginate get_json None (length pages + fuel) page
  = Some ((concat pages ++ tail.1)%list, tail.2).
Proof.
  revert page. induction pages as [|l pages IH]; intros page Hserves Htail.
  - cbn. rewrite Nat.add_0_r in Htail. rewrite Htail. by destruct tail.
  - destruct (Hserves 0%nat l eq_refl) as [Hne Hget].
    rewrite Nat.add_0_r in Hget.
    cbn [length Nat.add paginate past_last]. rewrite Hget.
    destruct l as [|x l]; [done|]. cbn [truthy negb].
    rewrite (IH (S page)).
    + cbn [fst snd concat]. by rewrite <- app_assoc.
    + intros i l' Hl'. specialize (Hserves (S i) l' Hl').
      by rewrite Nat.add_succ_r in Hserves.
    + rewrite <- Htail. f_equal. cbn [length]. lia.
Qed.

Lemma paginate_served get_json pages fuel tail :
  serves get_json pages ->
  (length pages < fuel)%nat ->
  paginate get_json None (fuel - length pages) (S (length pages))
  = Some tail ->
  paginate get_json None fuel 1 = Some ((concat pages ++ tail.1)%list, tail.2).
Proof.
  intros Hserves Hfuel Htail.
  replace fuel with (length pages + (fuel - length pages))%nat at 1 by lia.
  apply paginate_pages; [|exact Htail].
  intros i l Hl. by apply Hserves.
Qed.

Lemma paginate_last_step get_json fuel page :
  (0 < fuel)%nat ->
  paginate get_json None fuel page
  = match get_json page with
    | Returns data =>
        if negb (truthy data) then Some ([], false)
        else match data with
             | JList l =>
                 match paginate get_json None (fuel - 1) (S page) with
                 | Some (items, raised) => Some ((l ++ items)%list, raised)
                 | None => None
                 end
             | _ => Some ([data], false)
             end
    | Raises400 => Some ([], false)
    | RaisesOther => Some ([], true)
    end.
Proof.
  destruct fuel as [|fuel]; [lia|]. intros _.
  replace (S fuel - 1)%nat with fuel by lia. reflexivity.
Qed.

(** X18: [fetch_players_for_season] reads the pages in order until a
    request returns nothing or fails with status 400; a page shorter
    than [per_page] does not end the reading.  The players are those
    built from the items of all pages, in order, without the items
    from which no player can be built. *)
Theorem fetch_players_reads_all_pages :
  forall (get_json : nat -> response) (pages : list (list json))
         (fuel : nat),
    serves get_json pages ->
    (length pages < fuel)%nat ->
    (get_json (S (length pages)) = Raises400
     \/ exists data, get_json (S (length pages)) = Returns data
                     /\ truthy data = false) ->
    fetch_players_for_season get_json fuel
    = Some (Some (omap parse_player (concat pages))).
Proof.
  intros get_json pages fuel Hserves Hfuel Hstop.
  unfold fetch_players_for_season.
  rewrite (paginate_served get_json pages fuel ([], false) Hserves Hfuel).
  - cbn [fst snd]. by rewrite app_nil_r.
  - rewrite paginate_last_step by lia.
    destruct Hstop as [->|(data & -> & Hfalsy)]; [done|].
    by rewrite Hfalsy.
Qed.

Lemma fetch_all_lookup seasons fuel result i get_json :
  fetch_all_players_seasons seasons fuel = Some result ->
  seasons !! i = Some get_json ->
  exists players,
    fetch_players_for_season get_json fuel = Some players
    /\ result !! i = Some (default [] players).
Proof.
  revert result i. induction seasons as [|g seasons IH]; intros result i;
    [done|].
  cbn [fetch_all_players_seasons]. unfold mbind, option_bind.
  destruct (fetch_players_for_season g fuel) as [players|] eqn:Hg;
    [|discriminate].
  destruct (fetch_all_players_seasons seasons fuel) as [rest|] eqn:Hrest;
    [|discriminate].
  intros [= <-]. destruct i as [|i]; cbn.
  - intros [= <-]. by exists players.
  - intros Hi. by apply IH.
Qed.

(** X19: a season is read completely or not at all.  If a request
    fails with anything but status 400 after some pages were read, the
    players of those pages are dropped: [fetch_players_for_season]
    raises, and [fetch_all_players_seasons] puts an empty list in the
    place of that season. *)
Theorem failed_page_discards_season :
  forall (get_json : nat -> response) (pages : list (list json))
         (fuel : nat) (seasons : list (nat -> response))
         (result : list (list PlayerStats)) (i : nat),
    serves get_json pages ->
    (length pages < fuel)%nat ->
    get_json (S (length pages)) = RaisesOther ->
    seasons !! i = Some get_json ->
    fetch_all_players_seasons seasons fuel = Some result ->
    fetch_players_for_season get_json fuel = Some None
    /\ result !! i = Some [].
Proof.
  intros get_json pages fuel seasons result i Hserves Hfuel Hfail Hi Hall.
  assert (Hseason : fetch_players_for_season get_json fuel = Some None).
  { unfold fetch_players_for_season.
    rewrite (paginate_served get_json pages fuel ([], true) Hserves Hfuel);
      [done|].
    rewrite paginate_last_step by lia. by rewrite Hfail. }
  split; [exact Hseason|].
  destruct (fetch_all_lookup _ _ _ _ _ Hall Hi) as (players & Hp & Hr).
  rewrite Hseason in Hp. injection Hp as <-. exact Hr.
Qed.

End PaginateFacts.

Section PaginateExamples.
Import Py Http Players Leaders.

Lemma good_server_serves : serves good_server two_pages.
Proof.
  intros i l Hl. destruct i as [|[|i]]; cbn in Hl;
    [injection Hl as <- | injection Hl as <- | discriminate];
    (split; [discriminate | reflexivity]).
Defined.

Lemma failing_server_serves : serves failing_server two_pages.
Proof.
  intros i l Hl. destruct i as [|[|i]]; cbn in Hl;
    [injection Hl as <- | injection Hl as <- | discriminate];
    (split; [discriminate | reflexivity]).
Defined.

Lemma fetch_players_reads_all_pages_witness :
  option_map (option_map (map (fun p => (id p, name p, points p))))
    (@fetch_players_for_season Example.runtime good_server 5)
  = Some (Some [(1%Z, "Ann"%string, 30%Q); (2%Z, "Bob"%string, 12%Q)]).
Proof.
  rewrite (@fetch_players_reads_all_pages Example.runtime good_server
             two_pages 5 good_server_serves).
  - reflexivity.
  - cbn. lia.
  - right. exists (JList []). split; reflexivity.
Defined.

Lemma failed_page_discards_season_witness :
  @fetch_players_for_season Example.runtime failing_server 5 = Some None
  /\ [@nil PlayerStats] !! 0%nat = Some [].
Proof.
  apply (@failed_page_discards_season Example.runtime failing_server
           two_pages 5 [failing_server] [[]] 0 failing_server_serves).
  - cbn. lia.
  - reflexivity.
  - reflexivity.
  - reflexivity.
Defined.

End PaginateExamples.

Section AllTimeFacts.
Import Py Sportspress Leaders AllTime.
Context {rt : Runtime} {tx : Text}.

Lemma collect_raises {A B} (body : A -> option (list B)) l x :
  In x l -> body x = None -> collect body l = None.
Proof.
  induction l as [|y l IH]; [done|]. intros [->|Hin] Hx; cbn [collect].
  - by rewrite Hx.
  - destruct (body y); [|done]. cbn. by rewrite IH.
Qed.

Lemma alltime_player_raises player_id pd key :
  player_id <> "0"%string ->
  In key alltime_keys ->
  stat_of pd key = None ->
  alltime_player (player_id, JDict pd) = None.
Proof.
  intros Hid Hkey Hfail. unfold alltime_player.
  destruct (String.eqb_spec player_id "0"); [done|].
  unfold alltime_keys in Hkey.
  repeat (destruct Hkey as [<-|Hkey];
          [rewrite Hfail; cbn;
           repeat match goal with
                  | |- context [stat_of pd ?k] => destruct (stat_of pd k); cbn
                  end; done|]).
  destruct Hkey.
Qed.

(** X20: the all-time leaders are computed from all entries or not at
    all.  If one entry of the list, other than the header entry
    ["0"], holds a value that [float] rejects under one of the six
    statistic keys, the result is the empty [LeadersData()], whatever
    the other entries hold. *)
Theorem alltime_leaders_all_or_nothing :
  forall (list_data items pd : list (string * json))
         (player_id key : string) (n : Z),
    dict_get list_data "data" = Some (JDict items) ->
    In (player_id, JDict pd) items ->
    player_id <> "0"%string ->
    In key alltime_keys ->
    stat_of pd key = None ->
    top_n_career_leaders_alltime (Some (JDict list_data)) n
    = LeaderBoard.empty.
Proof.
  intros list_data items pd player_id key n Hdata Hin Hid Hkey Hfail.
  unfold top_n_career_leaders_alltime. rewrite Hdata.
  rewrite (collect_raises alltime_player items (player_id, JDict pd) Hin);
    [done|].
  by eapply alltime_player_raises.
Qed.

End AllTimeFacts.

Section AllTimeExamples.
Import Py Sportspress Leaders AllTime.

Lemma alltime_leaders_all_or_nothing_witness :
  LeaderBoard.points
    (@top_n_career_leaders_alltime Example.runtime Example.text
       (Some (JDict [("data", JDict good_list)])) 3)
  = [mkLeaderEntry "Ann" 120; mkLeaderEntry "Bob" 95]
  /\ @top_n_career_leaders_alltime Example.runtime Example.text
       (Some (JDict [("data", JDict bad_list)])) 3
     = LeaderBoard.empty.
Proof.
  split; [reflexivity|].
  apply (@alltime_leaders_all_or_nothing Example.runtime Example.text
           [("data", JDict bad_list)] bad_list
           [("name", JStr "Cy"); ("pts", JNull)] "9" "pts" 3).
  - reflexivity.
  - right. right. right. left. reflexivity.
  - discriminate.
  - left. reflexivity.
  - reflexivity.
Defined.

End AllTimeExamples.
